(** * AI Engineering Coach: progression, scoring and contest session logic

    A shallow embedding of the state transitions of [src/App.tsx]
    ([handleSubmitTest], [handleJoinContest], [handleSubmitContest], the
    focus-loss listeners) and of [analyzeGaps] from
    [src/services/geminiService.ts], followed by the properties of the
    specification that concern them.

    Conventions of the embedding.
    - A JavaScript number that the code only ever produces as an integer or
      as the result of [0/0] is a [number]: [Num z] or [NaN].  Counters that
      start at zero and are only incremented ([totalTests], the per-tier
      attempt counters, list lengths) are [nat].
    - [Math.round(a / b)] for integers [a] and [b > 0] is [Math_round_div a b],
      the nearest integer with ties towards +infinity, computed on the exact
      quotient.  It is used where the source divides two integers once and
      rounds (the running average, the admin panel): there the double
      quotient rounds as the exact one does, as long as the dividend stays
      below 2^52.
    - Where the source rounds more than once before [Math.round] (the
      percentage [(score / length) * 100] and the countdown
      [(duration - diff) * 60]) the doubles are modelled: a finite double
      is the rational it denotes, and [Double.round] rounds a rational to
      the nearest binary64 number, ties to even.  The exponent range of
      binary64 is not modelled; no value of the program comes near it.
    - A [Record<string, T>] is a [gmap string T]; [obj[k]] is [obj !! k],
      with [None] for [undefined].
    - React state is one record [App]; a handler is a function from [App]
      (and the handler's inputs) to [App].  What the outside world decides
      (the provider's reply, the clock) is an argument of the handler. *)

From stdpp Require Import gmap strings list pretty.
From Stdlib Require Import ZArith Lia QArith Qround Qpower Lqa.
From Stdlib Require SpecFloat.

Close Scope Q_scope.

(** ** JavaScript numbers *)

Inductive number : Type :=
| Num (z : Z)
| NaN.

#[global] Instance number_eq_dec : EqDecision number.
Proof. solve_decision. Defined.

Module JS.

(** [Math.round(a / b)] on the exact quotient, for [b > 0]. *)
Definition Math_round_div (a b : Z) : Z := ((2 * a + b) / (2 * b))%Z.

(** [x * y], [x + y]: [NaN] is absorbing. *)
Definition mul (x y : number) : number :=
  match x, y with
  | Num a, Num b => Num (a * b)
  | _, _ => NaN
  end.

Definition add (x y : number) : number :=
  match x, y with
  | Num a, Num b => Num (a + b)
  | _, _ => NaN
  end.

(** [Math.round(x / n)] for a positive integer divisor [n]. *)
Definition round_div_pos (x : number) (n : Z) : number :=
  match x with
  | Num a => Num (Math_round_div a n)
  | NaN => NaN
  end.

(** [Math.max(x, y)]: [NaN] if either argument is. *)
Definition Math_max (x y : number) : number :=
  match x, y with
  | Num a, Num b => Num (Z.max a b)
  | _, _ => NaN
  end.

(** [x === y] on numbers: [NaN] is not equal to anything. *)
Definition strict_eq (x y : number) : bool :=
  match x, y with
  | Num a, Num b => (a =? b)%Z
  | _, _ => false
  end.

(** [Array.from(new Set(l))]: the elements of [l] in order of first
    occurrence.  [Set_add] is [Set.prototype.add]. *)
Definition Set_add (s : list string) (x : string) : list string :=
  if decide (x ∈ s) then s else s ++ [x].

Definition Array_from_Set (l : list string) : list string :=
  fold_left Set_add l [].

(** [l.slice(0, n)] *)
Definition slice0 {A} (n : nat) (l : list A) : list A := take n l.

(** [l.includes(x)] *)
Definition includes (l : list string) (x : string) : bool :=
  bool_decide (x ∈ l).

End JS.

(** ** Doubles

    The arithmetic of JavaScript numbers (IEEE 754 binary64, round to
    nearest, ties to even) on the finite values that occur: a double is
    the rational it denotes, and each operation is the exact operation
    followed by [round]. *)

Module Double.

(** [2^e], for any integer [e] *)
Definition pow2 (e : Z) : Q := (2 ^ e)%Q.

(** The exponent of a positive rational: [floor (log2 x)]. *)
Definition ilog2 (x : Q) : Z :=
  let k := (Z.log2 (Qnum x) - Z.log2 (Zpos (Qden x)))%Z in
  if Qle_bool (pow2 k) x then k else (k - 1)%Z.

(** The nearest integer, a tie going to the even one. *)
Definition rne (y : Q) : Z :=
  let f := Qfloor y in
  match (y - inject_Z f ?= 1 # 2)%Q with
  | Lt => f
  | Gt => (f + 1)%Z
  | Eq => if Z.even f then f else (f + 1)%Z
  end.

(** The nearest double to a positive rational: with [e] such that
    [2^52 <= x / 2^e < 2^53], the significand is [x / 2^e] rounded to an
    integer of 53 bits. *)
Definition round_pos (x : Q) : Q :=
  let e := (ilog2 x - 52)%Z in
  (inject_Z (rne (x / pow2 e)) * pow2 e)%Q.

(** The nearest double to a rational; rounding is symmetric in the sign. *)
Definition round (x : Q) : Q :=
  match Qnum x with
  | Z0 => 0%Q
  | Zpos _ => round_pos x
  | Zneg _ => (- round_pos (- x))%Q
  end.

(** [x - y], [x * y], [x / y] (for [y] not zero) *)
Definition sub (x y : Q) : Q := round (x - y).
Definition mul (x y : Q) : Q := round (x * y).
Definition div (x y : Q) : Q := round (x / y).

(** [Math.round(x)]: the nearest integer, a tie going up. *)
Definition Math_round (x : Q) : Z := Qfloor (x + (1 # 2))%Q.

(** [x < y] *)
Definition ltb (x y : Q) : bool := negb (Qle_bool y x).

(** The unit roundoff [2^-53]: the relative error of [round] is at most
    [u]. *)
Definition u : Q := 1 # 9007199254740992.

End Double.

(** ** Data model ([geminiService.ts], [App.tsx]) *)

Inductive Difficulty : Type := BEGINNER | ADVANCED | EXPERT.

#[global] Instance Difficulty_eq_dec : EqDecision Difficulty.
Proof. solve_decision. Defined.

Module Question.
Record t : Type := mk {
  id : string;
  text : string;
  options : string * string * string * string;   (* A, B, C, D *)
  correctAnswer : string;
  explanation : string;
  subject : string;
  type : string
  }.
End Question.

Module Feedback.
Record t : Type := mk {
  questionId : string;
  isCorrect : bool;
  selectedAnswer : option string;     (* [answers[q.id]], maybe undefined *)
  correctAnswer : string;
  explanation : string
  }.
End Feedback.

Module Recommendation.
Record t : Type := mk {
  topic : string;
  resources : list (string * string)  (* name, url *)
  }.
End Recommendation.

Module AssessmentResult.
Record t : Type := mk {
  score : nat;
  total : nat;
  feedback : list Feedback.t;
  weakAreas : list string;
  recommendations : list Recommendation.t
  }.
End AssessmentResult.

Module TestAttempt.
Record t : Type := mk {
  date : string;
  subjects : list string;
  level : Difficulty;
  score : number;
  totalQuestions : nat;
  weakAreas : list string;
  attemptNumber : nat
  }.
End TestAttempt.

Inductive Role : Type := STUDENT | ADMIN.

Module UserStats.
Record t : Type := mk {
  name : string;
  email : string;
  password : option string;
  role : Role;
  level : Difficulty;
  badges : list string;
  totalTests : nat;
  highestScore : number;
  averageScore : number;
  beginnerAttempts : nat;
  advancedAttempts : nat;
  expertAttempts : nat;
  lastScores : list number;
  weakAreas : list string;
  placementReady : bool;
  attempts : option (list TestAttempt.t)
  }.
End UserStats.

Module CodingProblem.
Record t : Type := mk {
  id : string;
  title : string;
  description : string;
  constraints : string;
  inputFormat : string;
  outputFormat : string;
  sampleInput : string;
  sampleOutput : string;
  initialCode : gmap string string;
  testCases : list (string * string)
  }.
End CodingProblem.

Module Contest.
(** [startTime] is kept as [new Date(startTime).getTime()], the epoch
    milliseconds of the date-time string of the form (a required
    [datetime-local] field, so a valid date); [duration] is in minutes, the
    integer that [parseInt] made of the form's number field. *)
Record t : Type := mk {
  id : string;
  title : string;
  startTime : Z;
  duration : Z;
  subjects : list string;
  problems : list CodingProblem.t
  }.
End Contest.

Inductive AppState : Type :=
| auth | dashboard | admin_dashboard | subject_selection | study_notes
| detailed_info | external_resources | test_intro | testing | results_page
| review | certificate | admin_create_contest | practice_ide
| contest_lobby | contest_active.

#[global] Instance AppState_eq_dec : EqDecision AppState.
Proof. solve_decision. Defined.

(** The React state of [App] that the modelled handlers read or write,
    together with the [coach_users] entry of [localStorage] ([None] when the
    key is absent).  The entry holds the accounts that were serialised;
    [JSON.stringify] writes a [NaN] field as [null], and in a stored record
    [NaN] stands for that [null].  An account read back keeps the [null],
    which a later [Math.max] or average counts as 0 where [NaN] is
    absorbing: what is stated of an account that was read back and is then
    computed on is stated for numeric scores ([soundScores]). *)
Record App : Type := mkApp {
  user : option UserStats.t;
  selectedSubjects : list string;
  difficulty : Difficulty;
  appState : AppState;
  questions : list Question.t;
  currentQuestionIndex : nat;
  answers : gmap string string;
  isLoading : bool;
  results : option AssessmentResult.t;
  timeLeft : Z;
  activeContest : option Contest.t;
  contestTimeLeft : Z;
  tabSwitches : Z;
  contestProblems : list CodingProblem.t;
  currentProblemIndex : nat;
  coach_users : option (gmap string UserStats.t)
}.

(** ** Scoring and gap analysis *)

Section Scoring.
Import Question.

(** [answers[q.id] === q.correctAnswer] *)
Definition isCorrectAnswer (answers : gmap string string) (q : Question.t) : bool :=
  bool_decide (answers !! id q = Some (correctAnswer q)).

(** [questions.reduce((acc, q) => acc + (... ? 1 : 0), 0)] *)
Definition score_of (questions : list Question.t) (answers : gmap string string) : nat :=
  fold_left (fun acc q => acc + (if isCorrectAnswer answers q then 1 else 0))
            questions 0.

(** [Math.round((score / questions.length) * 100)]: the quotient is
    rounded to a double, then the product, then [Math.round] takes the
    nearest integer.  With no question the score is 0 as well and [0 / 0]
    is [NaN]. *)
Definition percentage_of (score len : nat) : number :=
  match len with
  | O => NaN
  | S _ =>
      Num (Double.Math_round
             (Double.mul (Double.div (inject_Z (Z.of_nat score))
                                     (inject_Z (Z.of_nat len)))
                         100))
  end.

Definition feedback_of (answers : gmap string string) (q : Question.t) : Feedback.t :=
  {| Feedback.questionId := id q;
     Feedback.isCorrect := isCorrectAnswer answers q;
     Feedback.selectedAnswer := answers !! id q;
     Feedback.correctAnswer := correctAnswer q;
     Feedback.explanation := explanation q |}.

Definition initialResults (questions : list Question.t)
    (answers : gmap string string) : AssessmentResult.t :=
  {| AssessmentResult.score := score_of questions answers;
     AssessmentResult.total := length questions;
     AssessmentResult.feedback := map (feedback_of answers) questions;
     AssessmentResult.weakAreas := [];
     AssessmentResult.recommendations := [] |}.
End Scoring.

(** What the request of [analyzeGaps] to the content provider comes to:
    [generateContent] rejects, or its text does not parse, or it parses to
    an object that, following the response schema of the request, may give
    [weakAreas] (strings) and [recommendations].  The provider is held to
    that schema: a reply with other keys, which [{...results, ...analysis}]
    would lay over [score], [total] or [feedback], or with a [weakAreas]
    that is not a list, is outside the model. *)
Inductive GapReply : Type :=
| RequestRejected
| Unparseable
| Analysis (weakAreas : option (list string))
           (recommendations : option (list Recommendation.t)).

(** [analyzeGaps(results)]; [None] when the returned promise rejects. *)
Definition analyzeGaps (r : AssessmentResult.t) (reply : GapReply)
    : option AssessmentResult.t :=
  let with_areas w rc :=
    {| AssessmentResult.score := AssessmentResult.score r;
       AssessmentResult.total := AssessmentResult.total r;
       AssessmentResult.feedback := AssessmentResult.feedback r;
       AssessmentResult.weakAreas := w;
       AssessmentResult.recommendations := rc |} in
  if decide (AssessmentResult.score r = AssessmentResult.total r) then
    Some (with_areas [] [])
  else
    match reply with
    | RequestRejected => None
    | Unparseable => Some r
    | Analysis w rc =>
        Some (with_areas (default (AssessmentResult.weakAreas r) w)
                         (default (AssessmentResult.recommendations r) rc))
    end.

(** ** Progression ([handleSubmitTest], the [if (user)] block) *)

Section Progression.
Import UserStats.

(** The three branches under [if (percentage === 100)]: the new
    [level], [badges] and [placementReady].  [updatedStats] is a shallow
    copy of [user], so [updatedStats.badges.push(b)] also extends the array
    of the state object it replaces; each branch tests
    [user.badges.includes] before its push and nothing reads the replaced
    object afterwards, so the new list is given as [badges u ++ [b]]. *)
Definition progressionLogic (u : UserStats.t) (d : Difficulty) (percentage : number)
    : Difficulty * list string * bool :=
  if JS.strict_eq percentage (Num 100) then
    if bool_decide (d = BEGINNER) && negb (JS.includes (badges u) "Beginner Champion") then
      (ADVANCED, badges u ++ ["Beginner Champion"], placementReady u)
    else if bool_decide (d = ADVANCED) && negb (JS.includes (badges u) "Advanced Master") then
      (EXPERT, badges u ++ ["Advanced Master"], placementReady u)
    else if bool_decide (d = EXPERT) && negb (JS.includes (badges u) "Expert Legend") then
      (level u, badges u ++ ["Expert Legend"], true)
    else (level u, badges u, placementReady u)
  else (level u, badges u, placementReady u).

Definition updateStats (u : UserStats.t) (d : Difficulty) (subjects : list string)
    (nquestions : nat) (percentage : number) (analyzedWeakAreas : list string)
    (now : string) : UserStats.t :=
  let oldTotal := totalTests u in
  let newTotal := oldTotal + 1 in
  let newAttempt :=
    {| TestAttempt.date := now;
       TestAttempt.subjects := subjects;
       TestAttempt.level := d;
       TestAttempt.score := percentage;
       TestAttempt.totalQuestions := nquestions;
       TestAttempt.weakAreas := analyzedWeakAreas;
       TestAttempt.attemptNumber := newTotal |} in
  let '(newLevel, newBadges, newReady) := progressionLogic u d percentage in
  {| name := name u;
     email := email u;
     password := password u;
     role := role u;
     level := newLevel;
     badges := newBadges;
     totalTests := newTotal;
     highestScore := JS.Math_max (highestScore u) percentage;
     averageScore :=
       JS.round_div_pos
         (JS.add (JS.mul (averageScore u) (Num (Z.of_nat oldTotal))) percentage)
         (Z.of_nat newTotal);
     beginnerAttempts := beginnerAttempts u + (if decide (d = BEGINNER) then 1 else 0);
     advancedAttempts := advancedAttempts u + (if decide (d = ADVANCED) then 1 else 0);
     expertAttempts := expertAttempts u + (if decide (d = EXPERT) then 1 else 0);
     lastScores := JS.slice0 5 (percentage :: lastScores u);
     weakAreas :=
       JS.slice0 10 (JS.Array_from_Set (weakAreas u ++ analyzedWeakAreas));
     placementReady := newReady;
     attempts := Some (newAttempt :: default [] (attempts u)) |}.
End Progression.

(** [handleSubmitTest], run to the end of its [finally] block.  [reply] is
    the provider's answer to the gap analysis request and [now] is
    [new Date().toLocaleString()]. *)
Definition handleSubmitTest (reply : GapReply) (now : string) (st : App) : App :=
  let percentage :=
    percentage_of (score_of (questions st) (answers st)) (length (questions st)) in
  let initial := initialResults (questions st) (answers st) in
  let finish (res : AssessmentResult.t) (usr : option UserStats.t)
             (store : option (gmap string UserStats.t)) : App :=
    {| user := usr;
       selectedSubjects := selectedSubjects st;
       difficulty := difficulty st;
       appState := results_page;
       questions := questions st;
       currentQuestionIndex := currentQuestionIndex st;
       answers := answers st;
       isLoading := false;
       results := Some res;
       timeLeft := timeLeft st;
       activeContest := activeContest st;
       contestTimeLeft := contestTimeLeft st;
       tabSwitches := tabSwitches st;
       contestProblems := contestProblems st;
       currentProblemIndex := currentProblemIndex st;
       coach_users := store |} in
  match analyzeGaps initial reply with
  | Some analyzed =>
      match user st with
      | Some u =>
          let updatedStats :=
            updateStats u (difficulty st) (selectedSubjects st)
                        (length (questions st)) percentage
                        (AssessmentResult.weakAreas analyzed) now in
          finish analyzed (Some updatedStats)
                 (match coach_users st with
                  | Some users => Some (<[UserStats.email u := updatedStats]> users)
                  | None => None
                  end)
      | None => finish analyzed None (coach_users st)
      end
  | None => finish initial (user st) (coach_users st)
  end.

(** ** Contest session ([handleJoinContest], [handleSubmitContest], the
    focus-loss listeners) *)

(** The calls of [alert] made by the contest handlers, in the order made. *)
Inductive Alert : Type :=
| NotStartedYet (startTime : Z)
| AlreadyEnded
| ContestSubmitted
| MaxTabSwitches
| MaxScreenOff
| WarnTabSwitch (chancesLeft : Z)
| WarnScreenOff (chancesLeft : Z).

#[global] Instance Alert_eq_dec : EqDecision Alert.
Proof. solve_decision. Defined.

Definition setAppState (a : AppState) (st : App) : App :=
  {| user := user st; selectedSubjects := selectedSubjects st;
     difficulty := difficulty st; appState := a; questions := questions st;
     currentQuestionIndex := currentQuestionIndex st; answers := answers st;
     isLoading := isLoading st; results := results st; timeLeft := timeLeft st;
     activeContest := activeContest st; contestTimeLeft := contestTimeLeft st;
     tabSwitches := tabSwitches st; contestProblems := contestProblems st;
     currentProblemIndex := currentProblemIndex st; coach_users := coach_users st |}.

Definition setTabSwitches (n : Z) (st : App) : App :=
  {| user := user st; selectedSubjects := selectedSubjects st;
     difficulty := difficulty st; appState := appState st; questions := questions st;
     currentQuestionIndex := currentQuestionIndex st; answers := answers st;
     isLoading := isLoading st; results := results st; timeLeft := timeLeft st;
     activeContest := activeContest st; contestTimeLeft := contestTimeLeft st;
     tabSwitches := n; contestProblems := contestProblems st;
     currentProblemIndex := currentProblemIndex st; coach_users := coach_users st |}.

(** [diff = (now.getTime() - start.getTime()) / 1000 / 60] at clock
    reading [now] (epoch milliseconds): the minutes since the start, after
    the rounding of the subtraction and of the two divisions. *)
Definition diff (contest : Contest.t) (now : Z) : Q :=
  Double.div
    (Double.div (Double.sub (inject_Z now) (inject_Z (Contest.startTime contest))) 1000)
    60.

(** [Math.round((contest.duration - diff) * 60)] *)
Definition secondsLeft (contest : Contest.t) (now : Z) : Z :=
  Double.Math_round
    (Double.mul (Double.sub (inject_Z (Contest.duration contest)) (diff contest now))
                60).

(** [handleJoinContest(contest)] at clock reading [now]. *)
Definition handleJoinContest (contest : Contest.t) (now : Z) (st : App)
    : App * list Alert :=
  if Double.ltb (diff contest now) 0 then
    (st, [NotStartedYet (Contest.startTime contest)])
  else if Double.ltb (inject_Z (Contest.duration contest)) (diff contest now) then
    (st, [AlreadyEnded])
  else
    ({| user := user st; selectedSubjects := selectedSubjects st;
        difficulty := difficulty st;
        appState := contest_active;
        questions := questions st;
        currentQuestionIndex := currentQuestionIndex st; answers := answers st;
        isLoading := isLoading st; results := results st; timeLeft := timeLeft st;
        activeContest := Some contest;
        contestTimeLeft := secondsLeft contest now;
        tabSwitches := 0;
        contestProblems := Contest.problems contest;
        currentProblemIndex := 0;
        coach_users := coach_users st |}, []).

Definition handleSubmitContest (st : App) : App * list Alert :=
  (setAppState dashboard st, [ContestSubmitted]).

(** The updater passed to [setTabSwitches] by both listeners; they differ
    in the wording of their alerts only. *)
Definition countViolation (maxAlert : Alert) (warn : Z → Alert) (st : App)
    : App * list Alert :=
  let newVal := (tabSwitches st + 1)%Z in
  if (3 <=? newVal)%Z then
    let '(st', out) := handleSubmitContest st in
    (setTabSwitches newVal st', maxAlert :: out)
  else
    (setTabSwitches newVal st, [warn (3 - newVal)%Z]).

(** [document.hidden] at the time of the event is [hidden]. *)
Definition handleVisibilityChange (hidden : bool) (st : App) : App * list Alert :=
  if hidden then countViolation MaxTabSwitches WarnTabSwitch st else (st, []).

Definition handleBlur (st : App) : App * list Alert :=
  countViolation MaxScreenOff WarnScreenOff st.

Inductive FocusEvent : Type :=
| visibilitychange (hidden : bool)
| blur.

(** One call of the listener that the event [ev] has. *)
Definition handleFocusEvent (ev : FocusEvent) (st : App) : App * list Alert :=
  match ev with
  | visibilitychange hidden => handleVisibilityChange hidden st
  | blur => handleBlur st
  end.

(** The listeners called for the events [evs], in this order.  Neither
    listener looks at [appState]. *)
Fixpoint deliver (evs : list FocusEvent) (st : App) : App * list Alert :=
  match evs with
  | [] => (st, [])
  | ev :: evs' =>
      let '(st1, out1) := handleFocusEvent ev st in
      let '(st2, out2) := deliver evs' st1 in
      (st2, out1 ++ out2)
  end.

(** The effect that installs the two listeners depends on [appState]: run
    after a render with [appState] ['contest-active'] it attaches them, and
    its clean-up, run after the next render in which [appState] has
    changed, removes them.  [dispatch evs st] is what the focus events
    [evs] do that arrive, in this order, after the render of the state
    [st] and before the next render: all of them are handled if the
    session was active at that render, and none otherwise.  (Hiding the
    tab fires [visibilitychange] and [blur] together.) *)
Definition dispatch (evs : list FocusEvent) (st : App) : App * list Alert :=
  if decide (appState st = contest_active) then deliver evs st else (st, []).



(** A focus loss: the tab is hidden or the window loses focus. *)
Definition focusLoss (ev : FocusEvent) : bool :=
  match ev with
  | visibilitychange hidden => hidden
  | blur => true
  end.

Definition warningFor (ev : FocusEvent) : Z → Alert :=
  match ev with
  | visibilitychange _ => WarnTabSwitch
  | blur => WarnScreenOff
  end.

(** How many times the contest was submitted, read off the alerts. *)
Definition submissions (out : list Alert) : nat :=
  length (filter (λ a, a = ContestSubmitted) out).

(** How many of the events are focus losses. *)
Definition focusLosses (evs : list FocusEvent) : nat :=
  length (filter (λ ev, focusLoss ev = true) evs).

(** ** Initial values ([useState] defaults, [handleAuth] registration) *)

Definition initialApp : App :=
  {| user := None; selectedSubjects := []; difficulty := BEGINNER;
     appState := auth; questions := []; currentQuestionIndex := 0;
     answers := ∅; isLoading := false; results := None; timeLeft := 120;
     activeContest := None; contestTimeLeft := 120 * 60; tabSwitches := 0;
     contestProblems := []; currentProblemIndex := 0; coach_users := None |}.

Definition newUser (name email password : string) (finalRole : Role) : UserStats.t :=
  {| UserStats.name := name; UserStats.email := email;
     UserStats.password := Some password; UserStats.role := finalRole;
     UserStats.level := BEGINNER; UserStats.badges := [];
     UserStats.totalTests := 0; UserStats.highestScore := Num 0;
     UserStats.averageScore := Num 0; UserStats.beginnerAttempts := 0;
     UserStats.advancedAttempts := 0; UserStats.expertAttempts := 0;
     UserStats.lastScores := []; UserStats.weakAreas := [];
     UserStats.placementReady := false; UserStats.attempts := None |}.

(** ** Sequences of completed assessments *)

(** What [handleSubmitTest] hands to the progression block for one
    assessment of at least one question: its percentage is an integer.  An
    empty batch, whose percentage is [NaN], is treated on [updateStats]
    itself. *)
Record Completed : Type := mkCompleted {
  takenAt : Difficulty;
  onSubjects : list string;
  questionCount : nat;
  percentage : Z;
  foundWeakAreas : list string;
  finishedAt : string
}.

Definition recordAssessment (u : UserStats.t) (c : Completed) : UserStats.t :=
  updateStats u (takenAt c) (onSubjects c) (questionCount c)
              (Num (percentage c)) (foundWeakAreas c) (finishedAt c).

Definition afterAssessments (u : UserStats.t) (cs : list Completed) : UserStats.t :=
  fold_left recordAssessment cs u.

(** The two readings of the running average in the specification: the
    incremental formula [newAvg = round((oldAvg*oldTotal + newPct) / newTotal)]
    iterated from [(0, 0)], and [round(mean(scores))]. *)
Definition incrementalStep (st : Z * Z) (newPct : Z) : Z * Z :=
  let '(oldAvg, oldTotal) := st in
  (JS.Math_round_div (oldAvg * oldTotal + newPct) (oldTotal + 1), (oldTotal + 1)%Z).

Definition incrementalAverage (scores : list Z) : Z :=
  fst (fold_left incrementalStep scores (0%Z, 0%Z)).

Definition sumScores (scores : list Z) : Z := foldr Z.add 0%Z scores.

Definition roundedMean (scores : list Z) : Z :=
  JS.Math_round_div (sumScores scores) (Z.of_nat (length scores)).

(** The badge that a perfect score at a tier earns. *)
Definition badgeFor (d : Difficulty) : string :=
  match d with
  | BEGINNER => "Beginner Champion"
  | ADVANCED => "Advanced Master"
  | EXPERT => "Expert Legend"
  end.

(** ** Example inputs and the specification's readings *)

Definition demoUser : UserStats.t := newUser "Asha" "asha@example.org" "secret" STUDENT.

Definition scored (d : Difficulty) (pct : Z) : Completed :=
  {| takenAt := d; onSubjects := ["DSA"]; questionCount := 10; percentage := pct;
     foundWeakAreas := []; finishedAt := "1/1/2026, 10:00:00 AM" |}.

Definition perfectThenSixZeros : list Completed :=
  scored BEGINNER 100 :: repeat (scored ADVANCED 0) 6.


Definition foundIn (pct : Z) (areas : list string) (at_ : string) : Completed :=
  {| takenAt := BEGINNER; onSubjects := ["DSA"]; questionCount := 10;
     percentage := pct; foundWeakAreas := areas; finishedAt := at_ |}.



Definition sampleQuestion (n : nat) : Question.t :=
  {| Question.id := "q" +:+ pretty n;
     Question.text := "Question " +:+ pretty n;
     Question.options := ("first", "second", "third", "fourth");
     Question.correctAnswer := "B";
     Question.explanation := "See the notes.";
     Question.subject := "DSA";
     Question.type := "Theory" |}.

Definition batch (n : nat) : list Question.t := map sampleQuestion (seq 1 n).

(** The answers of a candidate who picked the right option for each of [qs]. *)
Definition answeredRight (qs : list Question.t) : gmap string string :=
  list_to_map (map (λ q, (Question.id q, Question.correctAnswer q)) qs).

(** A signed-in candidate in the middle of a test. *)
Definition sitting (u : UserStats.t) (d : Difficulty) (qs : list Question.t)
    (ans : gmap string string) : App :=
  {| user := Some u; selectedSubjects := ["DSA"]; difficulty := d;
     appState := testing; questions := qs; currentQuestionIndex := length qs - 1;
     answers := ans; isLoading := false; results := None; timeLeft := 0;
     activeContest := None; contestTimeLeft := 120 * 60; tabSwitches := 0;
     contestProblems := []; currentProblemIndex := 0;
     coach_users := Some {[ UserStats.email u := u ]} |}.

Definition sevenOfTen : App :=
  sitting demoUser BEGINNER (batch 10) (answeredRight (take 7 (batch 10))).

Definition threeOfFour : App :=
  sitting demoUser BEGINNER (batch 4) (answeredRight (take 3 (batch 4))).

Definition perfectHundred : App :=
  sitting demoUser BEGINNER (batch 100) (answeredRight (batch 100)).

(** The fresh account on a page whose difficulty is still EXPERT, as a
    registration after the logout of an EXPERT candidate leaves it. *)
Definition perfectHundredAtExpert : App :=
  sitting demoUser EXPERT (batch 100) (answeredRight (batch 100)).

(** An account that went through the three tiers with perfect scores. *)
Definition legend : UserStats.t :=
  afterAssessments demoUser
    [scored BEGINNER 100; scored ADVANCED 100; scored EXPERT 100].

Definition legendAgain : App :=
  sitting legend EXPERT (batch 10) (answeredRight (batch 10)).

Definition legendFails : App :=
  sitting legend BEGINNER (batch 10) ∅.

Definition nothingToAnswer : App := sitting legend EXPERT [] ∅.

(** The countdown as the specification words it: the seconds left,
    rounded down. *)
Definition flooredCountdown (contest : Contest.t) (now : Z) : Z :=
  ((Contest.duration contest * 60000 - (now - Contest.startTime contest)) / 1000)%Z.

Definition weekly : Contest.t :=
  {| Contest.id := "k3x9p2q7a"; Contest.title := "Weekly Coding Challenge #1";
     Contest.startTime := 1767261600000; Contest.duration := 120;
     Contest.subjects := ["DSA"]; Contest.problems := [] |}.

(** A contest like [weekly] that lasts [minutes] minutes. *)
Definition lasting (minutes : Z) : Contest.t :=
  {| Contest.id := "k3x9p2q7a"; Contest.title := "Weekly Coding Challenge #1";
     Contest.startTime := 1767261600000; Contest.duration := minutes;
     Contest.subjects := ["DSA"]; Contest.problems := [] |}.

Definition inLobby : App := setAppState contest_lobby (sitting demoUser BEGINNER [] ∅).

Definition joined : App := (handleJoinContest weekly 1767261690400 inLobby).1.

(** The lobby page after a join of [contest] that left [seconds] on the
    countdown. *)
Definition joinedAt (contest : Contest.t) (seconds : Z) : App :=
  {| user := user inLobby; selectedSubjects := selectedSubjects inLobby;
     difficulty := difficulty inLobby; appState := contest_active;
     questions := questions inLobby;
     currentQuestionIndex := currentQuestionIndex inLobby; answers := answers inLobby;
     isLoading := isLoading inLobby; results := results inLobby;
     timeLeft := timeLeft inLobby; activeContest := Some contest;
     contestTimeLeft := seconds; tabSwitches := 0;
     contestProblems := Contest.problems contest; currentProblemIndex := 0;
     coach_users := coach_users inLobby |}.



(** ** The assessment session ([handleStartTest], [handleAnswerSelect],
    [handleNextQuestion], the per-question timer) *)

Definition setQuestionIndex (i : nat) (t : Z) (st : App) : App :=
  {| user := user st; selectedSubjects := selectedSubjects st;
     difficulty := difficulty st; appState := appState st; questions := questions st;
     currentQuestionIndex := i; answers := answers st;
     isLoading := isLoading st; results := results st; timeLeft := t;
     activeContest := activeContest st; contestTimeLeft := contestTimeLeft st;
     tabSwitches := tabSwitches st; contestProblems := contestProblems st;
     currentProblemIndex := currentProblemIndex st; coach_users := coach_users st |}.

Definition setAnswers (a : gmap string string) (st : App) : App :=
  {| user := user st; selectedSubjects := selectedSubjects st;
     difficulty := difficulty st; appState := appState st; questions := questions st;
     currentQuestionIndex := currentQuestionIndex st; answers := a;
     isLoading := isLoading st; results := results st; timeLeft := timeLeft st;
     activeContest := activeContest st; contestTimeLeft := contestTimeLeft st;
     tabSwitches := tabSwitches st; contestProblems := contestProblems st;
     currentProblemIndex := currentProblemIndex st; coach_users := coach_users st |}.

Definition setIsLoading (b : bool) (st : App) : App :=
  {| user := user st; selectedSubjects := selectedSubjects st;
     difficulty := difficulty st; appState := appState st; questions := questions st;
     currentQuestionIndex := currentQuestionIndex st; answers := answers st;
     isLoading := b; results := results st; timeLeft := timeLeft st;
     activeContest := activeContest st; contestTimeLeft := contestTimeLeft st;
     tabSwitches := tabSwitches st; contestProblems := contestProblems st;
     currentProblemIndex := currentProblemIndex st; coach_users := coach_users st |}.

Definition setSelectedSubjects (l : list string) (st : App) : App :=
  {| user := user st; selectedSubjects := l;
     difficulty := difficulty st; appState := appState st; questions := questions st;
     currentQuestionIndex := currentQuestionIndex st; answers := answers st;
     isLoading := isLoading st; results := results st; timeLeft := timeLeft st;
     activeContest := activeContest st; contestTimeLeft := contestTimeLeft st;
     tabSwitches := tabSwitches st; contestProblems := contestProblems st;
     currentProblemIndex := currentProblemIndex st; coach_users := coach_users st |}.

(** What the request of [generateQuestions] comes to: [generateContent]
    rejects, or its text does not parse (the function then returns [[]]),
    or it parses to an array of questions. *)
Inductive QuestionsReply : Type :=
| QuestionsRejected
| QuestionsUnparseable
| QuestionsParsed (qs : list Question.t).

(** [generateQuestions(subjects, difficulty)]; [None] when the promise
    rejects. *)
Definition generateQuestions (reply : QuestionsReply) : option (list Question.t) :=
  match reply with
  | QuestionsRejected => None
  | QuestionsUnparseable => Some []
  | QuestionsParsed qs => Some qs
  end.

(** The calls of [alert] made by [handleStartTest] and [handleAuth]. *)
Inductive Notice : Type :=
| OfflineCannotStart
| UserAlreadyExists
| InvalidAdminCode
| InvalidCredentials
| UserNotFound.

(** [handleStartTest], run to the end of its [finally] block. *)
Definition handleStartTest (isOnline : bool) (reply : QuestionsReply) (st : App)
    : App * list Notice :=
  if negb isOnline then (st, [OfflineCannotStart])
  else
    match generateQuestions reply with
    | Some q =>
        ({| user := user st; selectedSubjects := selectedSubjects st;
            difficulty := difficulty st;
            appState := testing;
            questions := q;
            currentQuestionIndex := 0;
            answers := ∅;
            isLoading := false; results := results st;
            timeLeft := 120;
            activeContest := activeContest st; contestTimeLeft := contestTimeLeft st;
            tabSwitches := tabSwitches st; contestProblems := contestProblems st;
            currentProblemIndex := currentProblemIndex st;
            coach_users := coach_users st |}, [])
    | None => (setIsLoading false st, [])
    end.

(** [handleAnswerSelect(answer)].  Without a current question the handler
    throws before it sets anything. *)
Definition handleAnswerSelect (answer : string) (st : App) : App :=
  match questions st !! currentQuestionIndex st with
  | Some q => setAnswers (<[Question.id q := answer]> (answers st)) st
  | None => st
  end.

(** [handleNextQuestion]: [currentQuestionIndex < questions.length - 1] on
    integers is [currentQuestionIndex + 1 < questions.length]. *)
Definition handleNextQuestion (reply : GapReply) (now : string) (st : App) : App :=
  if bool_decide (currentQuestionIndex st + 1 < length (questions st)) then
    setQuestionIndex (currentQuestionIndex st + 1) 120 st
  else handleSubmitTest reply now st.

(** The timer effect, re-run when [appState] or [timeLeft] changes: at
    [timeLeft === 0] in a running test it calls [handleNextQuestion]. *)
Definition timerEffect (reply : GapReply) (now : string) (st : App) : App :=
  if bool_decide (appState st = testing) && (timeLeft st =? 0)%Z then
    handleNextQuestion reply now st
  else st.

(** One second of the interval that the effect installs while a test runs
    with [timeLeft > 0], followed by the effect for the new [timeLeft]. *)
Definition tick (reply : GapReply) (now : string) (st : App) : App :=
  if bool_decide (appState st = testing) && (0 <? timeLeft st)%Z then
    timerEffect reply now (setQuestionIndex (currentQuestionIndex st) (timeLeft st - 1) st)
  else st.

Definition ticks (n : nat) (reply : GapReply) (now : string) (st : App) : App :=
  Nat.iter n (tick reply now) st.

(** [toggleSubject(subject)] *)
Definition toggleSubject (subject : string) (st : App) : App :=
  setSelectedSubjects
    (if JS.includes (selectedSubjects st) subject
     then filter (λ s, s ≠ subject) (selectedSubjects st)
     else selectedSubjects st ++ [subject])
    st.

(** ** The contest session: timer, manual submission and navigation *)

Definition setContestTimeLeft (t : Z) (st : App) : App :=
  {| user := user st; selectedSubjects := selectedSubjects st;
     difficulty := difficulty st; appState := appState st; questions := questions st;
     currentQuestionIndex := currentQuestionIndex st; answers := answers st;
     isLoading := isLoading st; results := results st; timeLeft := timeLeft st;
     activeContest := activeContest st; contestTimeLeft := t;
     tabSwitches := tabSwitches st; contestProblems := contestProblems st;
     currentProblemIndex := currentProblemIndex st; coach_users := coach_users st |}.

Definition setCurrentProblemIndex (i : nat) (st : App) : App :=
  {| user := user st; selectedSubjects := selectedSubjects st;
     difficulty := difficulty st; appState := appState st; questions := questions st;
     currentQuestionIndex := currentQuestionIndex st; answers := answers st;
     isLoading := isLoading st; results := results st; timeLeft := timeLeft st;
     activeContest := activeContest st; contestTimeLeft := contestTimeLeft st;
     tabSwitches := tabSwitches st; contestProblems := contestProblems st;
     currentProblemIndex := i; coach_users := coach_users st |}.

(** The contest timer effect: at [contestTimeLeft === 0] in an active
    contest it calls [handleSubmitContest]. *)
Definition contestTimerEffect (st : App) : App * list Alert :=
  if bool_decide (appState st = contest_active) && (contestTimeLeft st =? 0)%Z then
    handleSubmitContest st
  else (st, []).

(** One second of the contest interval, followed by the effect. *)
Definition contestTick (st : App) : App * list Alert :=
  if bool_decide (appState st = contest_active) && (0 <? contestTimeLeft st)%Z then
    contestTimerEffect (setContestTimeLeft (contestTimeLeft st - 1) st)
  else (st, []).

(** [handleJoinContest] followed by the timer effect for the new state. *)
Definition joinContest (contest : Contest.t) (now : Z) (st : App) : App * list Alert :=
  let '(st1, out1) := handleJoinContest contest now st in
  let '(st2, out2) := contestTimerEffect st1 in
  (st2, out1 ++ out2).

(** The "Previous Problem" and "Next Problem" buttons with their
    [disabled] conditions, [currentProblemIndex === 0] and
    [currentProblemIndex === contestProblems.length - 1]. *)
Definition previousProblem (st : App) : App :=
  if bool_decide (currentProblemIndex st = 0) then st
  else setCurrentProblemIndex (currentProblemIndex st - 1) st.

Definition nextProblem (st : App) : App :=
  if bool_decide (currentProblemIndex st + 1 = length (contestProblems st)) then st
  else setCurrentProblemIndex (currentProblemIndex st + 1) st.

(** What can happen to the page while the contest view is shown, each
    followed by a render: a group of focus events that arrive together, a
    second of the timer, a click.  The view, and with it the three
    buttons, exists only while [appState] is ['contest-active'] and
    [activeContest] is set. *)
Inductive ContestEvent : Type :=
| Focus (evs : list FocusEvent)
| Second
| SubmitClick
| PreviousClick
| NextClick.

Definition contestViewShown (st : App) : bool :=
  bool_decide (appState st = contest_active) && bool_decide (is_Some (activeContest st)).

Definition contestStep (ev : ContestEvent) (st : App) : App * list Alert :=
  match ev with
  | Focus evs => dispatch evs st
  | Second => contestTick st
  | SubmitClick => if contestViewShown st then handleSubmitContest st else (st, [])
  | PreviousClick => if contestViewShown st then (previousProblem st, []) else (st, [])
  | NextClick => if contestViewShown st then (nextProblem st, []) else (st, [])
  end.

Fixpoint contestRun (evs : list ContestEvent) (st : App) : App * list Alert :=
  match evs with
  | [] => (st, [])
  | ev :: evs' =>
      let '(st1, out1) := contestStep ev st in
      let '(st2, out2) := contestRun evs' st1 in
      (st2, out1 ++ out2)
  end.

(** The code editor of the contest view.  [a || b] on strings takes [b]
    when [a] is [undefined] or empty; [obj[undefined]] reads the key
    ["undefined"]. *)
Definition orElse (a b : option string) : option string :=
  match a with
  | Some s => if decide (s = "") then b else Some s
  | None => b
  end.

(** [codingSubmissions[p?.id] || p?.initialCode[selectedLanguage] || '']
    for [p = contestProblems[currentProblemIndex]]. *)
Definition editorValue (codingSubmissions : gmap string string)
    (problems : list CodingProblem.t) (index : nat) (selectedLanguage : string) : string :=
  let p := problems !! index in
  default ""
    (orElse (codingSubmissions !! from_option CodingProblem.id "undefined" p)
            (orElse (p ≫= λ p, CodingProblem.initialCode p !! selectedLanguage)
                    (Some ""))).

(** The editor's [onChange]: [{...prev, [p.id]: val || ''}]; without a
    current problem it throws. *)
Definition editorChange (val : option string) (problems : list CodingProblem.t)
    (index : nat) (codingSubmissions : gmap string string) : gmap string string :=
  match problems !! index with
  | Some p => <[CodingProblem.id p := default "" (orElse val (Some ""))]> codingSubmissions
  | None => codingSubmissions
  end.

(** ** Accounts: [handleAuth], [handleLogout], the start-up effect and the
    admin panel *)

Inductive AuthMode : Type := login | register.

#[global] Instance Role_eq_dec : EqDecision Role.
Proof. solve_decision. Defined.

Module AuthForm.
(** The fields of the sign-in form, each a piece of React state. *)
Record t : Type := mk {
  authMode : AuthMode;
  name : string;
  email : string;
  password : string;
  role : Role;
  adminCode : string
}.
End AuthForm.

(** The page: the state of [App], the sign-in form and the
    [coach_current_user_email] entry of [localStorage]. *)
Record Page : Type := mkPage {
  state : App;
  form : AuthForm.t;
  coach_current_user_email : option string
}.

(** [setUser], [setDifficulty] and [setAppState] as done on a successful
    sign-in, with the store as written. *)
Definition signedIn (u : UserStats.t) (d : Difficulty)
    (store : option (gmap string UserStats.t)) (st : App) : App :=
  {| user := Some u; selectedSubjects := selectedSubjects st;
     difficulty := d;
     appState := match UserStats.role u with
                 | ADMIN => admin_dashboard
                 | STUDENT => dashboard
                 end;
     questions := questions st;
     currentQuestionIndex := currentQuestionIndex st; answers := answers st;
     isLoading := isLoading st; results := results st; timeLeft := timeLeft st;
     activeContest := activeContest st; contestTimeLeft := contestTimeLeft st;
     tabSwitches := tabSwitches st; contestProblems := contestProblems st;
     currentProblemIndex := currentProblemIndex st; coach_users := store |}.

Definition signedOut (st : App) : App :=
  {| user := None; selectedSubjects := selectedSubjects st;
     difficulty := difficulty st; appState := auth; questions := questions st;
     currentQuestionIndex := currentQuestionIndex st; answers := answers st;
     isLoading := isLoading st; results := results st; timeLeft := timeLeft st;
     activeContest := activeContest st; contestTimeLeft := contestTimeLeft st;
     tabSwitches := tabSwitches st; contestProblems := contestProblems st;
     currentProblemIndex := currentProblemIndex st; coach_users := coach_users st |}.

(** [handleAuth]: registration does not call [setDifficulty]; a sign-in
    sets it to the account's level. *)
Definition handleAuth (p : Page) : Page * list Notice :=
  let f := form p in
  let users := default ∅ (coach_users (state p)) in
  match AuthForm.authMode f with
  | register =>
      match users !! AuthForm.email f with
      | Some _ => (p, [UserAlreadyExists])
      | None =>
          let '(finalRole, notes) :=
            match AuthForm.role f with
            | ADMIN =>
                if decide (AuthForm.adminCode f = "ADMIN123") then (ADMIN, [])
                else (STUDENT, [InvalidAdminCode])
            | STUDENT => (STUDENT, [])
            end in
          let nu := newUser (AuthForm.name f) (AuthForm.email f)
                            (AuthForm.password f) finalRole in
          ({| state := signedIn nu (difficulty (state p))
                         (Some (<[AuthForm.email f := nu]> users)) (state p);
              form := f;
              coach_current_user_email := Some (AuthForm.email f) |}, notes)
      end
  | login =>
      match users !! AuthForm.email f with
      | Some userData =>
          if decide (UserStats.password userData = Some (AuthForm.password f)) then
            ({| state := signedIn userData (UserStats.level userData)
                           (coach_users (state p)) (state p);
                form := f;
                coach_current_user_email := Some (AuthForm.email f) |}, [])
          else (p, [InvalidCredentials])
      | None => (p, [UserNotFound])
      end
  end.

(** [handleLogout]: the session pointer is removed and the text fields of
    the form are cleared; [difficulty] is left as it is. *)
Definition handleLogout (p : Page) : Page :=
  {| state := signedOut (state p);
     form := {| AuthForm.authMode := AuthForm.authMode (form p);
                AuthForm.name := ""; AuthForm.email := ""; AuthForm.password := "";
                AuthForm.role := AuthForm.role (form p);
                AuthForm.adminCode := AuthForm.adminCode (form p) |};
     coach_current_user_email := None |}.

(** The start-up effect on the part of the state modelled here:
    [if (currentEmail && savedUsers)] and [if (userData)].  The account is
    taken from the store as it is kept there (a [NaN] in it is the stored
    [null]). *)
Definition restoreSession (p : Page) : Page :=
  match coach_current_user_email p, coach_users (state p) with
  | Some currentEmail, Some users =>
      if decide (currentEmail = "") then p
      else
        match users !! currentEmail with
        | Some userData =>
            {| state := signedIn userData (UserStats.level userData)
                          (coach_users (state p)) (state p);
               form := form p;
               coach_current_user_email := coach_current_user_email p |}
        | None => p
        end
  | _, _ => p
  end.

Definition emptyForm : AuthForm.t :=
  {| AuthForm.authMode := login; AuthForm.name := ""; AuthForm.email := "";
     AuthForm.password := ""; AuthForm.role := STUDENT; AuthForm.adminCode := "" |}.

(** The page as it is after a (re)load with the given [localStorage]:
    initial React state, then the start-up effect. *)
Definition loadPage (store : option (gmap string UserStats.t))
    (currentEmail : option string) : Page :=
  restoreSession
    {| state :=
         {| user := None; selectedSubjects := []; difficulty := BEGINNER;
            appState := auth; questions := []; currentQuestionIndex := 0;
            answers := ∅; isLoading := false; results := None; timeLeft := 120;
            activeContest := None; contestTimeLeft := 120 * 60;
            tabSwitches := 0; contestProblems := [];
            currentProblemIndex := 0; coach_users := store |};
       form := emptyForm;
       coach_current_user_email := currentEmail |}.

(** A handler of [App] run on the page. *)
Definition onApp (h : App → App) (p : Page) : Page :=
  {| state := h (state p); form := form p;
     coach_current_user_email := coach_current_user_email p |}.

(** The form as the visitor has filled it in before submitting. *)
Definition fillForm (f : AuthForm.t) (p : Page) : Page :=
  {| state := state p; form := f;
     coach_current_user_email := coach_current_user_email p |}.

(** The four figures of the admin panel, computed from the stored
    accounts: students, tests attempted, placement-ready students and
    [Math.round(sum of (averageScore || 0) / (students.length || 1))].
    [x || 0] is 0 for [NaN].  The figures do not depend on the order of
    [Object.values]. *)
Definition orZero (x : number) : Z :=
  match x with
  | Num a => a
  | NaN => 0%Z
  end.

Definition studentsOf (store : option (gmap string UserStats.t)) : list UserStats.t :=
  filter (λ u, UserStats.role u = STUDENT) (map_to_list (default ∅ store)).*2.

Record AdminStats : Type := mkAdminStats {
  totalStudents : nat;
  testsAttempted : nat;
  placementReadyCount : nat;
  avgPlatformScore : Z
}.

Definition adminStatsOf (students : list UserStats.t) : AdminStats :=
  {| totalStudents := length students;
     testsAttempted := fold_left (λ acc u, acc + UserStats.totalTests u) students 0;
     placementReadyCount :=
       length (filter (λ u, UserStats.placementReady u = true) students);
     avgPlatformScore :=
       JS.Math_round_div
         (fold_left (λ acc u, (acc + orZero (UserStats.averageScore u))%Z) students 0%Z)
         (if decide (length students = 0) then 1%Z else Z.of_nat (length students)) |}.

Definition adminStats (store : option (gmap string UserStats.t)) : AdminStats :=
  adminStatsOf (studentsOf store).

(** A percentage: a number, not [NaN], between 0 and 100. *)
Definition withinPercent (x : number) : Prop :=
  ∃ a, x = Num a ∧ (0 ≤ a ≤ 100)%Z.

(** An account all of whose scores are percentages.  Such an account is
    written by [JSON.stringify] and read back by [JSON.parse] as it is; a
    [NaN] score would be read back as [null]. *)
Definition soundScores (u : UserStats.t) : Prop :=
  withinPercent (UserStats.highestScore u)
  ∧ withinPercent (UserStats.averageScore u)
  ∧ Forall withinPercent (UserStats.lastScores u)
  ∧ Forall (λ a, withinPercent (TestAttempt.score a)) (default [] (UserStats.attempts u)).

(** The invariant that ties the placement flag to the top badge. *)
Definition readyIffLegend (u : UserStats.t) : Prop :=
  UserStats.placementReady u = true ↔ "Expert Legend" ∈ UserStats.badges u.

(** The order of the tiers. *)
Definition tierRank (d : Difficulty) : nat :=
  match d with
  | BEGINNER => 0
  | ADVANCED => 1
  | EXPERT => 2
  end.

(** The attempt that [handleSubmitTest] files for an assessment that is the
    [n]-th of the account. *)
Definition attemptOf (n : nat) (c : Completed) : TestAttempt.t :=
  {| TestAttempt.date := finishedAt c; TestAttempt.subjects := onSubjects c;
     TestAttempt.level := takenAt c; TestAttempt.score := Num (percentage c);
     TestAttempt.totalQuestions := questionCount c;
     TestAttempt.weakAreas := foundWeakAreas c;
     TestAttempt.attemptNumber := n |}.

(** ** Further example inputs and predicates *)

Definition threeBlank : App :=
  (handleStartTest true (QuestionsParsed (batch 3)) (sitting demoUser BEGINNER [] ∅)).1.

Definition joinedLate : App := (handleJoinContest weekly 1767268790400 inLobby).1.

Definition twoProblems : App :=
  setCurrentProblemIndex 1
    (handleJoinContest
       {| Contest.id := "c2"; Contest.title := "Pairs";
          Contest.startTime := 1767261600000; Contest.duration := 120;
          Contest.subjects := ["DSA"];
          Contest.problems :=
            [ {| CodingProblem.id := "p1"; CodingProblem.title := "Sum";
                 CodingProblem.description := ""; CodingProblem.constraints := "";
                 CodingProblem.inputFormat := ""; CodingProblem.outputFormat := "";
                 CodingProblem.sampleInput := ""; CodingProblem.sampleOutput := "";
                 CodingProblem.initialCode := {[ "python" := "def solution(): pass" ]};
                 CodingProblem.testCases := [] |};
              {| CodingProblem.id := "p2"; CodingProblem.title := "Product";
                 CodingProblem.description := ""; CodingProblem.constraints := "";
                 CodingProblem.inputFormat := ""; CodingProblem.outputFormat := "";
                 CodingProblem.sampleInput := ""; CodingProblem.sampleOutput := "";
                 CodingProblem.initialCode := ∅;
                 CodingProblem.testCases := [] |} ] |}
       1767261690400 inLobby).1.

(** The in-memory session agrees with [localStorage]: the signed-in
    account is the one stored under its email, and the session pointer
    names it. *)
Definition inSync (p : Page) : Prop :=
  ∃ u users,
    user (state p) = Some u
    ∧ coach_current_user_email p = Some (UserStats.email u)
    ∧ UserStats.email u ≠ ""
    ∧ coach_users (state p) = Some users
    ∧ users !! UserStats.email u = Some u.

(** The form of a visitor who signs in again with the data of [f]. *)
Definition asLogin (f : AuthForm.t) : AuthForm.t :=
  {| AuthForm.authMode := login; AuthForm.name := "";
     AuthForm.email := AuthForm.email f; AuthForm.password := AuthForm.password f;
     AuthForm.role := AuthForm.role f; AuthForm.adminCode := AuthForm.adminCode f |}.

Definition registering (name email password : string) (r : Role) (code : string)
    : AuthForm.t :=
  {| AuthForm.authMode := register; AuthForm.name := name; AuthForm.email := email;
     AuthForm.password := password; AuthForm.role := r; AuthForm.adminCode := code |}.

Definition visitor : Page :=
  {| state := initialApp; form := emptyForm; coach_current_user_email := None |}.

(** The page after Asha has registered. *)
Definition ashaRegistered : Page :=
  (handleAuth (fillForm (registering "Asha" "asha@example.org" "secret" STUDENT "")
                        visitor)).1.

(** Every stored account is filed under its own email, which is how
    [handleAuth] and [handleSubmitTest] write the store. *)
Definition storeKeyedByEmail (p : Page) : Prop :=
  ∀ e u, default ∅ (coach_users (state p)) !! e = Some u → UserStats.email u = e.

(** The page after the visitor of [p] has signed in, logged out and a
    newcomer has registered with the form [f]. *)
Definition newcomerAfter (p : Page) (f : AuthForm.t) : Page :=
  (handleAuth (fillForm f (handleLogout (handleAuth p).1))).1.

(** A started test on the questions [qs] with the answers [ans] selected. *)
Definition answeredTest (qs : list Question.t) (ans : gmap string string)
    (st : App) : App :=
  setAnswers ans (handleStartTest true (QuestionsParsed qs) st).1.

(** The page on which the account [legend] is stored and its owner is
    about to sign in. *)
Definition legendReturns : Page :=
  {| state :=
       {| user := None; selectedSubjects := []; difficulty := BEGINNER;
          appState := auth; questions := []; currentQuestionIndex := 0;
          answers := ∅; isLoading := false; results := None; timeLeft := 120;
          activeContest := None; contestTimeLeft := 120 * 60; tabSwitches := 0;
          contestProblems := []; currentProblemIndex := 0;
          coach_users := Some {[ "asha@example.org" := legend ]} |};
     form := asLogin (registering "Asha" "asha@example.org" "secret" STUDENT "");
     coach_current_user_email := None |}.

(** ** The same computations in the Standard Library's binary64

    [SpecFloat] is the Standard Library's specification of IEEE 754
    arithmetic; with precision 53 and [emax = 1024] it is binary64.  The
    percentage and the countdown are computed a second time with it, to
    compare [Double] with it on ranges of inputs. *)

Module Binary64.
Import SpecFloat.

Definition of_Z (z : Z) : spec_float := binary_normalize 53 1024 z 0 false.

(** The rational that a finite float denotes. *)
Definition to_Q (f : spec_float) : option Q :=
  match f with
  | S754_zero _ => Some 0%Q
  | S754_finite s m e =>
      Some ((if s then - inject_Z (Zpos m) else inject_Z (Zpos m)) * Double.pow2 e)%Q
  | S754_infinity _ | S754_nan => None
  end.

Definition sub : spec_float → spec_float → spec_float := SFsub 53 1024.
Definition mul : spec_float → spec_float → spec_float := SFmul 53 1024.
Definition div : spec_float → spec_float → spec_float := SFdiv 53 1024.

(** [x] is the value of the float [f]. *)
Definition denotes (x : Q) (f : spec_float) : bool :=
  match to_Q f with
  | Some y => Qeq_bool x y
  | None => false
  end.

End Binary64.

(** [(score / length) * 100] comes out the same in both. *)
Definition percentageAgrees (score len : Z) : bool :=
  Binary64.denotes
    (Double.mul (Double.div (inject_Z score) (inject_Z len)) 100)
    (Binary64.mul (Binary64.div (Binary64.of_Z score) (Binary64.of_Z len))
                  (Binary64.of_Z 100)).

(** [(contest.duration - diff) * 60] comes out the same in both. *)
Definition countdownAgrees (contest : Contest.t) (now : Z) : bool :=
  Binary64.denotes
    (Double.mul (Double.sub (inject_Z (Contest.duration contest)) (diff contest now)) 60)
    (Binary64.mul
       (Binary64.sub
          (Binary64.of_Z (Contest.duration contest))
          (Binary64.div
             (Binary64.div
                (Binary64.sub (Binary64.of_Z now)
                              (Binary64.of_Z (Contest.startTime contest)))
                (Binary64.of_Z 1000))
             (Binary64.of_Z 60)))
       (Binary64.of_Z 60)).

(** * Properties *)

(** ** Rounding *)

Lemma Math_round_div_one (a : Z) : JS.Math_round_div a 1 = a.
Proof.
  unfold JS.Math_round_div.
  replace (2 * a + 1)%Z with (1 + a * (2 * 1))%Z by lia.
  rewrite Z.div_add by lia. reflexivity.
Qed.

(** [Math.round] returns the nearest integer: twice the distance to the
    exact quotient is at most one, and a tie goes up. *)
Lemma Math_round_div_nearest (a b : Z) :
  (0 < b)%Z →
  (2 * a - b < 2 * b * JS.Math_round_div a b ≤ 2 * a + b)%Z.
Proof.
  intros Hb. unfold JS.Math_round_div.
  pose proof (Z.mul_div_le (2 * a + b) (2 * b) ltac:(lia)).
  pose proof (Z.mul_succ_div_gt (2 * a + b) (2 * b) ltac:(lia)).
  lia.
Qed.

Lemma Math_round_div_exact (q b : Z) :
  (0 < b)%Z → JS.Math_round_div (q * b) b = q.
Proof.
  intros Hb. unfold JS.Math_round_div.
  replace (2 * (q * b) + b)%Z with (b + q * (2 * b))%Z by lia.
  rewrite Z.div_add by lia. rewrite Z.div_small by lia. lia.
Qed.

Lemma Math_round_div_between (lo hi a b : Z) :
  (0 < b)%Z → (lo * b ≤ a ≤ hi * b)%Z →
  (lo ≤ JS.Math_round_div a b ≤ hi)%Z.
Proof.
  intros Hb [Hlo Hhi]. unfold JS.Math_round_div. split.
  - apply Z.div_le_lower_bound; lia.
  - assert ((2 * a + b) / (2 * b) < hi + 1)%Z; [|lia].
    apply Z.div_lt_upper_bound; lia.
Qed.

(** ** Doubles: the rounding of [Double.round] *)

Section DoubleFacts.
Import Double.
Local Open Scope Q_scope.

Lemma pow2_pos (e : Z) : 0 < pow2 e.
Proof. apply Qpower_0_lt. reflexivity. Qed.

Lemma pow2_add (a b : Z) : pow2 (a + b) == pow2 a * pow2 b.
Proof. apply Qpower_plus. discriminate. Qed.

Lemma pow2_Z (n : Z) : (0 <= n)%Z -> pow2 n == inject_Z (2 ^ n).
Proof. intros Hn. unfold pow2. by rewrite Zpower_Qpower. Qed.

Lemma pow2_le (a b : Z) : (a <= b)%Z -> pow2 a <= pow2 b.
Proof. intros H. apply Qpower_le_compat_l; [exact H | discriminate]. Qed.

Lemma pow2_lt (a b : Z) : (a < b)%Z -> pow2 a < pow2 b.
Proof. intros H. apply Qpower_lt_compat_l; [exact H | reflexivity]. Qed.

Lemma pow2_lt_inv (a b : Z) : pow2 a < pow2 b -> (a < b)%Z.
Proof. intros H. apply (Qpower_lt_compat_l_inv 2); [exact H | reflexivity]. Qed.

Lemma Z_log2_pow2 (n : Z) :
  (0 < n)%Z -> pow2 (Z.log2 n) <= inject_Z n < pow2 (Z.log2 n + 1).
Proof.
  intros Hn. destruct (Z.log2_spec n Hn) as [Hlo Hhi].
  pose proof (Z.log2_nonneg n) as H0.
  rewrite !pow2_Z by lia. rewrite <- Zle_Qle, <- Zlt_Qlt.
  split; [exact Hlo |]. replace (Z.log2 n + 1)%Z with (Z.succ (Z.log2 n)) by lia. exact Hhi.
Qed.

Lemma Qnum_pos (x : Q) : 0 < x -> (0 < Qnum x)%Z.
Proof. destruct x as [a b]. unfold Qlt. simpl. lia. Qed.

Lemma ilog2_spec (x : Q) : 0 < x -> pow2 (ilog2 x) <= x < pow2 (ilog2 x + 1).
Proof.
  intros Hx. unfold ilog2.
  pose proof (Z_log2_pow2 (Qnum x) (Qnum_pos x Hx)) as [Ha1 Ha2].
  pose proof (Z_log2_pow2 (Zpos (Qden x)) ltac:(lia)) as [Hb1 Hb2].
  set (la := Z.log2 (Qnum x)) in *. set (lb := Z.log2 (Zpos (Qden x))) in *.
  assert (Hxab : x * inject_Z (Zpos (Qden x)) == inject_Z (Qnum x)).
  { destruct x as [a b]. simpl. rewrite (Qmake_Qdiv a b). field.
    intros H. discriminate H. }
  pose proof (pow2_pos lb) as Hpb. pose proof (pow2_pos (la - lb)) as Hpk.
  pose proof (pow2_pos (la - lb - 1)) as Hpk1.
  assert (E1 : pow2 (la + 1) == pow2 (la - lb + 1) * pow2 lb).
  { rewrite <- pow2_add. by replace (la - lb + 1 + lb)%Z with (la + 1)%Z by lia. }
  assert (E2 : pow2 la == pow2 (la - lb - 1) * pow2 (lb + 1)).
  { rewrite <- pow2_add. by replace (la - lb - 1 + (lb + 1))%Z with la by lia. }
  assert (Hup : x < pow2 (la - lb + 1)).
  { apply (Qmult_lt_r _ _ (pow2 lb) Hpb). rewrite <- E1.
    apply Qle_lt_trans with (x * inject_Z (Z.pos (Qden x))); [|by rewrite Hxab].
    apply Qmult_le_l; [exact Hx | exact Hb1]. }
  assert (Hlow : pow2 (la - lb - 1) <= x).
  { apply (Qmult_le_r _ _ (pow2 (lb + 1)) (pow2_pos _)). rewrite <- E2.
    apply Qle_trans with (x * inject_Z (Z.pos (Qden x))); [by rewrite Hxab |].
    apply Qmult_le_l; [exact Hx | by apply Qlt_le_weak]. }
  destruct (Qle_bool (pow2 (la - lb)) x) eqn:Hb.
  - apply Qle_bool_iff in Hb. split; [exact Hb | exact Hup].
  - split; [exact Hlow |]. replace (la - lb - 1 + 1)%Z with (la - lb)%Z by lia.
    apply Qnot_le_lt. intros H. apply Qle_bool_iff in H. congruence.
Qed.

Lemma ilog2_unique (x : Q) (k : Z) :
  pow2 k <= x < pow2 (k + 1) -> ilog2 x = k.
Proof.
  intros [Hlo Hhi].
  assert (Hx : 0 < x) by (eapply Qlt_le_trans; [apply (pow2_pos k) | exact Hlo]).
  destruct (ilog2_spec x Hx) as [Hlo' Hhi'].
  assert (H1 : (k < ilog2 x + 1)%Z).
  { apply pow2_lt_inv. eapply Qle_lt_trans; eauto. }
  assert (H2 : (ilog2 x < k + 1)%Z).
  { apply pow2_lt_inv. eapply Qle_lt_trans; eauto. }
  lia.
Qed.

Lemma ilog2_le (x y : Q) : 0 < x -> x <= y -> (ilog2 x <= ilog2 y)%Z.
Proof.
  intros Hx Hxy.
  destruct (ilog2_spec x Hx) as [Hlo _].
  destruct (ilog2_spec y ltac:(lra)) as [_ Hhi].
  assert (ilog2 x < ilog2 y + 1)%Z; [|lia].
  apply pow2_lt_inv. lra.
Qed.

(** rne *)
Lemma rne_cases (y : Q) :
  (rne y = Qfloor y /\ y - inject_Z (Qfloor y) <= 1 # 2)
  \/ (rne y = (Qfloor y + 1)%Z /\ 1 # 2 <= y - inject_Z (Qfloor y)).
Proof.
  unfold rne.
  destruct (Qcompare_spec (y - inject_Z (Qfloor y)) (1 # 2)) as [Hc|Hc|Hc].
  - destruct (Z.even (Qfloor y)); [left | right]; split; try done; lra.
  - left. split; [done | lra].
  - right. split; [done | lra].
Qed.

Lemma rne_near (y : Q) :
  inject_Z (rne y) - (1 # 2) <= y <= inject_Z (rne y) + (1 # 2).
Proof.
  pose proof (Qfloor_le y) as Hlo. pose proof (Qlt_floor y) as Hhi.
  rewrite inject_Z_plus in Hhi.
  destruct (rne_cases y) as [[-> H] | [-> H]]; [|rewrite inject_Z_plus];
    change (inject_Z 1) with 1 in *; lra.
Qed.

Lemma rne_ge (y : Q) (n : Z) : inject_Z n <= y -> (n <= rne y)%Z.
Proof.
  intros H. apply Qfloor_resp_le in H. rewrite Qfloor_Z in H.
  destruct (rne_cases y) as [[-> _] | [-> _]]; lia.
Qed.

Lemma rne_le (y : Q) (n : Z) : y <= inject_Z n -> (rne y <= n)%Z.
Proof.
  intros H. pose proof (Qfloor_resp_le _ _ H) as Hf. rewrite Qfloor_Z in Hf.
  pose proof (Qfloor_le y) as Hlo.
  destruct (rne_cases y) as [[-> _] | [-> Hfrac]]; [lia|].
  destruct (decide (Qfloor y = n)) as [Heq|Hne]; [|lia].
  rewrite Heq in Hfrac. lra.
Qed.

Lemma rne_monotone (x y : Q) : x <= y -> (rne x <= rne y)%Z.
Proof.
  intros Hxy. pose proof (Qfloor_resp_le _ _ Hxy) as Hf.
  destruct (decide (Qfloor x = Qfloor y)) as [Heq|Hne].
  - unfold rne. rewrite Heq.
    destruct (Qcompare_spec (x - inject_Z (Qfloor y)) (1 # 2)) as [Hcx|Hcx|Hcx];
      destruct (Qcompare_spec (y - inject_Z (Qfloor y)) (1 # 2)) as [Hcy|Hcy|Hcy];
      try (exfalso; lra); destruct (Z.even (Qfloor y)); lia.
  - destruct (rne_cases x) as [[-> _] | [-> _]];
      destruct (rne_cases y) as [[-> _] | [-> _]]; lia.
Qed.

Lemma rne_comp (x y : Q) : x == y -> rne x = rne y.
Proof.
  intros H. apply Z.le_antisymm; apply rne_monotone; lra.
Qed.

Lemma rne_Z (n : Z) : rne (inject_Z n) = n.
Proof.
  apply Z.le_antisymm; [apply rne_le | apply rne_ge]; lra.
Qed.


(** round_pos *)
Lemma round_pos_mantissa (x : Q) :
  0 < x ->
  inject_Z (2 ^ 52) <= x / pow2 (ilog2 x - 52) < inject_Z (2 ^ 53).
Proof.
  intros Hx. destruct (ilog2_spec x Hx) as [Hlo Hhi].
  pose proof (pow2_pos (ilog2 x - 52)) as HP.
  assert (E1 : pow2 (ilog2 x) == inject_Z (2 ^ 52) * pow2 (ilog2 x - 52)).
  { rewrite <- pow2_Z by lia. rewrite <- pow2_add.
    by replace (52 + (ilog2 x - 52))%Z with (ilog2 x) by lia. }
  assert (E2 : pow2 (ilog2 x + 1) == inject_Z (2 ^ 53) * pow2 (ilog2 x - 52)).
  { rewrite <- pow2_Z by lia. rewrite <- pow2_add.
    by replace (53 + (ilog2 x - 52))%Z with (ilog2 x + 1)%Z by lia. }
  split.
  - apply Qle_shift_div_l; [exact HP | by rewrite <- E1].
  - apply Qlt_shift_div_r; [exact HP | by rewrite <- E2].
Qed.

Lemma round_pos_bounds (x : Q) :
  0 < x -> pow2 (ilog2 x) <= round_pos x <= pow2 (ilog2 x + 1).
Proof.
  intros Hx. destruct (round_pos_mantissa x Hx) as [Hlo Hhi].
  pose proof (pow2_pos (ilog2 x - 52)) as HP.
  assert (E1 : pow2 (ilog2 x) == inject_Z (2 ^ 52) * pow2 (ilog2 x - 52)).
  { rewrite <- pow2_Z by lia. rewrite <- pow2_add.
    by replace (52 + (ilog2 x - 52))%Z with (ilog2 x) by lia. }
  assert (E2 : pow2 (ilog2 x + 1) == inject_Z (2 ^ 53) * pow2 (ilog2 x - 52)).
  { rewrite <- pow2_Z by lia. rewrite <- pow2_add.
    by replace (53 + (ilog2 x - 52))%Z with (ilog2 x + 1)%Z by lia. }
  unfold round_pos. rewrite E1, E2. split.
  - apply Qmult_le_r; [exact HP|]. rewrite <- Zle_Qle. by apply rne_ge.
  - apply Qmult_le_r; [exact HP|]. rewrite <- Zle_Qle. apply rne_le. lra.
Qed.

Lemma round_pos_positive (x : Q) : 0 < x -> 0 < round_pos x.
Proof.
  intros Hx. destruct (round_pos_bounds x Hx) as [Hlo _].
  pose proof (pow2_pos (ilog2 x)). lra.
Qed.


Lemma round_pos_error (x : Q) :
  0 < x -> x * (1 - u) <= round_pos x <= x * (1 + u).
Proof.
  intros Hx. destruct (ilog2_spec x Hx) as [Hlo _].
  pose proof (pow2_pos (ilog2 x - 52)) as HP.
  pose proof (rne_near (x / pow2 (ilog2 x - 52))) as [Hn1 Hn2].
  assert (E1 : pow2 (ilog2 x) == inject_Z (2 ^ 52) * pow2 (ilog2 x - 52)).
  { rewrite <- pow2_Z by lia. rewrite <- pow2_add.
    by replace (52 + (ilog2 x - 52))%Z with (ilog2 x) by lia. }
  assert (Et : x / pow2 (ilog2 x - 52) * pow2 (ilog2 x - 52) == x).
  { field. lra. }
  unfold round_pos, u.
  set (P := pow2 (ilog2 x - 52)) in *.
  set (t := x / P) in *.
  set (m := inject_Z (rne t)) in *.
  change (inject_Z (2 ^ 52)) with (4503599627370496 # 1) in E1.
  rewrite E1 in Hlo.
  assert (H1 : (m - (1 # 2)) * P <= t * P) by (apply Qmult_le_r; [exact HP | exact Hn1]).
  assert (H2 : t * P <= (m + (1 # 2)) * P) by (apply Qmult_le_r; [exact HP | exact Hn2]).
  rewrite Et in H1, H2.
  split; lra.
Qed.

Lemma round_pos_monotone (x y : Q) :
  0 < x -> x <= y -> round_pos x <= round_pos y.
Proof.
  intros Hx Hxy. assert (Hy : 0 < y) by lra.
  pose proof (ilog2_le x y Hx Hxy) as Hl.
  destruct (decide (ilog2 x = ilog2 y)) as [Heq|Hne].
  - unfold round_pos. rewrite Heq.
    pose proof (pow2_pos (ilog2 y - 52)) as HP.
    apply Qmult_le_r; [exact HP|]. rewrite <- Zle_Qle. apply rne_monotone.
    apply Qmult_le_r; [by apply Qinv_lt_0_compat | exact Hxy].
  - destruct (round_pos_bounds x Hx) as [_ Hhi].
    destruct (round_pos_bounds y Hy) as [Hlo _].
    pose proof (pow2_le (ilog2 x + 1) (ilog2 y) ltac:(lia)). lra.
Qed.

Lemma round_pos_comp (x y : Q) : 0 < x -> x == y -> round_pos x == round_pos y.
Proof.
  intros Hx Hxy. apply Qle_antisym; apply round_pos_monotone; lra.
Qed.

Lemma ilog2_Z (n : Z) : (0 < n)%Z -> ilog2 (inject_Z n) = Z.log2 n.
Proof. intros Hn. apply ilog2_unique. by apply Z_log2_pow2. Qed.

Lemma round_pos_Z (n : Z) :
  (0 < n < 2 ^ 53)%Z -> round_pos (inject_Z n) == inject_Z n.
Proof.
  intros [Hpos Hlt]. unfold round_pos. rewrite ilog2_Z by exact Hpos.
  assert (Hl : (Z.log2 n < 53)%Z) by (apply Z.log2_lt_pow2; lia).
  pose proof (Z.log2_nonneg n) as Hl0.
  set (e := (Z.log2 n - 52)%Z).
  pose proof (pow2_pos e) as HP. pose proof (pow2_pos (- e)) as HP'.
  assert (E : pow2 (- e) * pow2 e == 1).
  { rewrite <- pow2_add. by replace (- e + e)%Z with 0%Z by lia. }
  assert (Et : inject_Z n / pow2 e == inject_Z (n * 2 ^ (- e))).
  { rewrite inject_Z_mult, <- pow2_Z by lia. 
    apply (Qmult_inj_r _ _ (pow2 e)); [lra|].
    transitivity (inject_Z n); [field; lra|].
    rewrite <- Qmult_assoc, E. ring. }
  rewrite (rne_comp _ _ Et), rne_Z, inject_Z_mult, <- pow2_Z by lia.
  rewrite <- Qmult_assoc, E. ring.
Qed.

(** round *)
Lemma Qnum_sign (x : Q) :
  (Qnum x = 0%Z /\ x == 0)
  \/ ((exists p, Qnum x = Zpos p) /\ 0 < x)
  \/ ((exists p, Qnum x = Zneg p) /\ x < 0).
Proof.
  destruct x as [[|p|p] d]; [left | right; left | right; right];
    (split; [try by eexists | reflexivity]).
Qed.

Lemma round_zero (x : Q) : x == 0 -> round x = 0.
Proof.
  destruct (Qnum_sign x) as [[H _] | [[_ H] | [_ H]]]; intros Hx; [|lra|lra].
  unfold round. by rewrite H.
Qed.

Lemma round_positive (x : Q) : 0 < x -> round x = round_pos x.
Proof.
  destruct (Qnum_sign x) as [[_ H] | [[[p H] _] | [_ H]]]; intros Hx; [lra| |lra].
  unfold round. by rewrite H.
Qed.

Lemma round_negative (x : Q) : x < 0 -> round x = - round_pos (- x).
Proof.
  destruct (Qnum_sign x) as [[_ H] | [[_ H] | [[p H] _]]]; intros Hx; [lra|lra|].
  unfold round. by rewrite H.
Qed.

Lemma round_monotone (x y : Q) : x <= y -> round x <= round y.
Proof.
  intros Hxy.
  destruct (Q_dec x 0) as [[Hx|Hx]|Hx]; destruct (Q_dec y 0) as [[Hy|Hy]|Hy];
    try (exfalso; lra).
  - rewrite (round_negative x Hx), (round_negative y Hy).
    pose proof (round_pos_monotone (- y) (- x) ltac:(lra) ltac:(lra)). lra.
  - rewrite (round_negative x Hx), (round_positive y Hy).
    pose proof (round_pos_positive (- x) ltac:(lra)).
    pose proof (round_pos_positive y Hy). lra.
  - rewrite (round_negative x Hx), (round_zero y Hy).
    pose proof (round_pos_positive (- x) ltac:(lra)). lra.
  - rewrite (round_positive x Hx), (round_positive y Hy).
    by apply round_pos_monotone.
  - rewrite (round_zero x Hx), (round_positive y Hy).
    pose proof (round_pos_positive y Hy). lra.
  - rewrite (round_zero x Hx), (round_zero y Hy). lra.
Qed.

Lemma round_comp (x y : Q) : x == y -> round x == round y.
Proof. intros H. apply Qle_antisym; apply round_monotone; lra. Qed.

Lemma round_Z (n : Z) :
  (- 2 ^ 53 < n < 2 ^ 53)%Z -> round (inject_Z n) == inject_Z n.
Proof.
  intros Hn. destruct (Z.lt_trichotomy n 0) as [Hneg | [-> | Hpos]].
  - rewrite round_negative by (rewrite (Zlt_Qlt n 0) in Hneg; exact Hneg).
    rewrite <- inject_Z_opp, round_pos_Z by lia. rewrite inject_Z_opp. ring.
  - reflexivity.
  - rewrite round_positive by (rewrite (Zlt_Qlt 0 n) in Hpos; exact Hpos).
    apply round_pos_Z. lia.
Qed.

Lemma round_error (x : Q) :
  (0 <= x -> x * (1 - u) <= round x <= x * (1 + u))
  /\ (x <= 0 -> x * (1 + u) <= round x <= x * (1 - u)).
Proof.
  destruct (Q_dec x 0) as [[Hx|Hx]|Hx].
  - rewrite (round_negative x Hx).
    pose proof (round_pos_error (- x) ltac:(lra)). split; intros; lra.
  - rewrite (round_positive x Hx).
    pose proof (round_pos_error x Hx). split; intros; lra.
  - rewrite (round_zero x Hx). unfold u. split; intros; lra.
Qed.

Lemma round_sign (x : Q) :
  (0 < x -> 0 < round x) /\ (x < 0 -> round x < 0) /\ (0 <= x -> 0 <= round x).
Proof.
  destruct (Q_dec x 0) as [[Hx|Hx]|Hx].
  - rewrite (round_negative x Hx).
    pose proof (round_pos_positive (- x) ltac:(lra)). repeat split; intros; lra.
  - rewrite (round_positive x Hx).
    pose proof (round_pos_positive x Hx). repeat split; intros; lra.
  - rewrite (round_zero x Hx). repeat split; intros; lra.
Qed.


Lemma ltb_lt (x y : Q) : ltb x y = true <-> x < y.
Proof.
  unfold ltb. rewrite negb_true_iff. split.
  - intros H. apply Qnot_le_lt. intros Hle. apply Qle_bool_iff in Hle. congruence.
  - intros H. destruct (Qle_bool y x) eqn:Hb; [|done].
    apply Qle_bool_iff in Hb. lra.
Qed.

Lemma ltb_ge (x y : Q) : ltb x y = false <-> y <= x.
Proof.
  unfold ltb. rewrite negb_false_iff. apply Qle_bool_iff.
Qed.

Lemma Math_round_comp (x y : Q) : x == y -> Math_round x = Math_round y.
Proof. intros H. unfold Math_round. apply Qfloor_comp. lra. Qed.

Lemma Math_round_Z (n : Z) : Math_round (inject_Z n) = n.
Proof.
  unfold Math_round.
  apply Z.le_antisymm.
  - pose proof (Qfloor_le (inject_Z n + (1 # 2))) as H.
    assert (Hlt : inject_Z (Qfloor (inject_Z n + (1 # 2))) < inject_Z (n + 1)).
    { rewrite inject_Z_plus. change (inject_Z 1) with 1. lra. }
    rewrite <- Zlt_Qlt in Hlt. lia.
  - rewrite <- (Qfloor_Z n) at 1. apply Qfloor_resp_le. lra.
Qed.

Lemma Math_round_between (x : Q) (lo hi : Z) :
  inject_Z lo <= x <= inject_Z hi -> (lo <= Math_round x <= hi)%Z.
Proof.
  intros [Hlo Hhi]. split.
  - rewrite <- (Math_round_Z lo). apply Qfloor_resp_le. lra.
  - rewrite <- (Math_round_Z hi). apply Qfloor_resp_le. lra.
Qed.

(** [Math.round(x)] is within a half of [x]. *)
Lemma Math_round_near (x : Q) :
  x - (1 # 2) < inject_Z (Math_round x) <= x + (1 # 2).
Proof.
  unfold Math_round.
  pose proof (Qfloor_le (x + (1 # 2))) as Hlo.
  pose proof (Qlt_floor (x + (1 # 2))) as Hhi.
  rewrite inject_Z_plus in Hhi. change (inject_Z 1) with 1 in Hhi. lra.
Qed.

Lemma Qdiv_nat_le (s n : nat) :
  (0 < n)%nat -> (s <= n)%nat ->
  0 <= inject_Z (Z.of_nat s) / inject_Z (Z.of_nat n) <= 1.
Proof.
  intros Hn Hle.
  assert (H0 : 0 < inject_Z (Z.of_nat n)).
  { change 0 with (inject_Z 0). rewrite <- Zlt_Qlt. lia. }
  assert (Hs : 0 <= inject_Z (Z.of_nat s)).
  { change 0 with (inject_Z 0). rewrite <- Zle_Qle. lia. }
  assert (Hsn : inject_Z (Z.of_nat s) <= inject_Z (Z.of_nat n)).
  { rewrite <- Zle_Qle. lia. }
  split.
  - apply Qle_shift_div_l; [exact H0 | lra].
  - apply Qle_shift_div_r; [exact H0 | lra].
Qed.

Lemma percentage_of_range (score len : nat) :
  (0 < len)%nat → (score ≤ len)%nat → withinPercent (percentage_of score len).
Proof.
  intros Hpos Hle. destruct len as [|l]; [lia|]. unfold percentage_of.
  eexists. split; [reflexivity|].
  destruct (Qdiv_nat_le score (S l) Hpos Hle) as [Hq0 Hq1].
  unfold mul, div.
  set (q := inject_Z (Z.of_nat score) / inject_Z (Z.of_nat (S l))) in *.
  pose proof (round_monotone 0 q Hq0) as Hd0.
  pose proof (round_monotone q 1 Hq1) as Hd1.
  rewrite (round_Z 1) in Hd1 by lia. change (round 0) with 0 in Hd0.
  change (inject_Z 1) with 1 in Hd1.
  pose proof (round_monotone 0 (round q * 100) ltac:(lra)) as Hp0.
  pose proof (round_monotone (round q * 100) 100 ltac:(lra)) as Hp1.
  rewrite (round_Z 100) in Hp1 by lia. change (round 0) with 0 in Hp0.
  apply Math_round_between. split; [exact Hp0 | exact Hp1].
Qed.

Lemma percentage_of_perfect (n : nat) : (0 < n)%nat → percentage_of n n = Num 100.
Proof.
  intros Hn. destruct n as [|n]; [lia|]. unfold percentage_of. f_equal.
  assert (H0 : 0 < inject_Z (Z.of_nat (S n))).
  { change 0 with (inject_Z 0). rewrite <- Zlt_Qlt. lia. }
  assert (E1 : div (inject_Z (Z.of_nat (S n))) (inject_Z (Z.of_nat (S n))) == 1).
  { unfold div. rewrite <- (round_Z 1) by lia. apply round_comp. field. lra. }
  assert (E2 : mul (div (inject_Z (Z.of_nat (S n))) (inject_Z (Z.of_nat (S n)))) 100 == 100).
  { unfold mul. rewrite <- (round_Z 100) at 2 by lia. apply round_comp. rewrite E1. reflexivity. }
  rewrite (Math_round_comp _ _ E2). apply (Math_round_Z 100).
Qed.

(** With fewer than 200 questions one wrong answer keeps the percentage below 100 *)
Lemma percentage_of_imperfect (score len : nat) :
  (score < len < 200)%nat → ∃ a, percentage_of score len = Num a ∧ (a < 100)%Z.
Proof.
  intros [Hlt H200]. destruct len as [|l]; [lia|]. unfold percentage_of.
  eexists. split; [reflexivity|].
  assert (H0 : 0 < inject_Z (Z.of_nat (S l))).
  { change 0 with (inject_Z 0). rewrite <- Zlt_Qlt. lia. }
  assert (Hq0 : 0 <= inject_Z (Z.of_nat score) / inject_Z (Z.of_nat (S l))).
  { apply (Qdiv_nat_le score (S l)); lia. }
  assert (Hq1 : inject_Z (Z.of_nat score) / inject_Z (Z.of_nat (S l)) <= 198 # 199).
  { apply Qle_shift_div_r; [exact H0|].
    assert (H : (199 * Z.of_nat score <= 198 * Z.of_nat (S l))%Z) by lia.
    rewrite Zle_Qle, !inject_Z_mult in H.
    change (inject_Z 199) with 199 in H. change (inject_Z 198) with 198 in H. lra. }
  unfold mul, div.
  set (q := inject_Z (Z.of_nat score) / inject_Z (Z.of_nat (S l))) in *.
  destruct (round_error q) as [Hd _]. specialize (Hd Hq0).
  destruct (round_error (round q * 100)) as [Hp _].
  unfold u in *.
  assert (Hd0 : 0 <= round q) by lra.
  specialize (Hp ltac:(lra)).
  pose proof (Math_round_near (round (round q * 100))) as [_ Hup].
  assert (Hlt100 : inject_Z (Math_round (round (round q * 100))) < inject_Z 100).
  { change (inject_Z 100) with 100. lra. }
  by rewrite <- Zlt_Qlt in Hlt100.
Qed.


Ltac qlra :=
  unfold Qdiv in *;
  change (/ 1000) with (1 # 1000) in *; change (/ 60) with (1 # 60) in *;
  lra.

Lemma inject_Z_sub (a b : Z) : inject_Z (a - b) == inject_Z a - inject_Z b.
Proof. unfold Z.sub. rewrite inject_Z_plus, inject_Z_opp. ring. Qed.

(** Before the start [diff] is negative, whatever the rounding. *)
Lemma diff_early (contest : Contest.t) (now : Z) :
  (now - Contest.startTime contest < 0)%Z -> diff contest now < 0.
Proof.
  intros Hneg. unfold diff, div, sub.
  set (start := Contest.startTime contest) in *.
  assert (H0 : inject_Z now - inject_Z start < 0).
  { rewrite <- inject_Z_sub. change 0 with (inject_Z 0). by rewrite <- Zlt_Qlt. }
  pose proof (proj1 (proj2 (round_sign _)) H0) as H1.
  pose proof (proj1 (proj2 (round_sign (round (inject_Z now - inject_Z start) / 1000)))
                ltac:(qlra)) as H2.
  apply (proj1 (proj2 (round_sign _))). qlra.
Qed.

Lemma diff_nonneg (contest : Contest.t) (now : Z) :
  (0 <= now - Contest.startTime contest)%Z -> 0 <= diff contest now.
Proof.
  intros Hpos. unfold diff, div, sub.
  set (start := Contest.startTime contest) in *.
  assert (H0 : 0 <= inject_Z now - inject_Z start).
  { rewrite <- inject_Z_sub. change 0 with (inject_Z 0). by rewrite <- Zle_Qle. }
  pose proof (proj2 (proj2 (round_sign _)) H0) as H1.
  pose proof (proj2 (proj2 (round_sign (round (inject_Z now - inject_Z start) / 1000)))
                ltac:(qlra)) as H2.
  apply (proj2 (proj2 (round_sign _))). qlra.
Qed.

(** A millisecond after the end [diff] exceeds the duration: the rounding
    errors of the two divisions are far below the [1/60000] of a minute
    that a millisecond is. *)
Lemma diff_late (contest : Contest.t) (now : Z) :
  (Contest.duration contest <= 2 ^ 31)%Z ->
  (0 <= now - Contest.startTime contest)%Z ->
  (Contest.duration contest * 60000 < now - Contest.startTime contest)%Z ->
  inject_Z (Contest.duration contest) < diff contest now.
Proof.
  intros HD Hpos Hlate.
  pose proof (diff_nonneg contest now Hpos) as Hnn.
  set (duration := Contest.duration contest) in *.
  destruct (Z.lt_ge_cases duration 0) as [Hneg|Hge].
  { rewrite (Zlt_Qlt duration 0) in Hneg. change (inject_Z 0) with 0 in Hneg. lra. }
  unfold diff, div, sub in *.
  set (start := Contest.startTime contest) in *.
  assert (Hd0 : 0 <= inject_Z duration).
  { change 0 with (inject_Z 0). by rewrite <- Zle_Qle. }
  assert (Hd1 : inject_Z duration <= 2147483648).
  { change 2147483648 with (inject_Z (2 ^ 31)). by rewrite <- Zle_Qle. }
  assert (H0 : inject_Z (duration * 60000 + 1) <= inject_Z now - inject_Z start).
  { rewrite <- inject_Z_sub, <- Zle_Qle. lia. }
  apply round_monotone in H0. rewrite round_Z in H0 by lia.
  rewrite inject_Z_plus, inject_Z_mult in H0.
  change (inject_Z 60000) with 60000 in H0. change (inject_Z 1) with 1 in H0.
  set (a0 := round (inject_Z now - inject_Z start)) in *.
  assert (H1 : (inject_Z duration * 60000 + 1) / 1000 <= a0 / 1000) by qlra.
  apply round_monotone in H1.
  destruct (round_error ((inject_Z duration * 60000 + 1) / 1000)) as [He1 _].
  specialize (He1 ltac:(qlra)).
  set (a1 := round (a0 / 1000)) in *.
  set (b1 := round ((inject_Z duration * 60000 + 1) / 1000)) in *.
  assert (H2 : b1 / 60 <= a1 / 60) by qlra.
  apply round_monotone in H2.
  destruct (round_error (b1 / 60)) as [He2 _].
  unfold u in *.
  specialize (He2 ltac:(qlra)).
  qlra.
Qed.

(** During the contest [diff] is between 0 and the duration, and the
    double [(duration - diff) * 60] is within a millisecond of the exact
    number of seconds left. *)
Lemma diff_within (contest : Contest.t) (now : Z) :
  (Contest.duration contest <= 2 ^ 31)%Z ->
  (0 <= now - Contest.startTime contest <= Contest.duration contest * 60000)%Z ->
  0 <= diff contest now <= inject_Z (Contest.duration contest)
  /\ (let exact :=
        inject_Z (Contest.duration contest * 60000 - (now - Contest.startTime contest))
        / 1000 in
      let computed :=
        mul (sub (inject_Z (Contest.duration contest)) (diff contest now)) 60 in
      0 <= computed /\ exact - (1 # 1000) < computed < exact + (1 # 1000)).
Proof.
  intros HD [Hpos Hin].
  pose proof (diff_nonneg contest now Hpos) as Hnn.
  cbv zeta. unfold diff, div, sub, mul in *.
  set (duration := Contest.duration contest) in *.
  set (start := Contest.startTime contest) in *.
  assert (Hd0 : 0 <= inject_Z duration).
  { change 0 with (inject_Z 0). rewrite <- Zle_Qle. lia. }
  assert (Hd1 : inject_Z duration <= 2147483648).
  { change 2147483648 with (inject_Z (2 ^ 31)). by rewrite <- Zle_Qle. }
  assert (E0 : round (inject_Z now - inject_Z start) == inject_Z (now - start)).
  { rewrite <- (round_Z (now - start)) by lia. apply round_comp.
    by rewrite inject_Z_sub. }
  assert (Hdl0 : 0 <= inject_Z (now - start)).
  { change 0 with (inject_Z 0). by rewrite <- Zle_Qle. }
  assert (Hdl1 : inject_Z (now - start) <= inject_Z duration * 60000).
  { change 60000 with (inject_Z 60000). by rewrite <- inject_Z_mult, <- Zle_Qle. }
  rewrite inject_Z_sub, inject_Z_mult. change (inject_Z 60000) with 60000.
  set (dl := inject_Z (now - start)) in *.
  set (d := inject_Z duration) in *.
  set (a0 := round (inject_Z now - inject_Z start)) in *.
  assert (H1 : a0 / 1000 <= inject_Z (duration * 60)).
  { rewrite inject_Z_mult. change (inject_Z 60) with 60. fold d. qlra. }
  apply round_monotone in H1. rewrite round_Z in H1 by lia.
  rewrite inject_Z_mult in H1. change (inject_Z 60) with 60 in H1. fold d in H1.
  destruct (round_error (a0 / 1000)) as [He1 _]. specialize (He1 ltac:(qlra)).
  set (a1 := round (a0 / 1000)) in *.
  assert (H2 : a1 / 60 <= d) by qlra.
  apply round_monotone in H2.
  assert (Ed : round d == d) by (apply round_Z; lia).
  rewrite Ed in H2.
  assert (Ha1 : 0 <= a1) by (unfold u in He1; qlra).
  destruct (round_error (a1 / 60)) as [He2 _]. specialize (He2 ltac:(qlra)).
  set (b := round (a1 / 60)) in *.
  destruct (round_error (d - b)) as [He3 _]. specialize (He3 ltac:(qlra)).
  set (c := round (d - b)) in *.
  assert (Hc : 0 <= c) by (unfold u in He3; qlra).
  destruct (round_error (c * 60)) as [He4 _]. specialize (He4 ltac:(qlra)).
  unfold u in *.
  split; [qlra|]. split; [qlra|]. split; qlra.
Qed.

Lemma secondsLeft_floor (contest : Contest.t) (now : Z) :
  (Contest.duration contest <= 2 ^ 31)%Z ->
  (0 <= now - Contest.startTime contest <= Contest.duration contest * 60000)%Z ->
  (flooredCountdown contest now <= secondsLeft contest now
   <= flooredCountdown contest now + 1)%Z.
Proof.
  intros HD Hin.
  destruct (diff_within contest now HD Hin) as (_ & _ & Hc).
  cbv zeta in Hc. unfold secondsLeft, flooredCountdown.
  set (computed := mul (sub (inject_Z (Contest.duration contest)) (diff contest now)) 60) in *.
  set (n := (Contest.duration contest * 60000 - (now - Contest.startTime contest))%Z) in *.
  pose proof (Math_round_near computed) as [Hlo Hhi].
  pose proof (Z.mul_div_le n 1000 ltac:(lia)) as Hf1.
  pose proof (Z.mul_succ_div_gt n 1000 ltac:(lia)) as Hf2.
  rewrite Zle_Qle, inject_Z_mult in Hf1. change (inject_Z 1000) with 1000 in Hf1.
  rewrite Zlt_Qlt, inject_Z_mult in Hf2. change (inject_Z 1000) with 1000 in Hf2.
  unfold Z.succ in Hf2. rewrite inject_Z_plus in Hf2. change (inject_Z 1) with 1 in Hf2.
  set (F := (n / 1000)%Z) in *. set (T := Math_round computed) in *.
  split.
  - assert (H : inject_Z (F - 1) < inject_Z T).
    { rewrite inject_Z_sub. change (inject_Z 1) with 1. qlra. }
    rewrite <- Zlt_Qlt in H. lia.
  - assert (H : inject_Z T < inject_Z (F + 2)).
    { rewrite inject_Z_plus. change (inject_Z 2) with 2. qlra. }
    rewrite <- Zlt_Qlt in H. lia.
Qed.

(** Away from an exact half second the countdown is the nearest second to
    the exact time left. *)
Lemma secondsLeft_nearest (contest : Contest.t) (now : Z) :
  (Contest.duration contest <= 2 ^ 31)%Z ->
  (0 <= now - Contest.startTime contest <= Contest.duration contest * 60000)%Z ->
  ((Contest.duration contest * 60000 - (now - Contest.startTime contest)) mod 1000
   <> 500)%Z ->
  secondsLeft contest now
  = JS.Math_round_div
      (Contest.duration contest * 60000 - (now - Contest.startTime contest)) 1000.
Proof.
  intros HD Hin Hne.
  destruct (diff_within contest now HD Hin) as (_ & _ & Hc).
  cbv zeta in Hc. unfold secondsLeft.
  set (computed := mul (sub (inject_Z (Contest.duration contest)) (diff contest now)) 60) in *.
  set (n := (Contest.duration contest * 60000 - (now - Contest.startTime contest))%Z) in *.
  pose proof (Math_round_near computed) as [Hlo Hhi].
  set (T := Math_round computed) in *.
  unfold JS.Math_round_div.
  pose proof (Z.div_mod n 1000 ltac:(lia)) as Hdm.
  pose proof (Z.mod_pos_bound n 1000 ltac:(lia)) as Hmod.
  assert (Hn : inject_Z n == 1000 * inject_Z (n / 1000) + inject_Z (n mod 1000)).
  { rewrite Hdm at 1. rewrite inject_Z_plus, inject_Z_mult. reflexivity. }
  apply Z.div_unique with (r := (2 * n + 1000 - 2000 * T)%Z); [|lia].
  left. destruct (Z.lt_ge_cases (n mod 1000) 500) as [Hsmall|Hbig].
  - assert (Hr : inject_Z (n mod 1000) <= 499).
    { change 499 with (inject_Z 499). rewrite <- Zle_Qle. lia. }
    assert (Hr0 : 0 <= inject_Z (n mod 1000)).
    { change 0 with (inject_Z 0). rewrite <- Zle_Qle. lia. }
    assert (H1 : inject_Z (n / 1000 - 1) < inject_Z T).
    { rewrite inject_Z_sub. change (inject_Z 1) with 1. qlra. }
    assert (H2 : inject_Z T < inject_Z (n / 1000 + 1)).
    { rewrite inject_Z_plus. change (inject_Z 1) with 1. qlra. }
    rewrite <- Zlt_Qlt in H1, H2. lia.
  - assert (Hr : 501 <= inject_Z (n mod 1000)).
    { change 501 with (inject_Z 501). rewrite <- Zle_Qle. lia. }
    assert (Hr0 : inject_Z (n mod 1000) <= 999).
    { change 999 with (inject_Z 999). rewrite <- Zle_Qle. lia. }
    assert (H1 : inject_Z (n / 1000) < inject_Z T).
    { qlra. }
    assert (H2 : inject_Z T < inject_Z (n / 1000 + 2)).
    { rewrite inject_Z_plus. change (inject_Z 2) with 2. qlra. }
    rewrite <- Zlt_Qlt in H1, H2. lia.
Qed.

Lemma secondsLeft_last_half_second (contest : Contest.t) (now : Z) :
  (Contest.duration contest <= 2 ^ 31)%Z ->
  (0 <= now - Contest.startTime contest)%Z ->
  (Contest.duration contest * 60000 - 500 < now - Contest.startTime contest
   <= Contest.duration contest * 60000)%Z ->
  secondsLeft contest now = 0%Z.
Proof.
  intros HD Hpos [Hlast Hin].
  destruct (diff_within contest now HD ltac:(lia)) as (_ & Hc0 & Hc).
  cbv zeta in Hc, Hc0. unfold secondsLeft.
  set (computed := mul (sub (inject_Z (Contest.duration contest)) (diff contest now)) 60) in *.
  assert (Hn : inject_Z (Contest.duration contest * 60000
                         - (now - Contest.startTime contest)) <= 499).
  { change 499 with (inject_Z 499). rewrite <- Zle_Qle. lia. }
  assert (H : (0 <= Math_round computed <= 0)%Z); [|lia].
  split.
  - apply (Math_round_between computed 0 1). change (inject_Z 0) with 0.
    change (inject_Z 1) with 1. qlra.
  - pose proof (Math_round_near computed) as [_ Hhi].
    assert (H : inject_Z (Math_round computed) < inject_Z 1).
    { change (inject_Z 1) with 1. qlra. }
    rewrite <- Zlt_Qlt in H. lia.
Qed.

End DoubleFacts.

(** [Double] agrees with the Standard Library's binary64 on every
    percentage of a batch of up to 50 questions, and on the countdown at
    the first 300 instants of the contest [weekly] that leave an exact half
    second, at 23 of 40 and at the join of [1767263532500]. *)
Example Double_agrees_with_binary64 :
  forallb (λ len, forallb (λ score, percentageAgrees score len) (seqZ 0 (len + 1)))
          (seqZ 1 50) = true
  ∧ forallb (λ k, countdownAgrees weekly (1767261600500 + 1000 * k)) (seqZ 0 300) = true
  ∧ percentageAgrees 23 40 = true
  ∧ percentage_of 23 40 = Num 57
  ∧ countdownAgrees weekly 1767263532500 = true.
Proof.
  split; [vm_compute; reflexivity | split; [vm_compute; reflexivity |]].
  split; [vm_compute; reflexivity | split; [vm_compute; reflexivity |]].
  vm_compute; reflexivity.
Qed.

(** ** The running average (C1) *)

Lemma updateStats_totalTests u d s n p w now :
  UserStats.totalTests (updateStats u d s n p w now) = UserStats.totalTests u + 1.
Proof. unfold updateStats. destruct (progressionLogic u d p) as [[? ?] ?]. reflexivity. Qed.

Lemma updateStats_averageScore u d s n p w now :
  UserStats.averageScore (updateStats u d s n p w now) =
  JS.round_div_pos
    (JS.add (JS.mul (UserStats.averageScore u) (Num (Z.of_nat (UserStats.totalTests u)))) p)
    (Z.of_nat (UserStats.totalTests u + 1)).
Proof. unfold updateStats. destruct (progressionLogic u d p) as [[? ?] ?]. reflexivity. Qed.

Lemma recordAssessment_step u c a :
  UserStats.averageScore u = Num a →
  UserStats.averageScore (recordAssessment u c) =
    Num (fst (incrementalStep (a, Z.of_nat (UserStats.totalTests u)) (percentage c)))
  ∧ Z.of_nat (UserStats.totalTests (recordAssessment u c)) =
    snd (incrementalStep (a, Z.of_nat (UserStats.totalTests u)) (percentage c)).
Proof.
  intros Ha. unfold recordAssessment.
  rewrite updateStats_averageScore, updateStats_totalTests, Ha. simpl.
  split; [f_equal; f_equal; lia | lia].
Qed.

Lemma afterAssessments_fold cs : ∀ u a,
  UserStats.averageScore u = Num a →
  UserStats.averageScore (afterAssessments u cs) =
    Num (fst (fold_left incrementalStep (map percentage cs)
                        (a, Z.of_nat (UserStats.totalTests u))))
  ∧ UserStats.totalTests (afterAssessments u cs) = UserStats.totalTests u + length cs.
Proof.
  induction cs as [|c cs IH]; intros u a Ha; simpl.
  - split; [exact Ha | lia].
  - destruct (recordAssessment_step u c a Ha) as [Havg Htot].
    destruct (IH (recordAssessment u c) _ Havg) as [IH1 IH2].
    split.
    + rewrite IH1, Htot, <- surjective_pairing. reflexivity.
    + rewrite IH2. unfold recordAssessment. rewrite updateStats_totalTests. lia.
Qed.

Lemma incrementalAverage_upto_two (scores : list Z) :
  1 ≤ length scores ≤ 2 → incrementalAverage scores = roundedMean scores.
Proof.
  destruct scores as [|p1 [|p2 [|p3 rest]]]; simpl; try lia; intros _.
  - unfold incrementalAverage, roundedMean, sumScores. simpl.
    f_equal; lia.
  - unfold incrementalAverage, roundedMean, sumScores. simpl.
    rewrite Math_round_div_one. f_equal; lia.
Qed.

Lemma incrementalAverage_between_gen (lo hi : Z) (scores : list Z) : ∀ a n,
  (0 ≤ n)%Z → (n = 0%Z ∨ (lo ≤ a ≤ hi)%Z) →
  Forall (λ p, (lo ≤ p ≤ hi)%Z) scores → scores ≠ [] →
  (lo ≤ fst (fold_left incrementalStep scores (a, n)) ≤ hi)%Z.
Proof.
  induction scores as [|p scores IH]; intros a n Hn Ha Hall Hne; [done|].
  inversion Hall as [|? ? Hp Hrest]; subst. simpl.
  assert (Hstep : (lo ≤ JS.Math_round_div (a * n + p) (n + 1) ≤ hi)%Z).
  { apply Math_round_div_between; [lia|].
    destruct Ha as [-> | Ha]; [lia | nia]. }
  destruct scores as [|p' scores'].
  - simpl. exact Hstep.
  - apply IH; [lia | right; exact Hstep | exact Hrest | done].
Qed.

(** The running average never leaves the range of the scores recorded. *)
Lemma incrementalAverage_between (lo hi : Z) (scores : list Z) :
  Forall (λ p, (lo ≤ p ≤ hi)%Z) scores → scores ≠ [] →
  (lo ≤ incrementalAverage scores ≤ hi)%Z.
Proof.
  intros. apply incrementalAverage_between_gen; auto. lia.
Qed.

(** C1 (as amended).  From a fresh account ([totalTests = 0],
    [averageScore = 0]) the [averageScore] after N completed assessments
    with integer percentages is the incremental formula
    [round((oldAvg*oldTotal + newPct) / newTotal)] iterated over the N
    scores, and [totalTests] is N.  It equals [round(mean of the N scores)]
    when N is 1 or 2; for longer sequences the rounding at each step can
    make it differ from the rounded mean. *)
Theorem averageScore_incremental (u : UserStats.t) (cs : list Completed) :
  UserStats.totalTests u = 0 →
  UserStats.averageScore u = Num 0 →
  UserStats.averageScore (afterAssessments u cs)
    = Num (incrementalAverage (map percentage cs))
  ∧ UserStats.totalTests (afterAssessments u cs) = length cs
  ∧ (1 ≤ length cs ≤ 2 →
     UserStats.averageScore (afterAssessments u cs)
       = Num (roundedMean (map percentage cs))).
Proof.
  intros Htot Havg.
  destruct (afterAssessments_fold cs u 0%Z Havg) as [H1 H2].
  rewrite Htot in H1, H2. simpl in H1, H2.
  split; [exact H1 | split; [exact H2 |]].
  intros Hlen. rewrite H1. f_equal.
  apply incrementalAverage_upto_two. by rewrite length_map.
Qed.

Lemma averageScore_incremental_witness :
  UserStats.totalTests demoUser = 0
  ∧ UserStats.averageScore demoUser = Num 0
  ∧ UserStats.averageScore
      (afterAssessments demoUser [scored BEGINNER 100; scored ADVANCED 70]) = Num 85
  ∧ UserStats.totalTests
      (afterAssessments demoUser [scored BEGINNER 100; scored ADVANCED 70]) = 2.
Proof.
  split; [reflexivity | split; [reflexivity |]].
  destruct (averageScore_incremental demoUser
              [scored BEGINNER 100; scored ADVANCED 70] eq_refl eq_refl)
    as (_ & Htot & Hmean).
  split; [| exact Htot].
  rewrite Hmean; [reflexivity | simpl; lia].
Defined.

(** C1 (as stated) fails: a perfect score followed by six scores of 0 leaves
    [averageScore = 15], while the rounded mean of the seven scores is 14. *)
Lemma averageScore_not_rounded_mean :
  UserStats.averageScore (afterAssessments demoUser perfectThenSixZeros) = Num 15
  ∧ roundedMean (map percentage perfectThenSixZeros) = 14%Z
  ∧ UserStats.averageScore (afterAssessments demoUser perfectThenSixZeros)
      ≠ Num (roundedMean (map percentage perfectThenSixZeros)).
Proof.
  split; [vm_compute; reflexivity | split; [vm_compute; reflexivity |]].
  vm_compute. discriminate.
Qed.

(** The drift is not bounded by one unit: after a perfect score and 99
    scores of 0 the account shows 7 where the mean is 1. *)
Example averageScore_drift_100 :
  incrementalAverage (100%Z :: repeat 0%Z 99) = 7%Z
  ∧ roundedMean (100%Z :: repeat 0%Z 99) = 1%Z.
Proof. split; vm_compute; reflexivity. Qed.

(** ** The weak-area list (C2) *)


Lemma fold_Set_add_NoDup (l : list string) : ∀ acc,
  NoDup acc → NoDup (fold_left JS.Set_add l acc).
Proof.
  induction l as [|y l IH]; intros acc Hacc; simpl; [done|].
  apply IH. unfold JS.Set_add.
  destruct (decide (y ∈ acc)) as [Hin|Hnin]; [done|].
  apply NoDup_app. split; [done|]. split; [|apply NoDup_singleton].
  intros x Hx ->%list_elem_of_singleton. done.
Qed.

Lemma fold_Set_add_prefix (l : list string) : ∀ acc,
  acc `prefix_of` fold_left JS.Set_add l acc.
Proof.
  induction l as [|y l IH]; intros acc; simpl; [done|].
  etrans; [|apply IH]. unfold JS.Set_add.
  destruct (decide (y ∈ acc)); [done | by apply prefix_app_r].
Qed.

Lemma fold_Set_add_fresh (l : list string) : ∀ acc,
  NoDup (acc ++ l) → fold_left JS.Set_add l acc = acc ++ l.
Proof.
  induction l as [|y l IH]; intros acc Hnd; simpl.
  - by rewrite app_nil_r.
  - unfold JS.Set_add at 2.
    apply NoDup_app in Hnd as Hnd'. destruct Hnd' as (_ & Hdisj & _).
    destruct (decide (y ∈ acc)) as [Hin|Hnin].
    + exfalso. apply (Hdisj y Hin). constructor.
    + rewrite IH; [by rewrite <- app_assoc |]. by rewrite <- app_assoc.
Qed.

Lemma Array_from_Set_NoDup (l : list string) : NoDup (JS.Array_from_Set l).
Proof. apply fold_Set_add_NoDup, NoDup_nil_2. Qed.


(** A list without duplicates goes through [new Set] unchanged. *)
Lemma Array_from_Set_id (l : list string) : NoDup l → JS.Array_from_Set l = l.
Proof. intros Hnd. unfold JS.Array_from_Set. by rewrite fold_Set_add_fresh. Qed.



Lemma updateStats_weakAreas u d s n p w now :
  UserStats.weakAreas (updateStats u d s n p w now) =
  JS.slice0 10 (JS.Array_from_Set (UserStats.weakAreas u ++ w)).
Proof. unfold updateStats. destruct (progressionLogic u d p) as [[? ?] ?]. reflexivity. Qed.




(** After any number of recorded assessments (at least one) the weak-area
    list has no duplicates and at most 10 entries. *)
Lemma weakAreas_bounded_after (u : UserStats.t) (cs : list Completed) (c : Completed) :
  NoDup (UserStats.weakAreas (afterAssessments u (cs ++ [c])))
  ∧ length (UserStats.weakAreas (afterAssessments u (cs ++ [c]))) ≤ 10.
Proof.
  unfold afterAssessments. rewrite fold_left_app. simpl.
  unfold recordAssessment at 1 3. rewrite updateStats_weakAreas. unfold JS.slice0.
  split.
  - eapply sublist_NoDup; [apply Array_from_Set_NoDup | apply sublist_take].
  - rewrite length_take. lia.
Qed.

(** ** Scoring (C9) *)

Lemma score_of_fold (answers : gmap string string) (qs : list Question.t) : ∀ acc,
  fold_left (λ acc q, acc + (if isCorrectAnswer answers q then 1 else 0)) qs acc
  = acc + length (filter (λ q, answers !! Question.id q = Some (Question.correctAnswer q)) qs).
Proof.
  induction qs as [|q qs IH]; intros acc; simpl; [lia|].
  rewrite IH, filter_cons. unfold isCorrectAnswer.
  destruct (decide (answers !! Question.id q = Some (Question.correctAnswer q))) as [H|H].
  - rewrite bool_decide_eq_true_2 by done. simpl. lia.
  - rewrite bool_decide_eq_false_2 by done. lia.
Qed.

Lemma score_of_count (qs : list Question.t) (answers : gmap string string) :
  score_of qs answers
  = length (filter (λ q, answers !! Question.id q = Some (Question.correctAnswer q)) qs).
Proof. unfold score_of. by rewrite score_of_fold. Qed.

Lemma score_of_le_length (qs : list Question.t) (answers : gmap string string) :
  score_of qs answers ≤ length qs.
Proof. rewrite score_of_count. apply length_filter. Qed.

(** ** Gap analysis *)

Lemma analyzeGaps_keeps_score r reply a :
  analyzeGaps r reply = Some a →
  AssessmentResult.score a = AssessmentResult.score r
  ∧ AssessmentResult.total a = AssessmentResult.total r
  ∧ AssessmentResult.feedback a = AssessmentResult.feedback r.
Proof.
  unfold analyzeGaps.
  destruct (decide _); [intros [= <-]; done|].
  destruct reply; intros [= <-]; done.
Qed.

Lemma analyzeGaps_perfect r reply :
  AssessmentResult.score r = AssessmentResult.total r →
  ∃ a, analyzeGaps r reply = Some a ∧ AssessmentResult.weakAreas a = [].
Proof.
  intros Heq. unfold analyzeGaps. rewrite decide_True by done. eauto.
Qed.

Lemma analyzeGaps_rejected r :
  AssessmentResult.score r ≠ AssessmentResult.total r →
  analyzeGaps r RequestRejected = None.
Proof. intros Hne. unfold analyzeGaps. by rewrite decide_False. Qed.

Lemma analyzeGaps_unparseable r :
  AssessmentResult.score r ≠ AssessmentResult.total r →
  analyzeGaps r Unparseable = Some r.
Proof. intros Hne. unfold analyzeGaps. by rewrite decide_False. Qed.

(** ** [handleSubmitTest], by the outcome of the gap analysis *)

Lemma handleSubmitTest_analyzed reply now st analyzed u :
  analyzeGaps (initialResults (questions st) (answers st)) reply = Some analyzed →
  user st = Some u →
  user (handleSubmitTest reply now st)
    = Some (updateStats u (difficulty st) (selectedSubjects st) (length (questions st))
              (percentage_of (score_of (questions st) (answers st)) (length (questions st)))
              (AssessmentResult.weakAreas analyzed) now)
  ∧ results (handleSubmitTest reply now st) = Some analyzed
  ∧ appState (handleSubmitTest reply now st) = results_page
  ∧ isLoading (handleSubmitTest reply now st) = false
  ∧ coach_users (handleSubmitTest reply now st)
    = (λ users,
         <[UserStats.email u :=
             updateStats u (difficulty st) (selectedSubjects st) (length (questions st))
               (percentage_of (score_of (questions st) (answers st)) (length (questions st)))
               (AssessmentResult.weakAreas analyzed) now]> users) <$> coach_users st.
Proof.
  intros Ha Hu. unfold handleSubmitTest. rewrite Ha, Hu. simpl.
  destruct (coach_users st); done.
Qed.

Lemma handleSubmitTest_rejected reply now st :
  analyzeGaps (initialResults (questions st) (answers st)) reply = None →
  user (handleSubmitTest reply now st) = user st
  ∧ coach_users (handleSubmitTest reply now st) = coach_users st
  ∧ results (handleSubmitTest reply now st)
    = Some (initialResults (questions st) (answers st))
  ∧ appState (handleSubmitTest reply now st) = results_page
  ∧ isLoading (handleSubmitTest reply now st) = false.
Proof. intros Ha. unfold handleSubmitTest. rewrite Ha. done. Qed.

Lemma handleSubmitTest_results reply now st :
  ∃ r, results (handleSubmitTest reply now st) = Some r
       ∧ AssessmentResult.score r = score_of (questions st) (answers st)
       ∧ AssessmentResult.total r = length (questions st)
       ∧ AssessmentResult.feedback r = map (feedback_of (answers st)) (questions st).
Proof.
  unfold handleSubmitTest.
  destruct (analyzeGaps _ reply) as [a|] eqn:Ha.
  - apply analyzeGaps_keeps_score in Ha as (Hs & Ht & Hf).
    exists a. destruct (user st); simpl; done.
  - eexists. simpl. done.
Qed.

(** C9.  The result of a submitted assessment has as [score] the number of
    questions whose recorded answer is the correct one and as [total] the
    number of questions; a question without a recorded answer is never
    counted, and its feedback entry has no [selectedAnswer] and
    [isCorrect = false].  With 10 questions of which 7 are answered
    correctly, [score = 7] and [total = 10]. *)
Theorem score_counts_matching_answers (reply : GapReply) (now : string) (st : App) :
  ∃ r, results (handleSubmitTest reply now st) = Some r
    ∧ AssessmentResult.score r
      = length (filter (λ q, answers st !! Question.id q = Some (Question.correctAnswer q))
                       (questions st))
    ∧ AssessmentResult.total r = length (questions st)
    ∧ (∀ i q, questions st !! i = Some q → answers st !! Question.id q = None →
         isCorrectAnswer (answers st) q = false
         ∧ ∃ fb, AssessmentResult.feedback r !! i = Some fb
                 ∧ Feedback.questionId fb = Question.id q
                 ∧ Feedback.selectedAnswer fb = None
                 ∧ Feedback.isCorrect fb = false)
    ∧ (length (questions st) = 10 →
       length (filter (λ q, answers st !! Question.id q = Some (Question.correctAnswer q))
                      (questions st)) = 7 →
       AssessmentResult.score r = 7 ∧ AssessmentResult.total r = 10).
Proof.
  destruct (handleSubmitTest_results reply now st) as (r & Hr & Hs & Ht & Hf).
  exists r. rewrite score_of_count in Hs.
  split; [exact Hr | split; [exact Hs | split; [exact Ht | split]]].
  - intros i q Hq Hnone.
    assert (Hwrong : isCorrectAnswer (answers st) q = false).
    { unfold isCorrectAnswer. rewrite Hnone. by apply bool_decide_eq_false_2. }
    split; [exact Hwrong |].
    exists (feedback_of (answers st) q). rewrite Hf, list_lookup_fmap, Hq. simpl.
    rewrite Hwrong, Hnone. done.
  - intros H10 H7. rewrite Hs, Ht. done.
Qed.

Lemma score_counts_matching_answers_witness :
  length (questions sevenOfTen) = 10
  ∧ length (filter (λ q, answers sevenOfTen !! Question.id q
                          = Some (Question.correctAnswer q))
                   (questions sevenOfTen)) = 7
  ∧ questions sevenOfTen !! 8 = Some (sampleQuestion 9)
  ∧ answers sevenOfTen !! Question.id (sampleQuestion 9) = None
  ∧ ∃ r, results (handleSubmitTest Unparseable "day 1" sevenOfTen) = Some r
       ∧ AssessmentResult.score r = 7
       ∧ AssessmentResult.total r = 10
       ∧ ∃ fb, AssessmentResult.feedback r !! 8 = Some fb
               ∧ Feedback.selectedAnswer fb = None
               ∧ Feedback.isCorrect fb = false.
Proof.
  assert (H10 : length (questions sevenOfTen) = 10) by reflexivity.
  assert (H7 : length (filter (λ q, answers sevenOfTen !! Question.id q
                                     = Some (Question.correctAnswer q))
                              (questions sevenOfTen)) = 7)
    by (vm_compute; reflexivity).
  assert (Hq : questions sevenOfTen !! 8 = Some (sampleQuestion 9)) by reflexivity.
  assert (Hn : answers sevenOfTen !! Question.id (sampleQuestion 9) = None)
    by (vm_compute; reflexivity).
  destruct (score_counts_matching_answers Unparseable "day 1" sevenOfTen)
    as (r & Hr & _ & _ & Hfb & Hscen).
  destruct (Hscen H10 H7) as [Hs Ht].
  destruct (Hfb 8 (sampleQuestion 9) Hq Hn) as (_ & fb & Hf1 & _ & Hf2 & Hf3).
  split; [exact H10 | split; [exact H7 | split; [exact Hq | split; [exact Hn |]]]].
  exists r. split; [exact Hr | split; [exact Hs | split; [exact Ht |]]].
  exists fb. split; [exact Hf1 | split; [exact Hf2 | exact Hf3]].
Defined.

(** ** A failed gap analysis (C3) *)

(** C3.  The code departs from the claim.  When the score is not perfect,
    so that the gap analysis request is made, and the request is rejected,
    the session still completes with the raw result: the results page is
    shown, loading is over and [results] is the un-analyzed result, as the
    [catch] block sets it.  But the progression is not run: the account in
    memory and the stored accounts are left as they were.  The fallback
    inside [analyzeGaps], for a reply that does not parse, does hand the
    raw result on to the progression, which then runs with empty weak
    areas. *)
Theorem rejected_analysis_skips_progression (now : string) (st : App) :
  score_of (questions st) (answers st) ≠ length (questions st) →
  (appState (handleSubmitTest RequestRejected now st) = results_page
   ∧ isLoading (handleSubmitTest RequestRejected now st) = false
   ∧ results (handleSubmitTest RequestRejected now st)
     = Some (initialResults (questions st) (answers st))
   ∧ user (handleSubmitTest RequestRejected now st) = user st
   ∧ coach_users (handleSubmitTest RequestRejected now st) = coach_users st)
  ∧ (results (handleSubmitTest Unparseable now st)
     = Some (initialResults (questions st) (answers st))
     ∧ user (handleSubmitTest Unparseable now st)
       = (λ u, updateStats u (difficulty st) (selectedSubjects st)
                 (length (questions st))
                 (percentage_of (score_of (questions st) (answers st))
                                (length (questions st)))
                 [] now) <$> user st).
Proof.
  intros Hne.
  assert (Hne' : AssessmentResult.score (initialResults (questions st) (answers st))
                 ≠ AssessmentResult.total (initialResults (questions st) (answers st)))
    by exact Hne.
  split.
  - destruct (handleSubmitTest_rejected RequestRejected now st
                (analyzeGaps_rejected _ Hne')) as (Hu & Hc & Hr & Ha & Hl).
    done.
  - pose proof (analyzeGaps_unparseable _ Hne') as Hgap.
    destruct (user st) as [u|] eqn:Hu.
    + destruct (handleSubmitTest_analyzed Unparseable now st _ u Hgap Hu)
        as (Hu' & Hr & _).
      done.
    + unfold handleSubmitTest. rewrite Hgap, Hu. done.
Qed.

Lemma rejected_analysis_skips_progression_witness :
  score_of (questions threeOfFour) (answers threeOfFour) ≠ length (questions threeOfFour)
  ∧ user (handleSubmitTest RequestRejected "day 1" threeOfFour) = Some demoUser
  ∧ coach_users (handleSubmitTest RequestRejected "day 1" threeOfFour)
    = coach_users threeOfFour
  ∧ appState (handleSubmitTest RequestRejected "day 1" threeOfFour) = results_page.
Proof.
  assert (Hne : score_of (questions threeOfFour) (answers threeOfFour)
                ≠ length (questions threeOfFour)).
  { vm_compute. discriminate. }
  destruct (rejected_analysis_skips_progression "day 1" threeOfFour Hne)
    as ((Ha & _ & _ & Hu & Hc) & _).
  split; [exact Hne | split; [exact Hu | split; [exact Hc | exact Ha]]].
Defined.

(** The failing input of C3: after three right answers out of four and a
    rejected request the account still shows no test taken and no attempt,
    where the success path, here with a reply that finds no weak area,
    records the test. *)
Lemma rejected_analysis_account_unchanged :
  user (handleSubmitTest RequestRejected "day 1" threeOfFour) = Some demoUser
  ∧ (UserStats.totalTests <$> user (handleSubmitTest RequestRejected "day 1" threeOfFour))
    = Some 0
  ∧ (UserStats.totalTests
       <$> user (handleSubmitTest (Analysis (Some []) (Some [])) "day 1" threeOfFour))
    = Some 1
  ∧ user (handleSubmitTest RequestRejected "day 1" threeOfFour)
    ≠ user (handleSubmitTest (Analysis (Some []) (Some [])) "day 1" threeOfFour)
  ∧ coach_users (handleSubmitTest RequestRejected "day 1" threeOfFour)
    ≠ coach_users (handleSubmitTest (Analysis (Some []) (Some [])) "day 1" threeOfFour).
Proof.
  assert (H0 : user (handleSubmitTest RequestRejected "day 1" threeOfFour)
               = Some demoUser) by (vm_compute; reflexivity).
  assert (H1 : (UserStats.totalTests
                  <$> user (handleSubmitTest (Analysis (Some []) (Some []))
                                             "day 1" threeOfFour)) = Some 1)
    by (vm_compute; reflexivity).
  split; [exact H0 | split; [by rewrite H0 | split; [exact H1 |]]].
  split.
  - intros Heq. rewrite <- Heq, H0 in H1. discriminate H1.
  - intros Heq.
    assert (Hl : (UserStats.totalTests
                    <$> (coach_users (handleSubmitTest RequestRejected
                                        "day 1" threeOfFour)
                           ≫= (.!! UserStats.email demoUser))) = Some 0)
      by (vm_compute; reflexivity).
    rewrite Heq in Hl. vm_compute in Hl. discriminate Hl.
Qed.

(** ** Tier and badge rules (C6, C7, C8, C10) *)

Lemma updateStats_progression u d s n p w now :
  (UserStats.level (updateStats u d s n p w now),
   UserStats.badges (updateStats u d s n p w now),
   UserStats.placementReady (updateStats u d s n p w now))
  = progressionLogic u d p.
Proof. unfold updateStats. destruct (progressionLogic u d p) as [[? ?] ?]. reflexivity. Qed.

Lemma updateStats_scores u d s n p w now :
  UserStats.highestScore (updateStats u d s n p w now)
    = JS.Math_max (UserStats.highestScore u) p
  ∧ UserStats.lastScores (updateStats u d s n p w now)
    = JS.slice0 5 (p :: UserStats.lastScores u).
Proof. unfold updateStats. destruct (progressionLogic u d p) as [[? ?] ?]. done. Qed.

Lemma progressionLogic_held u d p :
  badgeFor d ∈ UserStats.badges u →
  progressionLogic u d p
  = (UserStats.level u, UserStats.badges u, UserStats.placementReady u).
Proof.
  intros Hheld. unfold progressionLogic, JS.includes.
  destruct (JS.strict_eq p (Num 100)); [|reflexivity].
  destruct d; simpl in Hheld; simpl;
    rewrite (bool_decide_eq_true_2 _ Hheld); reflexivity.
Qed.

Lemma progressionLogic_not_perfect u d p :
  JS.strict_eq p (Num 100) = false →
  progressionLogic u d p
  = (UserStats.level u, UserStats.badges u, UserStats.placementReady u).
Proof. intros Hp. unfold progressionLogic. by rewrite Hp. Qed.

Lemma progressionLogic_ready u d p :
  UserStats.placementReady u = true → (progressionLogic u d p).2 = true.
Proof.
  intros Hready. unfold progressionLogic.
  repeat match goal with |- context [if ?b then _ else _] => destruct b end;
    simpl; done.
Qed.

(** How [handleSubmitTest] leaves the account: untouched when the analysis
    request is rejected, and otherwise updated by [updateStats] with some
    list of weak areas. *)
Lemma handleSubmitTest_user reply now st u :
  user st = Some u →
  user (handleSubmitTest reply now st) = Some u
  ∨ ∃ w, user (handleSubmitTest reply now st)
         = Some (updateStats u (difficulty st) (selectedSubjects st)
                   (length (questions st))
                   (percentage_of (score_of (questions st) (answers st))
                                  (length (questions st)))
                   w now).
Proof.
  intros Hu.
  destruct (analyzeGaps (initialResults (questions st) (answers st)) reply)
    as [a|] eqn:Ha.
  - right. exists (AssessmentResult.weakAreas a).
    by destruct (handleSubmitTest_analyzed reply now st a u Ha Hu) as (-> & _).
  - left. destruct (handleSubmitTest_rejected reply now st Ha) as (-> & _). done.
Qed.

(** C6 (as amended).  An account with [totalTests = 0], [averageScore = 0],
    no badge and tier BEGINNER that submits an assessment taken at
    difficulty BEGINNER and scoring 100 out of 100 questions comes out with
    [totalTests = 1], [averageScore = 100], [badges = ["Beginner Champion"]]
    and [level = ADVANCED], whatever the content provider would have
    replied. *)
Theorem first_perfect_score_unlocks_advanced
    (reply : GapReply) (now : string) (st : App) (u : UserStats.t) :
  user st = Some u →
  UserStats.totalTests u = 0 →
  UserStats.averageScore u = Num 0 →
  UserStats.badges u = [] →
  UserStats.level u = BEGINNER →
  difficulty st = BEGINNER →
  score_of (questions st) (answers st) = 100 →
  length (questions st) = 100 →
  ∃ u', user (handleSubmitTest reply now st) = Some u'
      ∧ UserStats.totalTests u' = 1
      ∧ UserStats.averageScore u' = Num 100
      ∧ UserStats.badges u' = ["Beginner Champion"]
      ∧ UserStats.level u' = ADVANCED.
Proof.
  intros Hu Htot Havg Hbadges Hlevel Hd Hscore Hlen.
  destruct (analyzeGaps_perfect (initialResults (questions st) (answers st)) reply)
    as (a & Ha & Hw); [simpl; congruence|].
  destruct (handleSubmitTest_analyzed reply now st a u Ha Hu) as (Hu' & _).
  eexists. split; [exact Hu'|].
  rewrite Hscore, Hlen, Hd, Hw.
  unfold updateStats, progressionLogic.
  rewrite Htot, Havg, Hbadges. vm_compute. done.
Qed.

Lemma first_perfect_score_unlocks_advanced_witness :
  user perfectHundred = Some demoUser
  ∧ score_of (questions perfectHundred) (answers perfectHundred) = 100
  ∧ length (questions perfectHundred) = 100
  ∧ ∃ u', user (handleSubmitTest RequestRejected "day 1" perfectHundred) = Some u'
        ∧ UserStats.totalTests u' = 1
        ∧ UserStats.averageScore u' = Num 100
        ∧ UserStats.badges u' = ["Beginner Champion"]
        ∧ UserStats.level u' = ADVANCED.
Proof.
  assert (Hs : score_of (questions perfectHundred) (answers perfectHundred) = 100)
    by (vm_compute; reflexivity).
  assert (Hl : length (questions perfectHundred) = 100) by (vm_compute; reflexivity).
  split; [reflexivity | split; [exact Hs | split; [exact Hl |]]].
  exact (first_perfect_score_unlocks_advanced RequestRejected "day 1" perfectHundred
           demoUser eq_refl eq_refl eq_refl eq_refl eq_refl eq_refl Hs Hl).
Defined.

(** C6 (as stated) fails: the tier rule tests the difficulty that the
    page holds, not the tier of the account.  The fresh account, on a page
    whose difficulty is EXPERT, scores 100 out of 100 and comes out with
    the badge "Expert Legend" and the placement flag, at tier BEGINNER. *)
Lemma fresh_account_perfect_at_expert :
  user perfectHundredAtExpert = Some demoUser
  ∧ UserStats.totalTests demoUser = 0
  ∧ UserStats.averageScore demoUser = Num 0
  ∧ UserStats.badges demoUser = []
  ∧ UserStats.level demoUser = BEGINNER
  ∧ score_of (questions perfectHundredAtExpert) (answers perfectHundredAtExpert) = 100
  ∧ length (questions perfectHundredAtExpert) = 100
  ∧ ∃ u', user (handleSubmitTest RequestRejected "day 1" perfectHundredAtExpert)
          = Some u'
        ∧ UserStats.totalTests u' = 1
        ∧ UserStats.averageScore u' = Num 100
        ∧ UserStats.badges u' = ["Expert Legend"]
        ∧ UserStats.level u' = BEGINNER
        ∧ UserStats.placementReady u' = true
        ∧ UserStats.badges u' ≠ ["Beginner Champion"]
        ∧ UserStats.level u' ≠ ADVANCED.
Proof.
  do 5 (split; [reflexivity|]).
  split; [vm_compute; reflexivity | split; [vm_compute; reflexivity |]].
  eexists. split; [vm_compute; reflexivity |].
  repeat split; (reflexivity || discriminate).
Qed.

(** C7.  Badge granting is idempotent: when the account already holds the
    badge of the tier at which the assessment is taken, a 100% score leaves
    the badge list, the tier and the placement flag as they were; for an
    EXPERT account holding all three badges this is the case of
    [difficulty = EXPERT]. *)
Theorem held_badge_not_granted_again
    (reply : GapReply) (now : string) (st : App) (u : UserStats.t) :
  user st = Some u →
  badgeFor (difficulty st) ∈ UserStats.badges u →
  percentage_of (score_of (questions st) (answers st)) (length (questions st)) = Num 100 →
  ∃ u', user (handleSubmitTest reply now st) = Some u'
      ∧ UserStats.badges u' = UserStats.badges u
      ∧ UserStats.level u' = UserStats.level u
      ∧ UserStats.placementReady u' = UserStats.placementReady u.
Proof.
  intros Hu Hheld Hpct.
  destruct (handleSubmitTest_user reply now st u Hu) as [-> | [w ->]].
  - by exists u.
  - eexists. split; [reflexivity|].
    pose proof (updateStats_progression u (difficulty st) (selectedSubjects st)
                  (length (questions st))
                  (percentage_of (score_of (questions st) (answers st))
                                 (length (questions st))) w now) as Hp.
    rewrite progressionLogic_held in Hp by exact Hheld.
    by injection Hp as -> -> ->.
Qed.

Lemma held_badge_not_granted_again_witness :
  UserStats.level legend = EXPERT
  ∧ UserStats.badges legend = ["Beginner Champion"; "Advanced Master"; "Expert Legend"]
  ∧ badgeFor (difficulty legendAgain) ∈ UserStats.badges legend
  ∧ percentage_of (score_of (questions legendAgain) (answers legendAgain))
                  (length (questions legendAgain)) = Num 100
  ∧ ∃ u', user (handleSubmitTest Unparseable "day 4" legendAgain) = Some u'
        ∧ UserStats.badges u'
          = ["Beginner Champion"; "Advanced Master"; "Expert Legend"]
        ∧ UserStats.level u' = EXPERT
        ∧ UserStats.placementReady u' = true.
Proof.
  assert (Hb : UserStats.badges legend
               = ["Beginner Champion"; "Advanced Master"; "Expert Legend"])
    by (vm_compute; reflexivity).
  assert (Hheld : badgeFor (difficulty legendAgain) ∈ UserStats.badges legend).
  { rewrite Hb. simpl. do 2 apply list_elem_of_further. apply list_elem_of_here. }
  assert (Hp : percentage_of (score_of (questions legendAgain) (answers legendAgain))
                             (length (questions legendAgain)) = Num 100)
    by (vm_compute; reflexivity).
  split; [vm_compute; reflexivity | split; [exact Hb | split; [exact Hheld |]]].
  split; [exact Hp |].
  destruct (held_badge_not_granted_again Unparseable "day 4" legendAgain legend
              eq_refl Hheld Hp) as (u' & Hu' & Hbadges & Hlevel & Hready).
  exists u'. split; [exact Hu' | split; [by rewrite Hbadges | split]].
  - rewrite Hlevel. vm_compute. reflexivity.
  - rewrite Hready. vm_compute. reflexivity.
Defined.

(** C8.  [placementReady] is monotonic: on an account where it is true, the
    progression update for any further assessment, whatever its score and
    tier, gives an account where it is true, and so does any run of
    [handleSubmitTest]. *)
Theorem placementReady_monotonic (u : UserStats.t) :
  UserStats.placementReady u = true →
  (∀ d s n p w now, UserStats.placementReady (updateStats u d s n p w now) = true)
  ∧ (∀ reply now st, user st = Some u →
       ∃ u', user (handleSubmitTest reply now st) = Some u'
             ∧ UserStats.placementReady u' = true).
Proof.
  intros Hready.
  assert (Hupd : ∀ d s n p w now,
             UserStats.placementReady (updateStats u d s n p w now) = true).
  { intros d s n p w now.
    pose proof (updateStats_progression u d s n p w now) as Hp.
    pose proof (progressionLogic_ready u d p Hready) as Hr.
    rewrite <- Hp in Hr. exact Hr. }
  split; [exact Hupd |].
  intros reply now st Hu.
  destruct (handleSubmitTest_user reply now st u Hu) as [-> | [w ->]].
  - by exists u.
  - eexists. split; [reflexivity | apply Hupd].
Qed.

Lemma placementReady_monotonic_witness :
  UserStats.placementReady legend = true
  ∧ UserStats.placementReady
      (updateStats legend ADVANCED ["OS"] 10 (Num 30) ["Paging"] "day 5") = true
  ∧ ∃ u', user (handleSubmitTest (Analysis (Some ["Pointers"]) None) "day 6" legendFails)
          = Some u'
        ∧ UserStats.placementReady u' = true.
Proof.
  assert (Hready : UserStats.placementReady legend = true) by (vm_compute; reflexivity).
  destruct (placementReady_monotonic legend Hready) as [Hupd Hrun].
  split; [exact Hready | split; [apply Hupd |]].
  apply Hrun. reflexivity.
Defined.

(** C10.  Submitting a batch of zero questions computes the percentage as
    [round((0/0)*100)], which is [NaN] and not equal to 100: no badge is
    granted, the tier and the placement flag stay.  Nothing guards the
    division, and the progression still runs: [averageScore] and
    [highestScore] become [NaN], [NaN] is put at the head of [lastScores],
    the test is counted, and the account so obtained is the one written to
    the store. *)
Theorem empty_batch_corrupts_statistics
    (reply : GapReply) (now : string) (st : App) (u : UserStats.t) :
  user st = Some u →
  questions st = [] →
  percentage_of (score_of (questions st) (answers st)) (length (questions st)) = NaN
  ∧ JS.strict_eq NaN (Num 100) = false
  ∧ ∃ u', user (handleSubmitTest reply now st) = Some u'
      ∧ UserStats.badges u' = UserStats.badges u
      ∧ UserStats.level u' = UserStats.level u
      ∧ UserStats.placementReady u' = UserStats.placementReady u
      ∧ UserStats.averageScore u' = NaN
      ∧ UserStats.highestScore u' = NaN
      ∧ UserStats.lastScores u' = take 5 (NaN :: UserStats.lastScores u)
      ∧ UserStats.totalTests u' = UserStats.totalTests u + 1
      ∧ coach_users (handleSubmitTest reply now st)
        = (λ users, <[UserStats.email u := u']> users) <$> coach_users st.
Proof.
  intros Hu Hq.
  assert (Hpct : percentage_of (score_of (questions st) (answers st))
                               (length (questions st)) = NaN) by (rewrite Hq; done).
  split; [exact Hpct | split; [reflexivity |]].
  destruct (analyzeGaps_perfect (initialResults (questions st) (answers st)) reply)
    as (a & Ha & Hw); [by rewrite Hq|].
  destruct (handleSubmitTest_analyzed reply now st a u Ha Hu)
    as (Hu' & _ & _ & _ & Hstore).
  rewrite Hpct in Hu', Hstore.
  eexists. split; [exact Hu'|].
  repeat split; try done.
  - rewrite updateStats_averageScore.
    by destruct (JS.mul (UserStats.averageScore u) _).
  - rewrite (proj1 (updateStats_scores _ _ _ _ _ _ _)).
    by destruct (UserStats.highestScore u).
Qed.

Lemma empty_batch_corrupts_statistics_witness :
  user nothingToAnswer = Some legend
  ∧ questions nothingToAnswer = []
  ∧ UserStats.averageScore legend = Num 100
  ∧ ∃ u', user (handleSubmitTest RequestRejected "day 7" nothingToAnswer) = Some u'
        ∧ UserStats.averageScore u' = NaN
        ∧ UserStats.highestScore u' = NaN
        ∧ UserStats.lastScores u' = [NaN; Num 100; Num 100; Num 100]
        ∧ UserStats.totalTests u' = 4.
Proof.
  split; [reflexivity | split; [reflexivity | split; [vm_compute; reflexivity |]]].
  destruct (empty_batch_corrupts_statistics RequestRejected "day 7" nothingToAnswer
              legend eq_refl eq_refl)
    as (_ & _ & u' & Hu' & _ & _ & _ & Havg & Hhigh & Hlast & Htot & _).
  exists u'. split; [exact Hu' | split; [exact Havg | split; [exact Hhigh | split]]].
  - rewrite Hlast. vm_compute. reflexivity.
  - rewrite Htot. vm_compute. reflexivity.
Defined.

(** ** Joining a contest (C4) *)

Lemma handleJoinContest_early (contest : Contest.t) (now : Z) (st : App) :
  (now - Contest.startTime contest < 0)%Z →
  handleJoinContest contest now st = (st, [NotStartedYet (Contest.startTime contest)]).
Proof.
  intros Hneg. unfold handleJoinContest.
  by rewrite (proj2 (ltb_lt _ _) (diff_early contest now Hneg)).
Qed.

Lemma handleJoinContest_late (contest : Contest.t) (now : Z) (st : App) :
  (Contest.duration contest ≤ 2 ^ 31)%Z →
  (0 ≤ now - Contest.startTime contest)%Z →
  (Contest.duration contest * 60000 < now - Contest.startTime contest)%Z →
  handleJoinContest contest now st = (st, [AlreadyEnded]).
Proof.
  intros HD Hpos Hlate. unfold handleJoinContest.
  rewrite (proj2 (ltb_ge _ _) (diff_nonneg contest now Hpos)).
  by rewrite (proj2 (ltb_lt _ _) (diff_late contest now HD Hpos Hlate)).
Qed.

Lemma handleJoinContest_accepted (contest : Contest.t) (now : Z) (st : App) :
  (Contest.duration contest ≤ 2 ^ 31)%Z →
  (0 ≤ now - Contest.startTime contest ≤ Contest.duration contest * 60000)%Z →
  handleJoinContest contest now st
  = ({| user := user st; selectedSubjects := selectedSubjects st;
        difficulty := difficulty st;
        appState := contest_active;
        questions := questions st;
        currentQuestionIndex := currentQuestionIndex st; answers := answers st;
        isLoading := isLoading st; results := results st; timeLeft := timeLeft st;
        activeContest := Some contest;
        contestTimeLeft := secondsLeft contest now;
        tabSwitches := 0;
        contestProblems := Contest.problems contest;
        currentProblemIndex := 0;
        coach_users := coach_users st |}, []).
Proof.
  intros HD Hin. unfold handleJoinContest.
  destruct (diff_within contest now HD Hin) as ([H0 H1] & _).
  by rewrite (proj2 (ltb_ge _ _) H0), (proj2 (ltb_ge _ _) H1).
Qed.

(** C4 (as amended).  With [elapsed] the time since [contest.startTime]:
    a join before the start is rejected with an alert and leaves the state
    as it was, and so is, for a duration of up to [2^31] minutes, a join
    more than [duration] minutes after the start; otherwise the session
    becomes active for that contest with violation count 0, problem index
    0 and a countdown of [Math.round((duration - diff) * 60)] seconds as
    the doubles give it.  That countdown is the exact number of seconds
    left rounded down or rounded down plus one: it is the nearest second
    whenever the time left is not an exact half second, and at an exact
    half second the rounding errors decide. *)
Theorem join_countdown_floor_or_next (contest : Contest.t) (now : Z) (st : App) :
  ((now - Contest.startTime contest < 0)%Z →
     handleJoinContest contest now st = (st, [NotStartedYet (Contest.startTime contest)]))
  ∧ ((Contest.duration contest ≤ 2 ^ 31)%Z →
     (Contest.duration contest * 60000 < now - Contest.startTime contest)%Z →
     (0 ≤ now - Contest.startTime contest)%Z →
     handleJoinContest contest now st = (st, [AlreadyEnded]))
  ∧ ((Contest.duration contest ≤ 2 ^ 31)%Z →
     (0 ≤ now - Contest.startTime contest ≤ Contest.duration contest * 60000)%Z →
     (handleJoinContest contest now st).2 = []
     ∧ appState (handleJoinContest contest now st).1 = contest_active
     ∧ activeContest (handleJoinContest contest now st).1 = Some contest
     ∧ contestProblems (handleJoinContest contest now st).1 = Contest.problems contest
     ∧ tabSwitches (handleJoinContest contest now st).1 = 0%Z
     ∧ currentProblemIndex (handleJoinContest contest now st).1 = 0
     ∧ user (handleJoinContest contest now st).1 = user st
     ∧ (flooredCountdown contest now
        ≤ contestTimeLeft (handleJoinContest contest now st).1
        ≤ flooredCountdown contest now + 1)%Z
     ∧ (((Contest.duration contest * 60000 - (now - Contest.startTime contest))
         mod 1000 ≠ 500)%Z →
        contestTimeLeft (handleJoinContest contest now st).1
        = JS.Math_round_div
            (Contest.duration contest * 60000 - (now - Contest.startTime contest))
            1000)).
Proof.
  split; [|split].
  - apply handleJoinContest_early.
  - intros HD Hlate Hpos. by apply handleJoinContest_late.
  - intros HD Hin. rewrite (handleJoinContest_accepted contest now st HD Hin).
    cbn [fst snd appState activeContest contestProblems tabSwitches
         currentProblemIndex user contestTimeLeft].
    do 7 (split; [reflexivity|]).
    split; [by apply secondsLeft_floor | by apply secondsLeft_nearest].
Qed.

Lemma join_countdown_floor_or_next_witness :
  (1767261599000 - Contest.startTime weekly < 0)%Z
  ∧ handleJoinContest weekly 1767261599000 inLobby
    = (inLobby, [NotStartedYet 1767261600000])
  ∧ (Contest.duration weekly ≤ 2 ^ 31)%Z
  ∧ (Contest.duration weekly * 60000 < 1767268800001 - Contest.startTime weekly)%Z
  ∧ handleJoinContest weekly 1767268800001 inLobby = (inLobby, [AlreadyEnded])
  ∧ (0 ≤ 1767261690400 - Contest.startTime weekly ≤ Contest.duration weekly * 60000)%Z
  ∧ appState (handleJoinContest weekly 1767261690400 inLobby).1 = contest_active
  ∧ tabSwitches (handleJoinContest weekly 1767261690400 inLobby).1 = 0%Z
  ∧ currentProblemIndex (handleJoinContest weekly 1767261690400 inLobby).1 = 0
  ∧ contestTimeLeft (handleJoinContest weekly 1767261690400 inLobby).1 = 7110%Z.
Proof.
  assert (Hearly : (1767261599000 - Contest.startTime weekly < 0)%Z)
    by (vm_compute; reflexivity).
  assert (HD : (Contest.duration weekly ≤ 2 ^ 31)%Z) by (vm_compute; discriminate).
  assert (Hlate : (Contest.duration weekly * 60000
                   < 1767268800001 - Contest.startTime weekly)%Z)
    by (vm_compute; reflexivity).
  assert (Hlate0 : (0 ≤ 1767268800001 - Contest.startTime weekly)%Z)
    by (vm_compute; discriminate).
  assert (Hin : (0 ≤ 1767261690400 - Contest.startTime weekly
                 ≤ Contest.duration weekly * 60000)%Z)
    by (split; vm_compute; discriminate).
  assert (Hoff : ((Contest.duration weekly * 60000
                   - (1767261690400 - Contest.startTime weekly)) mod 1000 ≠ 500)%Z)
    by (vm_compute; discriminate).
  destruct (join_countdown_floor_or_next weekly 1767261599000 inLobby)
    as (Hreject1 & _ & _).
  destruct (join_countdown_floor_or_next weekly 1767268800001 inLobby)
    as (_ & Hreject2 & _).
  destruct (join_countdown_floor_or_next weekly 1767261690400 inLobby)
    as (_ & _ & Haccept).
  destruct (Haccept HD Hin) as (_ & Hactive & _ & _ & Htabs & Hidx & _ & _ & Htime).
  split; [exact Hearly | split; [exact (Hreject1 Hearly) |]].
  split; [exact HD | split; [exact Hlate | split; [exact (Hreject2 HD Hlate Hlate0) |]]].
  split; [exact Hin | split; [exact Hactive | split; [exact Htabs |]]].
  split; [exact Hidx |].
  rewrite (Htime Hoff). vm_compute. reflexivity.
Defined.

(** C4 (as stated) fails: joining 90.4 seconds after the start of a
    120-minute contest sets the countdown to 7110 seconds, the nearest
    second to 7109.6, and not to the floor 7109. *)
Lemma join_countdown_not_floored :
  appState (handleJoinContest weekly 1767261690400 inLobby).1 = contest_active
  ∧ contestTimeLeft (handleJoinContest weekly 1767261690400 inLobby).1 = 7110%Z
  ∧ flooredCountdown weekly 1767261690400 = 7109%Z
  ∧ contestTimeLeft (handleJoinContest weekly 1767261690400 inLobby).1
    ≠ flooredCountdown weekly 1767261690400.
Proof.
  split; [vm_compute; reflexivity | split; [vm_compute; reflexivity |]].
  split; [vm_compute; reflexivity |].
  vm_compute. discriminate.
Qed.

(** At an exact half second the countdown goes either way: with 7199.5
    seconds left it is 7200, and with 5267.5 seconds left the double
    [(duration - diff) * 60] falls just below the half and the countdown
    is 5267. *)
Example join_countdown_at_half_seconds :
  contestTimeLeft (handleJoinContest weekly 1767261600500 inLobby).1 = 7200%Z
  ∧ flooredCountdown weekly 1767261600500 = 7199%Z
  ∧ contestTimeLeft (handleJoinContest weekly 1767263532500 inLobby).1 = 5267%Z
  ∧ flooredCountdown weekly 1767263532500 = 5267%Z.
Proof.
  split; [vm_compute; reflexivity | split; [vm_compute; reflexivity |]].
  split; vm_compute; reflexivity.
Qed.

(** The bound on the duration is needed.  In a contest of [3 * 10^11]
    minutes the doubles no longer tell the end from a millisecond later,
    and a join then is accepted; in a contest of [2^38 + 1] minutes a join
    499 milliseconds before the end gets a countdown of 1. *)
Example join_of_a_contest_beyond_the_bound :
  handleJoinContest (lasting 300000000000)
    (1767261600000 + 300000000000 * 60000 + 1) inLobby
  = (joinedAt (lasting 300000000000) 0, [])
  ∧ handleJoinContest (lasting 274877906945)
      (1767261600000 + 274877906945 * 60000 - 499) inLobby
    = (joinedAt (lasting 274877906945) 1, []).
Proof. split; vm_compute; reflexivity. Qed.

(** ** Focus-loss violations (C5) *)

Lemma submissions_app (o1 o2 : list Alert) :
  submissions (o1 ++ o2) = submissions o1 + submissions o2.
Proof. unfold submissions. by rewrite filter_app, length_app. Qed.

Lemma submissions_cons (a : Alert) (out : list Alert) :
  submissions (a :: out)
  = (if decide (a = ContestSubmitted) then 1 else 0) + submissions out.
Proof. unfold submissions. rewrite filter_cons. by case_decide. Qed.

Lemma handleFocusEvent_loss (ev : FocusEvent) (st : App) :
  focusLoss ev = true →
  handleFocusEvent ev st
  = if (3 <=? tabSwitches st + 1)%Z then
      (setTabSwitches (tabSwitches st + 1) (setAppState dashboard st),
       [match ev with visibilitychange _ => MaxTabSwitches | blur => MaxScreenOff end;
        ContestSubmitted])
    else
      (setTabSwitches (tabSwitches st + 1) st,
       [warningFor ev (3 - (tabSwitches st + 1))%Z]).
Proof.
  intros Hloss. destruct ev as [hidden|]; simpl in *.
  - rewrite Hloss. unfold handleVisibilityChange, countViolation, handleSubmitContest.
    by destruct (3 <=? tabSwitches st + 1)%Z.
  - unfold handleBlur, countViolation, handleSubmitContest.
    by destruct (3 <=? tabSwitches st + 1)%Z.
Qed.

Lemma handleFocusEvent_no_loss (ev : FocusEvent) (st : App) :
  focusLoss ev = false → handleFocusEvent ev st = (st, []).
Proof.
  intros Hno. destruct ev; simpl in *; [by rewrite Hno | done].
Qed.

Lemma focusLosses_cons (ev : FocusEvent) (evs : list FocusEvent) :
  focusLosses (ev :: evs) = (if focusLoss ev then 1 else 0) + focusLosses evs.
Proof.
  unfold focusLosses. rewrite filter_cons. case_decide as Hloss.
  - by rewrite Hloss.
  - by destruct (focusLoss ev).
Qed.

Lemma deliver_cons (ev : FocusEvent) (evs : list FocusEvent) (st : App) :
  deliver (ev :: evs) st
  = ((deliver evs (handleFocusEvent ev st).1).1,
     (handleFocusEvent ev st).2 ++ (deliver evs (handleFocusEvent ev st).1).2).
Proof.
  simpl. destruct (handleFocusEvent ev st) as [st1 out1]. simpl.
  by destruct (deliver evs st1).
Qed.

(** What one listener call does to the count, the submissions and the
    rest of the state. *)
Lemma handleFocusEvent_outcome (ev : FocusEvent) (st : App) :
  tabSwitches (handleFocusEvent ev st).1
    = (tabSwitches st + (if focusLoss ev then 1 else 0))%Z
  ∧ submissions (handleFocusEvent ev st).2
    = (if focusLoss ev && (3 <=? tabSwitches st + 1)%Z then 1 else 0)
  ∧ appState (handleFocusEvent ev st).1
    = (if focusLoss ev && (3 <=? tabSwitches st + 1)%Z then dashboard else appState st)
  ∧ contestProblems (handleFocusEvent ev st).1 = contestProblems st
  ∧ currentProblemIndex (handleFocusEvent ev st).1 = currentProblemIndex st.
Proof.
  destruct (focusLoss ev) eqn:Hloss.
  - rewrite (handleFocusEvent_loss ev st Hloss).
    destruct (3 <=? tabSwitches st + 1)%Z; simpl.
    + rewrite !submissions_cons. by destruct ev.
    + rewrite submissions_cons. by destruct ev.
  - rewrite (handleFocusEvent_no_loss ev st Hloss). simpl.
    repeat split; done || lia.
Qed.

(** The events that arrive together are all counted, and each focus loss
    that brings the count to 3 or more submits the contest. *)
Lemma deliver_outcome (evs : list FocusEvent) : ∀ st,
  tabSwitches (deliver evs st).1 = (tabSwitches st + Z.of_nat (focusLosses evs))%Z
  ∧ Z.of_nat (submissions (deliver evs st).2)
    = Z.max 0 (tabSwitches st + Z.of_nat (focusLosses evs) - Z.max 2 (tabSwitches st))
  ∧ appState (deliver evs st).1
    = (if decide (0 < submissions (deliver evs st).2) then dashboard else appState st)
  ∧ contestProblems (deliver evs st).1 = contestProblems st
  ∧ currentProblemIndex (deliver evs st).1 = currentProblemIndex st.
Proof.
  induction evs as [|ev evs IH]; intros st.
  - simpl. unfold focusLosses, submissions. simpl. repeat split; lia.
  - rewrite deliver_cons, focusLosses_cons. cbn [fst snd].
    destruct (handleFocusEvent_outcome ev st) as (Ht & Hs & Ha & Hp & Hi).
    destruct (IH (handleFocusEvent ev st).1) as (IHt & IHs & IHa & IHp & IHi).
    rewrite submissions_app, IHt, IHa, IHp, IHi, Ht, Ha, Hp, Hi.
    split; [destruct (focusLoss ev); lia|].
    split; [|split; [|done]].
    + rewrite Nat2Z.inj_add, IHs, Hs, Ht.
      destruct (focusLoss ev); simpl; [|lia].
      destruct (3 <=? tabSwitches st + 1)%Z eqn:H3;
        [apply Z.leb_le in H3 | apply Z.leb_gt in H3]; lia.
    + rewrite Hs.
      destruct (focusLoss ev && (3 <=? tabSwitches st + 1)%Z); simpl.
      * repeat case_decide; done || lia.
      * done.
Qed.








(** * Further properties of the progression update *)

Lemma take_app_take {A} (n : nat) (l k : list A) :
  take n (l ++ take n k) = take n (l ++ k).
Proof.
  rewrite !take_app, take_take. do 2 f_equal. lia.
Qed.

Lemma afterAssessments_cons u c cs :
  afterAssessments u (c :: cs) = afterAssessments (recordAssessment u c) cs.
Proof. reflexivity. Qed.

Lemma afterAssessments_snoc u cs c :
  afterAssessments u (cs ++ [c]) = recordAssessment (afterAssessments u cs) c.
Proof. unfold afterAssessments. by rewrite fold_left_app. Qed.

(** X1.  The score history keeps the five most recent percentages, newest
    first: after a run of assessments it is the first five entries of the
    run's percentages in reverse order followed by the earlier history. *)
Theorem lastScores_five_most_recent (u : UserStats.t) (cs : list Completed) :
  length (UserStats.lastScores u) ≤ 5 →
  UserStats.lastScores (afterAssessments u cs)
    = take 5 (rev (map (λ c, Num (percentage c)) cs) ++ UserStats.lastScores u)
  ∧ length (UserStats.lastScores (afterAssessments u cs)) ≤ 5.
Proof.
  intros Hlen.
  assert (Heq : UserStats.lastScores (afterAssessments u cs)
                = take 5 (rev (map (λ c, Num (percentage c)) cs)
                          ++ UserStats.lastScores u)).
  { revert u Hlen. induction cs as [|c cs IH]; intros u Hlen.
    - simpl. by rewrite take_ge.
    - rewrite afterAssessments_cons, IH.
      + unfold recordAssessment at 1.
        rewrite (proj2 (updateStats_scores _ _ _ _ _ _ _)). unfold JS.slice0.
        rewrite take_app_take. simpl. by rewrite <- app_assoc.
      + unfold recordAssessment.
        rewrite (proj2 (updateStats_scores _ _ _ _ _ _ _)). unfold JS.slice0.
        rewrite length_take. lia. }
  split; [exact Heq |]. rewrite Heq, length_take. lia.
Qed.

Lemma lastScores_five_most_recent_witness :
  length (UserStats.lastScores demoUser) ≤ 5
  ∧ UserStats.lastScores
      (afterAssessments demoUser
         [scored BEGINNER 10; scored BEGINNER 20; scored BEGINNER 30;
          scored BEGINNER 40; scored BEGINNER 50; scored BEGINNER 60])
    = [Num 60; Num 50; Num 40; Num 30; Num 20].
Proof.
  assert (H : length (UserStats.lastScores demoUser) ≤ 5) by (simpl; lia).
  split; [exact H |].
  rewrite (proj1 (lastScores_five_most_recent demoUser _ H)). reflexivity.
Defined.

Lemma afterAssessments_highest_NaN (u : UserStats.t) (cs : list Completed) :
  UserStats.highestScore u = NaN →
  UserStats.highestScore (afterAssessments u cs) = NaN.
Proof.
  revert u. induction cs as [|c cs IH]; intros u Hu; [exact Hu|].
  rewrite afterAssessments_cons. apply IH. unfold recordAssessment.
  rewrite (proj1 (updateStats_scores _ _ _ _ _ _ _)), Hu. reflexivity.
Qed.

(** X2.  [highestScore] is [Math.max] of its earlier value and the new
    percentage.  Over a run of assessments of at least one question each
    (their percentages are integers), from a numeric value, it is the
    maximum of that value and the run's percentages, so it does not
    decrease.  It is [NaN] after a submission exactly when it was [NaN]
    before or the percentage is [NaN], as for an empty batch; and from
    [NaN] it stays [NaN] over any further run on the account in memory. *)
Theorem highestScore_is_maximum_or_NaN (u : UserStats.t) (cs : list Completed) :
  (∀ h, UserStats.highestScore u = Num h →
     UserStats.highestScore (afterAssessments u cs)
       = Num (foldr Z.max h (map percentage cs))
     ∧ (h ≤ foldr Z.max h (map percentage cs))%Z
     ∧ Forall (λ p, (p ≤ foldr Z.max h (map percentage cs))%Z) (map percentage cs))
  ∧ (∀ d s n p w now,
       UserStats.highestScore (updateStats u d s n p w now) = NaN
       ↔ UserStats.highestScore u = NaN ∨ p = NaN)
  ∧ (UserStats.highestScore u = NaN →
     UserStats.highestScore (afterAssessments u cs) = NaN)
  ∧ (∀ d s n w now,
       UserStats.highestScore
         (afterAssessments (updateStats u d s n NaN w now) cs) = NaN).
Proof.
  split; [|split; [|split]].
  - intros h Hh. split; [|split].
    + revert u h Hh. induction cs as [|c cs IH] using rev_ind; intros u h Hh.
      * exact Hh.
      * rewrite afterAssessments_snoc. unfold recordAssessment.
        rewrite (proj1 (updateStats_scores _ _ _ _ _ _ _)), (IH u h Hh).
        rewrite map_app, foldr_app. simpl. f_equal.
        generalize (map percentage cs) as ps. intros ps.
        induction ps as [|q ps IHps]; simpl; lia.
    + induction (map percentage cs) as [|q ps IHps]; simpl; lia.
    + induction (map percentage cs) as [|q ps IHps]; simpl; constructor.
      * lia.
      * eapply Forall_impl; [exact IHps | simpl; lia].
  - intros d s n p w now.
    rewrite (proj1 (updateStats_scores _ _ _ _ _ _ _)).
    destruct (UserStats.highestScore u), p; simpl; split;
      (done || (intros [?|?]; done) || (by left) || (by right)).
  - apply afterAssessments_highest_NaN.
  - intros d s n w now. apply afterAssessments_highest_NaN.
    rewrite (proj1 (updateStats_scores _ _ _ _ _ _ _)).
    by destruct (UserStats.highestScore u).
Qed.

Lemma highestScore_is_maximum_or_NaN_witness :
  UserStats.highestScore demoUser = Num 0
  ∧ UserStats.highestScore
      (afterAssessments demoUser
         [scored BEGINNER 40; scored BEGINNER 90; scored BEGINNER 70]) = Num 90
  ∧ UserStats.highestScore
      (afterAssessments (updateStats demoUser BEGINNER ["DSA"] 0 NaN [] "day 1")
         [scored BEGINNER 40; scored BEGINNER 90]) = NaN.
Proof.
  destruct (highestScore_is_maximum_or_NaN demoUser
              [scored BEGINNER 40; scored BEGINNER 90; scored BEGINNER 70])
    as (Hmax & _).
  destruct (highestScore_is_maximum_or_NaN demoUser
              [scored BEGINNER 40; scored BEGINNER 90])
    as (_ & _ & _ & Hnan).
  split; [reflexivity | split].
  - rewrite (proj1 (Hmax 0%Z eq_refl)). reflexivity.
  - apply Hnan.
Defined.

Lemma updateStats_counters u d s n p w now :
  UserStats.beginnerAttempts (updateStats u d s n p w now)
    = UserStats.beginnerAttempts u + (if decide (d = BEGINNER) then 1 else 0)
  ∧ UserStats.advancedAttempts (updateStats u d s n p w now)
    = UserStats.advancedAttempts u + (if decide (d = ADVANCED) then 1 else 0)
  ∧ UserStats.expertAttempts (updateStats u d s n p w now)
    = UserStats.expertAttempts u + (if decide (d = EXPERT) then 1 else 0).
Proof. unfold updateStats. destruct (progressionLogic u d p) as [[? ?] ?]. done. Qed.

Lemma updateStats_attempts u d s n p w now :
  UserStats.attempts (updateStats u d s n p w now)
  = Some ({| TestAttempt.date := now; TestAttempt.subjects := s;
             TestAttempt.level := d; TestAttempt.score := p;
             TestAttempt.totalQuestions := n; TestAttempt.weakAreas := w;
             TestAttempt.attemptNumber := UserStats.totalTests u + 1 |}
          :: default [] (UserStats.attempts u)).
Proof. unfold updateStats. destruct (progressionLogic u d p) as [[? ?] ?]. done. Qed.

(** X3.  Each assessment is counted once, under the tier it was taken at:
    after a run of assessments every per-tier counter has grown by the
    number of assessments of the run taken at that tier, and the three
    counters together have grown as much as [totalTests]. *)
Theorem tier_counters_partition_tests (u : UserStats.t) (cs : list Completed) :
  UserStats.beginnerAttempts (afterAssessments u cs)
    = UserStats.beginnerAttempts u + length (filter (λ c, takenAt c = BEGINNER) cs)
  ∧ UserStats.advancedAttempts (afterAssessments u cs)
    = UserStats.advancedAttempts u + length (filter (λ c, takenAt c = ADVANCED) cs)
  ∧ UserStats.expertAttempts (afterAssessments u cs)
    = UserStats.expertAttempts u + length (filter (λ c, takenAt c = EXPERT) cs)
  ∧ UserStats.totalTests (afterAssessments u cs) = UserStats.totalTests u + length cs
  ∧ UserStats.beginnerAttempts (afterAssessments u cs)
    + UserStats.advancedAttempts (afterAssessments u cs)
    + UserStats.expertAttempts (afterAssessments u cs)
    = UserStats.beginnerAttempts u + UserStats.advancedAttempts u
      + UserStats.expertAttempts u + length cs.
Proof.
  revert u. induction cs as [|c cs IH]; intros u.
  - simpl. repeat split; lia.
  - rewrite afterAssessments_cons.
    destruct (IH (recordAssessment u c)) as (Hb & Ha & He & Ht & Hsum).
    unfold recordAssessment in Hb, Ha, He, Ht, Hsum.
    destruct (updateStats_counters u (takenAt c) (onSubjects c) (questionCount c)
                (Num (percentage c)) (foundWeakAreas c) (finishedAt c))
      as (Hb1 & Ha1 & He1).
    rewrite Hb1, Ha1, He1, updateStats_totalTests in *.
    fold (recordAssessment u c) in *.
    rewrite !filter_cons. simpl.
    destruct (takenAt c); simpl in *; repeat split; lia.
Qed.

(** X4.  The attempt history is complete and ordered newest first: after
    a run of assessments it holds one attempt per assessment, in reverse
    order and numbered on from the account's [totalTests], in front of the
    earlier attempts, which are unchanged. *)
Theorem attempts_newest_first (u : UserStats.t) (cs : list Completed) :
  default [] (UserStats.attempts (afterAssessments u cs))
  = rev (imap (λ i c, attemptOf (UserStats.totalTests u + i + 1) c) cs)
    ++ default [] (UserStats.attempts u).
Proof.
  revert u. induction cs as [|c cs IH]; intros u; [done|].
  rewrite afterAssessments_cons, IH. unfold recordAssessment at 2.
  rewrite updateStats_attempts. simpl.
  rewrite <- app_assoc. simpl. f_equal.
  - f_equal. apply imap_ext. intros i c' _. simpl.
    unfold recordAssessment. rewrite updateStats_totalTests. f_equal. lia.
  - f_equal. unfold attemptOf. f_equal. lia.
Qed.

Lemma updateStats_level u d s n p w now :
  UserStats.level (updateStats u d s n p w now) = (progressionLogic u d p).1.1.
Proof. by rewrite <- (updateStats_progression u d s n p w now). Qed.

Lemma updateStats_badges_eq u d s n p w now :
  UserStats.badges (updateStats u d s n p w now) = (progressionLogic u d p).1.2.
Proof. by rewrite <- (updateStats_progression u d s n p w now). Qed.

Lemma updateStats_placementReady u d s n p w now :
  UserStats.placementReady (updateStats u d s n p w now) = (progressionLogic u d p).2.
Proof. by rewrite <- (updateStats_progression u d s n p w now). Qed.

Lemma strict_eq_100 (p : number) : JS.strict_eq p (Num 100) = true → p = Num 100.
Proof. destruct p as [z|]; simpl; [|done]. by intros ->%Z.eqb_eq. Qed.

(** X5.  At the account's own tier the level never skips a tier and never
    goes back: the update leaves it or moves it to the next tier, and it
    moves only on a score of exactly 100 that also grants the tier's
    badge. *)
Theorem level_advances_one_tier_at_most
    (u : UserStats.t) (s : list string) (n : nat) (p : number)
    (w : list string) (now : string) :
  (UserStats.level (updateStats u (UserStats.level u) s n p w now) = UserStats.level u
   ∨ (tierRank (UserStats.level (updateStats u (UserStats.level u) s n p w now))
      = tierRank (UserStats.level u) + 1))
  ∧ (UserStats.level (updateStats u (UserStats.level u) s n p w now) ≠ UserStats.level u →
     p = Num 100
     ∧ (badgeFor (UserStats.level u) ∉ UserStats.badges u)
     ∧ UserStats.badges (updateStats u (UserStats.level u) s n p w now)
       = UserStats.badges u ++ [badgeFor (UserStats.level u)]).
Proof.
  rewrite updateStats_level, updateStats_badges_eq.
  unfold progressionLogic, JS.includes.
  destruct (JS.strict_eq p (Num 100)) eqn:Hp; [|split; [by left | done]].
  apply strict_eq_100 in Hp.
  destruct (UserStats.level u) eqn:Hlevel; simpl.
  - destruct (bool_decide ("Beginner Champion" ∈ UserStats.badges u)) eqn:Hb; simpl.
    + split; [by left | done].
    + apply bool_decide_eq_false in Hb. split; [by right | done].
  - destruct (bool_decide ("Advanced Master" ∈ UserStats.badges u)) eqn:Hb; simpl.
    + split; [by left | done].
    + apply bool_decide_eq_false in Hb. split; [by right | done].
  - destruct (bool_decide ("Expert Legend" ∈ UserStats.badges u)) eqn:Hb; simpl;
      (split; [by left | done]).
Qed.

Lemma level_advances_one_tier_at_most_witness :
  UserStats.level (updateStats demoUser (UserStats.level demoUser)
                     ["DSA"] 10 (Num 100) [] "day 1") ≠ UserStats.level demoUser
  ∧ UserStats.badges (updateStats demoUser (UserStats.level demoUser)
                        ["DSA"] 10 (Num 100) [] "day 1") = ["Beginner Champion"].
Proof.
  assert (Hne : UserStats.level (updateStats demoUser (UserStats.level demoUser)
                                   ["DSA"] 10 (Num 100) [] "day 1")
                ≠ UserStats.level demoUser) by (vm_compute; discriminate).
  split; [exact Hne |].
  destruct (level_advances_one_tier_at_most demoUser ["DSA"] 10 (Num 100) [] "day 1")
    as [_ Hmove].
  destruct (Hmove Hne) as (_ & _ & Hbadges). rewrite Hbadges. reflexivity.
Defined.

Lemma progressionLogic_badges u d p :
  (progressionLogic u d p).1.2 = UserStats.badges u
  ∨ ((badgeFor d ∉ UserStats.badges u)
     ∧ (progressionLogic u d p).1.2 = UserStats.badges u ++ [badgeFor d]).
Proof.
  unfold progressionLogic, JS.includes.
  destruct (JS.strict_eq p (Num 100)); [|by left].
  destruct d; simpl.
  - destruct (bool_decide ("Beginner Champion" ∈ UserStats.badges u)) eqn:Hb; simpl;
      [by left | right; by apply bool_decide_eq_false in Hb].
  - destruct (bool_decide ("Advanced Master" ∈ UserStats.badges u)) eqn:Hb; simpl;
      [by left | right; by apply bool_decide_eq_false in Hb].
  - destruct (bool_decide ("Expert Legend" ∈ UserStats.badges u)) eqn:Hb; simpl;
      [by left | right; by apply bool_decide_eq_false in Hb].
Qed.

Lemma updateStats_badges u d s n p w now :
  UserStats.badges (updateStats u d s n p w now) = UserStats.badges u
  ∨ ((badgeFor d ∉ UserStats.badges u)
     ∧ UserStats.badges (updateStats u d s n p w now)
       = UserStats.badges u ++ [badgeFor d]).
Proof.
  rewrite updateStats_badges_eq. apply progressionLogic_badges.
Qed.

(** X6.  Badges are never revoked and never duplicated: over any run of
    assessments the earlier badge list stays as a prefix of the new one,
    a list without duplicates stays so, and every badge added is one of
    the three tier badges. *)
Theorem badges_only_grow (u : UserStats.t) (cs : list Completed) :
  UserStats.badges u `prefix_of` UserStats.badges (afterAssessments u cs)
  ∧ (NoDup (UserStats.badges u) → NoDup (UserStats.badges (afterAssessments u cs)))
  ∧ (∀ b, b ∈ UserStats.badges (afterAssessments u cs) →
          b ∈ UserStats.badges u ∨ ∃ d, b = badgeFor d).
Proof.
  induction cs as [|c cs IH] using rev_ind.
  - simpl. split; [done | split; [done | by left]].
  - rewrite afterAssessments_snoc. destruct IH as (Hpre & Hnd & Hin).
    unfold recordAssessment.
    destruct (updateStats_badges (afterAssessments u cs) (takenAt c) (onSubjects c)
                (questionCount c) (Num (percentage c)) (foundWeakAreas c) (finishedAt c))
      as [-> | [Hfresh ->]].
    + done.
    + split; [|split].
      * etrans; [exact Hpre | by apply prefix_app_r].
      * intros H0. apply NoDup_app. split; [by apply Hnd|].
        split; [|apply NoDup_singleton].
        intros x Hx ->%list_elem_of_singleton. done.
      * intros b [Hb | ->%list_elem_of_singleton]%elem_of_app; [by apply Hin|].
        right. by eexists.
Qed.

Lemma badges_only_grow_witness :
  NoDup (UserStats.badges demoUser)
  ∧ NoDup (UserStats.badges
             (afterAssessments demoUser
                [scored BEGINNER 100; scored BEGINNER 100; scored ADVANCED 100])).
Proof.
  assert (H0 : NoDup (UserStats.badges demoUser)) by apply NoDup_nil_2.
  split; [exact H0 |].
  destruct (badges_only_grow demoUser
              [scored BEGINNER 100; scored BEGINNER 100; scored ADVANCED 100])
    as (_ & Hnd & _).
  exact (Hnd H0).
Defined.

(** X7.  The placement flag and the top badge go together: if an account
    is placement-ready exactly when it holds "Expert Legend", the same is
    true after the progression update for any score and tier, hence after
    any run of assessments; a fresh account is such an account. *)
Theorem placementReady_iff_expert_legend (u : UserStats.t) :
  readyIffLegend u →
  (∀ d s n p w now, readyIffLegend (updateStats u d s n p w now))
  ∧ (∀ cs, readyIffLegend (afterAssessments u cs)).
Proof.
  assert (Hstep : ∀ v, readyIffLegend v →
                       ∀ d s n p w now, readyIffLegend (updateStats v d s n p w now)).
  { intros v Hv d s n p w now. unfold readyIffLegend in *.
    rewrite updateStats_placementReady, updateStats_badges_eq.
    unfold progressionLogic, JS.includes.
    destruct (JS.strict_eq p (Num 100)); [|exact Hv].
    destruct d; simpl.
    - destruct (bool_decide ("Beginner Champion" ∈ UserStats.badges v)); simpl;
        [exact Hv|].
      rewrite elem_of_app, list_elem_of_singleton, Hv. split; [tauto|].
      intros [?|?]; [done | discriminate].
    - destruct (bool_decide ("Advanced Master" ∈ UserStats.badges v)); simpl;
        [exact Hv|].
      rewrite elem_of_app, list_elem_of_singleton, Hv. split; [tauto|].
      intros [?|?]; [done | discriminate].
    - destruct (bool_decide ("Expert Legend" ∈ UserStats.badges v)); simpl;
        [exact Hv|].
      rewrite elem_of_app, list_elem_of_singleton. tauto. }
  intros Hu. split; [by apply Hstep|].
  intros cs. induction cs as [|c cs IH] using rev_ind; [exact Hu|].
  rewrite afterAssessments_snoc. by apply Hstep.
Qed.

Lemma placementReady_iff_expert_legend_witness :
  readyIffLegend demoUser
  ∧ readyIffLegend
      (afterAssessments demoUser
         [scored BEGINNER 100; scored ADVANCED 100; scored EXPERT 100]).
Proof.
  assert (H0 : readyIffLegend demoUser).
  { split; [discriminate | intros H%elem_of_nil; done]. }
  split; [exact H0 |].
  apply (placementReady_iff_expert_legend demoUser H0).
Defined.

(** X8.  With fewer than 200 questions a score of 100% is a test without
    a mistake: the percentage that the tier rule compares with 100 equals
    100 exactly when every question was answered correctly. *)
Theorem perfect_percentage_iff_all_correct
    (qs : list Question.t) (answers : gmap string string) :
  0 < length qs < 200 →
  percentage_of (score_of qs answers) (length qs) = Num 100
  ↔ score_of qs answers = length qs.
Proof.
  intros [Hpos Hlt]. split.
  - intros Hpct. pose proof (score_of_le_length qs answers) as Hle.
    destruct (decide (score_of qs answers = length qs)) as [Heq|Hne]; [exact Heq|].
    destruct (percentage_of_imperfect (score_of qs answers) (length qs))
      as (a & Ha & Ha100); [lia|].
    rewrite Ha in Hpct. injection Hpct as ->. lia.
  - intros ->. by apply percentage_of_perfect.
Qed.

Lemma perfect_percentage_iff_all_correct_witness :
  0 < length (batch 10) < 200
  ∧ percentage_of (score_of (batch 10) (answeredRight (batch 10)))
                  (length (batch 10)) = Num 100.
Proof.
  assert (Hlen : 0 < length (batch 10) < 200) by (simpl; lia).
  split; [exact Hlen |].
  apply (perfect_percentage_iff_all_correct (batch 10) (answeredRight (batch 10)) Hlen).
  vm_compute. reflexivity.
Defined.

Lemma updateStats_soundScores u d s n p w now :
  withinPercent p → soundScores u → soundScores (updateStats u d s n p w now).
Proof.
  intros (pz & -> & Hpz) ((h & Hh & Hhr) & (a & Ha & Har) & Hlast & Hatt).
  unfold soundScores.
  rewrite updateStats_averageScore, updateStats_attempts.
  destruct (updateStats_scores u d s n (Num pz) w now) as [-> ->].
  rewrite Hh, Ha. split; [|split; [|split]].
  - simpl. eexists. split; [reflexivity | lia].
  - simpl. eexists. split; [reflexivity|].
    apply Math_round_div_between; [lia | nia].
  - unfold JS.slice0. apply Forall_take. constructor; [|exact Hlast].
    eexists. split; [reflexivity | lia].
  - cbn [default]. constructor; [|exact Hatt].
    cbn [TestAttempt.score]. eexists. split; [reflexivity | lia].
Qed.

(** X9.  With at least one question the statistics stay percentages: if
    every score of the account is a number between 0 and 100, a submitted
    assessment leaves an account of which this is still true, whatever the
    answers and whatever the content provider replies. *)
Theorem scores_stay_percentages
    (reply : GapReply) (now : string) (st : App) (u : UserStats.t) :
  user st = Some u →
  questions st ≠ [] →
  soundScores u →
  ∃ u', user (handleSubmitTest reply now st) = Some u' ∧ soundScores u'.
Proof.
  intros Hu Hq Hsound.
  destruct (handleSubmitTest_user reply now st u Hu) as [-> | [w ->]].
  - by exists u.
  - eexists. split; [reflexivity|].
    apply updateStats_soundScores; [|exact Hsound].
    apply percentage_of_range; [|apply score_of_le_length].
    destruct (questions st); [done | simpl; lia].
Qed.

Lemma demoUser_soundScores : soundScores demoUser.
Proof.
  split; [|split; [|split]].
  - exists 0%Z. split; [reflexivity | lia].
  - exists 0%Z. split; [reflexivity | lia].
  - constructor.
  - constructor.
Qed.

Lemma scores_stay_percentages_witness :
  user sevenOfTen = Some demoUser
  ∧ questions sevenOfTen ≠ []
  ∧ soundScores demoUser
  ∧ ∃ u', user (handleSubmitTest Unparseable "day 1" sevenOfTen) = Some u'
          ∧ soundScores u'.
Proof.
  assert (Hq : questions sevenOfTen ≠ []) by (vm_compute; discriminate).
  split; [reflexivity | split; [exact Hq | split; [exact demoUser_soundScores |]]].
  exact (scores_stay_percentages Unparseable "day 1" sevenOfTen demoUser
           eq_refl Hq demoUser_soundScores).
Defined.

(** * The assessment session *)

(** X10.  Selecting an option records it for the current question and for
    no other: the recorded answer of the current question is the last
    option selected, the answers under other question ids are as before,
    and neither the position in the test nor the countdown moves. *)
Theorem answer_select_last_wins (a b : string) (st : App) (q : Question.t) :
  questions st !! currentQuestionIndex st = Some q →
  answers (handleAnswerSelect a st) !! Question.id q = Some a
  ∧ answers (handleAnswerSelect b (handleAnswerSelect a st)) !! Question.id q = Some b
  ∧ (∀ k, k ≠ Question.id q →
          answers (handleAnswerSelect a st) !! k = answers st !! k)
  ∧ currentQuestionIndex (handleAnswerSelect a st) = currentQuestionIndex st
  ∧ timeLeft (handleAnswerSelect a st) = timeLeft st
  ∧ questions (handleAnswerSelect a st) = questions st.
Proof.
  intros Hq. unfold handleAnswerSelect. rewrite Hq. simpl. rewrite Hq. simpl.
  split; [apply lookup_insert_eq | split; [apply lookup_insert_eq | split]].
  - intros k Hk. by apply lookup_insert_ne.
  - done.
Qed.

Lemma answer_select_last_wins_witness :
  questions sevenOfTen !! currentQuestionIndex sevenOfTen = Some (sampleQuestion 10)
  ∧ answers sevenOfTen !! "q10" = None
  ∧ answers (handleAnswerSelect "C" (handleAnswerSelect "A" sevenOfTen)) !! "q10"
    = Some "C"
  ∧ answers (handleAnswerSelect "A" sevenOfTen) !! "q3" = Some "B".
Proof.
  assert (Hq : questions sevenOfTen !! currentQuestionIndex sevenOfTen
               = Some (sampleQuestion 10)) by reflexivity.
  destruct (answer_select_last_wins "A" "C" sevenOfTen (sampleQuestion 10) Hq)
    as (_ & Hlast & Hother & _).
  split; [exact Hq | split; [vm_compute; reflexivity | split; [exact Hlast |]]].
  rewrite Hother; [vm_compute; reflexivity | vm_compute; discriminate].
Defined.

Lemma score_of_insert_other (qs : list Question.t) (ans : gmap string string)
    (k v : string) :
  k ∉ map Question.id qs →
  length (filter (λ q, <[k := v]> ans !! Question.id q = Some (Question.correctAnswer q)) qs)
  = length (filter (λ q, ans !! Question.id q = Some (Question.correctAnswer q)) qs).
Proof.
  induction qs as [|x qs IH]; intros Hk; [done|].
  simpl in Hk. apply not_elem_of_cons in Hk as [Hne Hk].
  rewrite !filter_cons, lookup_insert_ne by done.
  destruct (decide _); simpl; by rewrite IH.
Qed.

(** X11.  When the question ids of the batch are distinct, selecting the
    correct option for a question raises the score by exactly one if the
    question was not yet answered correctly and leaves it as it is
    otherwise. *)
Theorem correct_selection_adds_one
    (qs : list Question.t) (ans : gmap string string) (i : nat) (q : Question.t) :
  NoDup (map Question.id qs) →
  qs !! i = Some q →
  score_of qs (<[Question.id q := Question.correctAnswer q]> ans)
  = score_of qs ans + (if isCorrectAnswer ans q then 0 else 1).
Proof.
  rewrite !score_of_count. revert i.
  induction qs as [|x qs IH]; intros i Hnd Hi; [done|].
  simpl in Hnd. apply NoDup_cons in Hnd as [Hx Hnd].
  destruct i as [|i]; simpl in Hi.
  - injection Hi as ->.
    rewrite !filter_cons, lookup_insert_eq, decide_True by done.
    simpl. rewrite score_of_insert_other by done.
    unfold isCorrectAnswer. case_bool_decide as Hc.
    + rewrite decide_True by done. simpl. lia.
    + rewrite decide_False by done. lia.
  - assert (Hne : Question.id q ≠ Question.id x).
    { intros Heq. apply Hx. rewrite <- Heq.
      apply list_elem_of_fmap_2. by eapply list_elem_of_lookup_2. }
    rewrite !filter_cons, lookup_insert_ne by done.
    destruct (decide _); simpl; rewrite (IH i) by done; lia.
Qed.

Lemma correct_selection_adds_one_witness :
  NoDup (map Question.id (batch 4))
  ∧ batch 4 !! 3 = Some (sampleQuestion 4)
  ∧ score_of (batch 4) (answeredRight (take 3 (batch 4))) = 3
  ∧ score_of (batch 4)
      (<[Question.id (sampleQuestion 4) := Question.correctAnswer (sampleQuestion 4)]>
         (answeredRight (take 3 (batch 4)))) = 4.
Proof.
  assert (Hnd : NoDup (map Question.id (batch 4))).
  { apply (bool_decide_unpack _). vm_compute. exact I. }
  assert (Hq : batch 4 !! 3 = Some (sampleQuestion 4)) by reflexivity.
  split; [exact Hnd | split; [exact Hq | split; [vm_compute; reflexivity |]]].
  rewrite (correct_selection_adds_one (batch 4) _ 3 (sampleQuestion 4) Hnd Hq).
  vm_compute. reflexivity.
Defined.

Lemma setQuestionIndex_eta (st : App) :
  setQuestionIndex (currentQuestionIndex st) (timeLeft st) st = st.
Proof. by destruct st. Qed.

Lemma tick_running reply now st i (t : Z) :
  appState st = testing → (1 < t)%Z →
  tick reply now (setQuestionIndex i t st) = setQuestionIndex i (t - 1) st.
Proof.
  intros Hon Ht. unfold tick, timerEffect. simpl.
  rewrite Hon, bool_decide_eq_true_2 by done.
  rewrite (proj2 (Z.ltb_lt 0 t)) by lia. simpl.
  by rewrite (proj2 (Z.eqb_neq (t - 1) 0)) by lia.
Qed.

Lemma tick_expire_next reply now st i :
  appState st = testing → i + 1 < length (questions st) →
  tick reply now (setQuestionIndex i 1 st) = setQuestionIndex (i + 1) 120 st.
Proof.
  intros Hon Hi. unfold tick, timerEffect, handleNextQuestion. simpl.
  rewrite Hon. simpl. by rewrite bool_decide_eq_true_2.
Qed.

Lemma tick_expire_last reply now st i :
  appState st = testing → ¬ i + 1 < length (questions st) →
  tick reply now (setQuestionIndex i 1 st)
  = handleSubmitTest reply now (setQuestionIndex i 0 st).
Proof.
  intros Hon Hi. unfold tick, timerEffect, handleNextQuestion. simpl.
  rewrite Hon. simpl. by rewrite bool_decide_eq_false_2.
Qed.

Lemma ticks_S (k : nat) reply now st :
  ticks (S k) reply now st = tick reply now (ticks k reply now st).
Proof. reflexivity. Qed.

Lemma ticks_running reply now st (k : nat) :
  appState st = testing →
  k < 120 * length (questions st) →
  ticks k reply now (setQuestionIndex 0 120 st)
  = setQuestionIndex (k / 120) (120 - Z.of_nat (k mod 120)) st.
Proof.
  intros Hon. induction k as [|k IH]; intros Hk; [done|].
  rewrite ticks_S, IH by lia.
  pose proof (Nat.div_mod_eq k 120) as Hk120.
  pose proof (Nat.mod_upper_bound k 120 ltac:(lia)) as Hmod.
  pose proof (Nat.div_mod_eq (S k) 120) as HSk120.
  pose proof (Nat.mod_upper_bound (S k) 120 ltac:(lia)) as HSmod.
  destruct (decide (k mod 120 = 119)) as [Hlast | Hmid].
  - replace (120 - Z.of_nat (k mod 120))%Z with 1%Z by lia.
    rewrite tick_expire_next by (done || lia).
    f_equal; lia.
  - rewrite tick_running by (done || lia).
    f_equal; lia.
Qed.

Lemma ticks_from_start reply now st (k : nat) :
  appState st = testing → currentQuestionIndex st = 0 → timeLeft st = 120%Z →
  k < 120 * length (questions st) →
  ticks k reply now st = setQuestionIndex (k / 120) (120 - Z.of_nat (k mod 120)) st.
Proof.
  intros Hon Hidx Htime Hk. rewrite <- (ticks_running reply now) by done.
  f_equal. rewrite <- Hidx, <- Htime. symmetry. apply setQuestionIndex_eta.
Qed.

Lemma score_of_unanswered (qs : list Question.t) : score_of qs ∅ = 0.
Proof.
  rewrite score_of_count. induction qs as [|q qs IH]; [done|].
  rewrite filter_cons, lookup_empty. by rewrite decide_False.
Qed.

(** X12.  A test left alone runs out by itself: starting at the first
    question with 120 seconds, every question is shown for 120 ticks of
    the timer (after [k] ticks the test is at question [k / 120] with
    [120 - k mod 120] seconds left and the answers untouched), and the tick
    that ends the last question submits the test with the answers recorded
    so far; with no answer recorded the result is a score of 0 out of the
    number of questions. *)
Theorem unattended_test_times_out (reply : GapReply) (now : string) (st : App) :
  appState st = testing →
  currentQuestionIndex st = 0 →
  timeLeft st = 120%Z →
  questions st ≠ [] →
  (∀ k, k < 120 * length (questions st) →
     appState (ticks k reply now st) = testing
     ∧ currentQuestionIndex (ticks k reply now st) = k / 120
     ∧ timeLeft (ticks k reply now st) = (120 - Z.of_nat (k mod 120))%Z
     ∧ answers (ticks k reply now st) = answers st)
  ∧ ticks (120 * length (questions st)) reply now st
    = handleSubmitTest reply now (setQuestionIndex (length (questions st) - 1) 0 st)
  ∧ appState (ticks (120 * length (questions st)) reply now st) = results_page
  ∧ (answers st = ∅ →
     ∃ r, results (ticks (120 * length (questions st)) reply now st) = Some r
          ∧ AssessmentResult.score r = 0
          ∧ AssessmentResult.total r = length (questions st)).
Proof.
  intros Hon Hidx Htime Hqs.
  assert (Hn : 0 < length (questions st)) by (destruct (questions st); [done | simpl; lia]).
  assert (Hend : ticks (120 * length (questions st)) reply now st
                 = handleSubmitTest reply now
                     (setQuestionIndex (length (questions st) - 1) 0 st)).
  { replace (120 * length (questions st)) with (S (120 * length (questions st) - 1)) by lia.
    rewrite ticks_S, ticks_from_start by (done || lia).
    pose proof (Nat.div_mod_eq (120 * length (questions st) - 1) 120) as Hdm.
    pose proof (Nat.mod_upper_bound (120 * length (questions st) - 1) 120 ltac:(lia)).
    assert (Hdiv : (120 * length (questions st) - 1) / 120 = length (questions st) - 1)
      by lia.
    assert (Hmod : (120 * length (questions st) - 1) mod 120 = 119) by lia.
    clear Hdm.
    rewrite Hdiv, Hmod.
    replace (120 - Z.of_nat 119)%Z with 1%Z by lia.
    apply tick_expire_last; [done | lia]. }
  split; [|split; [exact Hend | split]].
  - intros k Hk. rewrite ticks_from_start by done. done.
  - rewrite Hend.
    destruct (analyzeGaps
                (initialResults
                   (questions (setQuestionIndex (length (questions st) - 1) 0 st))
                   (answers (setQuestionIndex (length (questions st) - 1) 0 st)))
                reply) as [a|] eqn:Ha.
    + unfold handleSubmitTest. rewrite Ha. by destruct (user _).
    + by destruct (handleSubmitTest_rejected reply now _ Ha) as (_ & _ & _ & -> & _).
  - intros Hans. rewrite Hend.
    destruct (handleSubmitTest_results reply now
                (setQuestionIndex (length (questions st) - 1) 0 st))
      as (r & Hr & Hs & Ht & _).
    exists r. split; [exact Hr|]. simpl in Hs, Ht.
    rewrite Hans, score_of_unanswered in Hs. done.
Qed.

Lemma unattended_test_times_out_witness :
  appState threeBlank = testing
  ∧ currentQuestionIndex threeBlank = 0
  ∧ timeLeft threeBlank = 120%Z
  ∧ questions threeBlank ≠ []
  ∧ currentQuestionIndex (ticks 250 Unparseable "day 1" threeBlank) = 2
  ∧ timeLeft (ticks 250 Unparseable "day 1" threeBlank) = 110%Z
  ∧ appState (ticks (120 * length (questions threeBlank)) Unparseable "day 1" threeBlank)
    = results_page.
Proof.
  assert (Hq : questions threeBlank ≠ []) by (vm_compute; discriminate).
  destruct (unattended_test_times_out Unparseable "day 1" threeBlank
              eq_refl eq_refl eq_refl Hq) as (Hrun & _ & Hend & _).
  destruct (Hrun 250 ltac:(vm_compute; lia)) as (_ & Hi & Ht & _).
  split; [reflexivity | split; [reflexivity | split; [reflexivity |]]].
  split; [exact Hq | split; [| split; [| exact Hend]]].
  - rewrite Hi. reflexivity.
  - rewrite Ht. reflexivity.
Defined.

Lemma ticks_countdown reply now st i (t k : nat) :
  appState st = testing → k < t →
  ticks k reply now (setQuestionIndex i (Z.of_nat t) st)
  = setQuestionIndex i (Z.of_nat t - Z.of_nat k) st.
Proof.
  intros Hon. induction k as [|k IH]; intros Hk.
  - unfold ticks. simpl. f_equal. lia.
  - rewrite ticks_S, IH by lia. rewrite tick_running by (done || lia).
    f_equal. lia.
Qed.

Lemma updateStats_NaN u d s n w now :
  UserStats.averageScore (updateStats u d s n NaN w now) = NaN
  ∧ UserStats.highestScore (updateStats u d s n NaN w now) = NaN
  ∧ UserStats.badges (updateStats u d s n NaN w now) = UserStats.badges u
  ∧ UserStats.level (updateStats u d s n NaN w now) = UserStats.level u.
Proof.
  rewrite updateStats_averageScore, (proj1 (updateStats_scores _ _ _ _ _ _ _)).
  split; [by destruct (JS.mul _ _) | split; [by destruct (UserStats.highestScore u) |]].
  done.
Qed.

Lemma empty_test_runs_out reply now st1 u :
  user st1 = Some u → appState st1 = testing → questions st1 = [] →
  currentQuestionIndex st1 = 0 → timeLeft st1 = 120%Z →
  (∀ k, k < 120 → appState (ticks k reply now st1) = testing)
  ∧ appState (ticks 120 reply now st1) = results_page
  ∧ ∃ u', user (ticks 120 reply now st1) = Some u'
        ∧ UserStats.totalTests u' = UserStats.totalTests u + 1
        ∧ UserStats.averageScore u' = NaN
        ∧ UserStats.highestScore u' = NaN
        ∧ UserStats.badges u' = UserStats.badges u
        ∧ UserStats.level u' = UserStats.level u.
Proof.
  intros Hu1 Hon Hq Hidx Htime.
  assert (Hst1 : setQuestionIndex 0 (Z.of_nat 120) st1 = st1).
  { rewrite <- Hidx at 1. change (Z.of_nat 120) with 120%Z. rewrite <- Htime.
    apply setQuestionIndex_eta. }
  assert (Hend : ticks 120 reply now st1
                 = handleSubmitTest reply now (setQuestionIndex 0 0 st1)).
  { rewrite ticks_S.
    replace (ticks 119 reply now st1)
      with (ticks 119 reply now (setQuestionIndex 0 (Z.of_nat 120) st1))
      by (by rewrite Hst1).
    rewrite (ticks_countdown reply now st1 0 120 119 Hon) by lia.
    change (Z.of_nat 120 - Z.of_nat 119)%Z with 1%Z.
    apply tick_expire_last; [exact Hon | rewrite Hq; simpl; lia]. }
  assert (Hsub : ∃ a, analyzeGaps
                        (initialResults (questions (setQuestionIndex 0 0 st1))
                                        (answers (setQuestionIndex 0 0 st1))) reply
                      = Some a).
  { destruct (analyzeGaps_perfect
                (initialResults (questions (setQuestionIndex 0 0 st1))
                                (answers (setQuestionIndex 0 0 st1))) reply)
      as (a & Ha & _); [|by exists a].
    cbn [AssessmentResult.score AssessmentResult.total initialResults
         questions answers setQuestionIndex].
    by rewrite Hq. }
  destruct Hsub as [a Ha].
  destruct (handleSubmitTest_analyzed reply now (setQuestionIndex 0 0 st1) a u Ha Hu1)
    as (Huser & _ & Happ & _).
  split; [|split].
  - intros k Hk.
    replace (ticks k reply now st1)
      with (ticks k reply now (setQuestionIndex 0 (Z.of_nat 120) st1))
      by (by rewrite Hst1).
    rewrite (ticks_countdown reply now st1 0 120 k Hon Hk). exact Hon.
  - rewrite Hend. exact Happ.
  - rewrite Hend, Huser. eexists. split; [reflexivity|].
    split; [apply updateStats_totalTests|].
    cbn [questions answers setQuestionIndex]. rewrite Hq.
    cbn [length score_of fold_left percentage_of].
    apply updateStats_NaN.
Qed.

(** X13.  A reply to the question request that does not parse starts a
    test without questions.  Nothing is shown to answer, the countdown of
    120 seconds runs once, and its last tick submits the empty test: the
    test is counted and the account's average and highest score become
    [NaN], while badges and level stay. *)
Theorem unparseable_questions_start_empty_test
    (reply : GapReply) (now : string) (st : App) (u : UserStats.t) :
  user st = Some u →
  appState (handleStartTest true QuestionsUnparseable st).1 = testing
  ∧ questions (handleStartTest true QuestionsUnparseable st).1 = []
  ∧ (∀ k, k < 120 →
       appState (ticks k reply now (handleStartTest true QuestionsUnparseable st).1)
       = testing)
  ∧ appState (ticks 120 reply now (handleStartTest true QuestionsUnparseable st).1)
    = results_page
  ∧ ∃ u', user (ticks 120 reply now (handleStartTest true QuestionsUnparseable st).1)
          = Some u'
        ∧ UserStats.totalTests u' = UserStats.totalTests u + 1
        ∧ UserStats.averageScore u' = NaN
        ∧ UserStats.highestScore u' = NaN
        ∧ UserStats.badges u' = UserStats.badges u
        ∧ UserStats.level u' = UserStats.level u.
Proof.
  intros Hu.
  split; [reflexivity | split; [reflexivity |]].
  exact (empty_test_runs_out reply now
           (handleStartTest true QuestionsUnparseable st).1 u Hu
           eq_refl eq_refl eq_refl eq_refl).
Qed.

Lemma unparseable_questions_start_empty_test_witness :
  user inLobby = Some demoUser
  ∧ ∃ u', user (ticks 120 RequestRejected "day 1"
                  (handleStartTest true QuestionsUnparseable inLobby).1) = Some u'
        ∧ UserStats.totalTests u' = 1
        ∧ UserStats.averageScore u' = NaN.
Proof.
  split; [reflexivity |].
  destruct (unparseable_questions_start_empty_test RequestRejected "day 1" inLobby
              demoUser eq_refl)
    as (_ & _ & _ & _ & u' & Hu' & Htot & Havg & _).
  exists u'. split; [exact Hu' | split; [exact Htot | exact Havg]].
Defined.

(** * The contest session *)

Lemma dispatch_outcome (evs : list FocusEvent) (st : App) :
  (submissions (dispatch evs st).2 = 0 ∧ appState (dispatch evs st).1 = appState st)
  ∨ (0 < submissions (dispatch evs st).2 ≤ focusLosses evs
     ∧ appState st = contest_active
     ∧ appState (dispatch evs st).1 = dashboard).
Proof.
  unfold dispatch.
  destruct (decide (appState st = contest_active)) as [Hon|Hoff]; [|by left].
  destruct (deliver_outcome evs st) as (_ & Hs & Ha & _).
  destruct (decide (0 < submissions (deliver evs st).2)) as [Hsub|Hnone].
  - right. split; [lia | done].
  - left. split; [lia | done].
Qed.

Lemma contestTick_outcome (st : App) :
  (contestTick st).2 = []
  ∧ appState (contestTick st).1 = appState st
  ∧ (appState st = contest_active → (0 < contestTimeLeft st)%Z →
     contestTick st = (setContestTimeLeft (contestTimeLeft st - 1) st, [])
     ∧ (1 < contestTimeLeft st)%Z)
  ∨ (contestTick st).2 = [ContestSubmitted]
    ∧ appState st = contest_active
    ∧ contestTimeLeft st = 1%Z
    ∧ (contestTick st).1 = setAppState dashboard (setContestTimeLeft 0 st).
Proof.
  unfold contestTick, contestTimerEffect, handleSubmitContest.
  destruct (decide (appState st = contest_active)) as [Hon|Hoff].
  - rewrite (bool_decide_eq_true_2 _ Hon). simpl.
    destruct (0 <? contestTimeLeft st)%Z eqn:Hpos.
    + apply Z.ltb_lt in Hpos. simpl. rewrite (bool_decide_eq_true_2 _ Hon). simpl.
      destruct (contestTimeLeft st - 1 =? 0)%Z eqn:Hz.
      * apply Z.eqb_eq in Hz. right.
        replace (contestTimeLeft st - 1)%Z with 0%Z by lia.
        repeat split; done || lia.
      * apply Z.eqb_neq in Hz. left. repeat split; done || lia.
    + apply Z.ltb_ge in Hpos. left. repeat split; done || lia.
  - rewrite (bool_decide_eq_false_2 _ Hoff). simpl. left.
    repeat split; done.
Qed.

(** A step that submits leaves the dashboard; only a group of focus
    events submits more than once, and then no more often than it holds
    focus losses. *)
Lemma contestStep_outcome (ev : ContestEvent) (st : App) :
  (submissions (contestStep ev st).2 = 0
   ∧ appState (contestStep ev st).1 = appState st)
  ∨ (0 < submissions (contestStep ev st).2
     ∧ (1 < submissions (contestStep ev st).2 →
        ∃ fs, ev = Focus fs ∧ 2 ≤ focusLosses fs)
     ∧ appState st = contest_active
     ∧ appState (contestStep ev st).1 = dashboard).
Proof.
  destruct ev as [fs| | | |]; simpl.
  - destruct (dispatch_outcome fs st) as [H0 | ([Hpos Hle] & Hon & Hdash)]; [by left|].
    right. split; [exact Hpos | split; [|done]].
    intros Hmore. exists fs. split; [done | lia].
  - destruct (contestTick_outcome st) as [(Hout & Happ & _) | (Hout & Hon & _ & Hst)].
    + left. by rewrite Hout.
    + right. rewrite Hout, Hst. unfold submissions. simpl.
      split; [lia | split; [lia | done]].
  - unfold contestViewShown.
    destruct (decide (appState st = contest_active)) as [Hon|Hoff].
    + rewrite (bool_decide_eq_true_2 _ Hon). simpl.
      destruct (bool_decide (is_Some (activeContest st))); [|by left].
      right. unfold submissions. simpl. split; [lia | split; [lia | done]].
    + rewrite (bool_decide_eq_false_2 _ Hoff). by left.
  - left. destruct (contestViewShown st); [|done]. unfold previousProblem.
    by destruct (bool_decide _).
  - left. destruct (contestViewShown st); [|done]. unfold nextProblem.
    by destruct (bool_decide _).
Qed.

Lemma contestRun_off (evs : list ContestEvent) (st : App) :
  appState st ≠ contest_active → contestRun evs st = (st, []).
Proof.
  intros Hoff. induction evs as [|ev evs IH]; [done|]. simpl.
  assert (Hstep : contestStep ev st = (st, [])).
  { destruct ev as [f| | | |]; simpl.
    - unfold dispatch. by rewrite decide_False.
    - unfold contestTick. by rewrite (bool_decide_eq_false_2 _ Hoff).
    - unfold contestViewShown. by rewrite (bool_decide_eq_false_2 _ Hoff).
    - unfold contestViewShown. by rewrite (bool_decide_eq_false_2 _ Hoff).
    - unfold contestViewShown. by rewrite (bool_decide_eq_false_2 _ Hoff). }
  by rewrite Hstep, IH.
Qed.

Lemma contestRun_cons ev evs st :
  contestRun (ev :: evs) st
  = ((contestRun evs (contestStep ev st).1).1,
     (contestStep ev st).2 ++ (contestRun evs (contestStep ev st).1).2).
Proof.
  simpl. destruct (contestStep ev st) as [st1 out1]. simpl.
  by destruct (contestRun evs st1).
Qed.

(** X14.  A contest session is submitted more than once only by focus
    events that arrive together.  Over any sequence of contest events
    (groups of focus events, timer seconds, clicks, a render after each):
    if there is a submission, the session was active and the page ends on
    the dashboard; if there is none, [appState] is what it was; and if
    there is more than one, the sequence holds a group of focus events
    with two or more focus losses in it.  So there is at most one
    submission when no two focus losses arrive between two renders. *)
Theorem contest_resubmitted_only_by_joint_focus_losses
    (evs : list ContestEvent) (st : App) :
  (0 < submissions (contestRun evs st).2 →
     appState st = contest_active ∧ appState (contestRun evs st).1 = dashboard)
  ∧ (submissions (contestRun evs st).2 = 0 →
     appState (contestRun evs st).1 = appState st)
  ∧ (1 < submissions (contestRun evs st).2 →
     ∃ fs, Focus fs ∈ evs ∧ 2 ≤ focusLosses fs)
  ∧ (Forall (λ ev, ∀ fs, ev = Focus fs → focusLosses fs ≤ 1) evs →
     submissions (contestRun evs st).2 ≤ 1).
Proof.
  assert (Hmain : ∀ evs st,
    (0 < submissions (contestRun evs st).2 →
       appState st = contest_active ∧ appState (contestRun evs st).1 = dashboard)
    ∧ (submissions (contestRun evs st).2 = 0 →
       appState (contestRun evs st).1 = appState st)
    ∧ (1 < submissions (contestRun evs st).2 →
       ∃ fs, Focus fs ∈ evs ∧ 2 ≤ focusLosses fs)).
  { clear evs st. intros evs. induction evs as [|ev evs IH]; intros st.
    - simpl. unfold submissions. simpl. repeat split; (done || lia).
    - rewrite contestRun_cons. cbn [fst snd]. rewrite submissions_app.
      destruct (contestStep_outcome ev st)
        as [[H0 Hsame] | (Hpos & Hmore & Hon & Hdash)].
      + destruct (IH (contestStep ev st).1) as (Hone & Hzero & Htwo).
        rewrite H0, Hsame in *. simpl. split; [exact Hone | split; [exact Hzero|]].
        intros H2. destruct (Htwo H2) as (fs & Hin & Hfs).
        exists fs. split; [by apply list_elem_of_further | exact Hfs].
      + rewrite contestRun_off by (rewrite Hdash; done).
        unfold submissions at 2 4 6. simpl. rewrite !Nat.add_0_r.
        split; [done | split; [lia|]].
        intros H2. destruct (Hmore H2) as (fs & -> & Hfs).
        exists fs. split; [apply list_elem_of_here | exact Hfs]. }
  destruct (Hmain evs st) as (H1 & H0 & H2).
  split; [exact H1 | split; [exact H0 | split; [exact H2|]]].
  intros Hall.
  destruct (decide (1 < submissions (contestRun evs st).2)) as [Hmore|Hle]; [|lia].
  destruct (H2 Hmore) as (fs & Hin & Hfs).
  rewrite Forall_forall in Hall. specialize (Hall _ Hin fs eq_refl). lia.
Qed.

Lemma contest_resubmitted_only_by_joint_focus_losses_witness :
  submissions
    (contestRun [Focus [blur]; Second; Focus [blur]; NextClick;
                 Focus [visibilitychange true; blur]; SubmitClick; Second;
                 Focus [blur]] joined).2 = 2
  ∧ appState
      (contestRun [Focus [blur]; Second; Focus [blur]; NextClick;
                   Focus [visibilitychange true; blur]; SubmitClick; Second;
                   Focus [blur]] joined).1 = dashboard
  ∧ submissions
      (contestRun [Focus [blur]; Second; Focus [blur]; NextClick; Focus [blur];
                   SubmitClick; Second; Focus [blur]] joined).2 = 1.
Proof.
  assert (H2 : submissions
                 (contestRun [Focus [blur]; Second; Focus [blur]; NextClick;
                              Focus [visibilitychange true; blur]; SubmitClick; Second;
                              Focus [blur]] joined).2 = 2)
    by (vm_compute; reflexivity).
  split; [exact H2 | split].
  - destruct (contest_resubmitted_only_by_joint_focus_losses
                [Focus [blur]; Second; Focus [blur]; NextClick;
                 Focus [visibilitychange true; blur]; SubmitClick; Second;
                 Focus [blur]] joined) as (Hone & _).
    apply Hone. rewrite H2. lia.
  - vm_compute. reflexivity.
Defined.

Lemma contestRun_seconds (k : nat) : ∀ st (T : nat),
  appState st = contest_active → contestTimeLeft st = Z.of_nat T → k < T →
  contestRun (repeat Second k) st
  = (setContestTimeLeft (Z.of_nat T - Z.of_nat k) st, []).
Proof.
  induction k as [|k IH]; intros st T Hon HT Hk.
  - simpl. f_equal. replace (Z.of_nat T - Z.of_nat 0)%Z with (contestTimeLeft st) by lia.
    by destruct st.
  - simpl repeat. rewrite contestRun_cons. simpl contestStep.
    destruct (contestTick_outcome st) as [(_ & _ & Hrun) | (_ & _ & Hone & _)]; [|lia].
    destruct (Hrun Hon ltac:(lia)) as [-> _]. simpl fst. simpl snd.
    rewrite (IH _ (T - 1)); [| done | simpl; lia | lia].
    cbn [fst snd app]. f_equal.
    change (setContestTimeLeft (Z.of_nat (T - 1) - Z.of_nat k)
              (setContestTimeLeft (contestTimeLeft st - 1) st))
      with (setContestTimeLeft (Z.of_nat (T - 1) - Z.of_nat k) st).
    f_equal. lia.
Qed.

Lemma contestRun_app (evs1 evs2 : list ContestEvent) (s : App) :
  contestRun (evs1 ++ evs2) s
  = ((contestRun evs2 (contestRun evs1 s).1).1,
     (contestRun evs1 s).2 ++ (contestRun evs2 (contestRun evs1 s).1).2).
Proof.
  revert s. induction evs1 as [|e evs1 IH1]; intros s.
  - simpl. by destruct (contestRun evs2 s).
  - rewrite <- app_comm_cons, !contestRun_cons, IH1. simpl.
    by rewrite app_assoc.
Qed.

(** X15.  The contest countdown ends the contest by itself, once and on
    time: from an active session with [T > 0] seconds left, [k < T] ticks
    leave the session active with [T - k] seconds and nothing submitted,
    and the [T]-th tick submits the contest and leaves the page on the
    dashboard. *)
Theorem contest_countdown_submits_on_time (st : App) (T : nat) :
  appState st = contest_active →
  contestTimeLeft st = Z.of_nat T →
  0 < T →
  (∀ k, k < T →
     contestRun (repeat Second k) st
     = (setContestTimeLeft (Z.of_nat T - Z.of_nat k) st, []))
  ∧ contestRun (repeat Second T) st
    = (setAppState dashboard (setContestTimeLeft 0 st), [ContestSubmitted]).
Proof.
  intros Hon HT Hpos. split.
  - intros k Hk. by apply contestRun_seconds.
  - assert (Hlast : contestRun [Second] (setContestTimeLeft 1 st)
                    = (setAppState dashboard (setContestTimeLeft 0 st),
                       [ContestSubmitted])).
    { unfold contestRun, contestStep, contestTick, contestTimerEffect,
        handleSubmitContest. simpl. rewrite Hon. simpl. done. }
    replace T with ((T - 1) + 1) at 1 by lia.
    rewrite repeat_app, contestRun_app.
    rewrite (contestRun_seconds (T - 1) st T) by (done || lia).
    cbn [fst snd repeat].
    replace (Z.of_nat T - Z.of_nat (T - 1))%Z with 1%Z by lia.
    by rewrite Hlast.
Qed.

Lemma contest_countdown_submits_on_time_witness :
  appState joinedLate = contest_active
  ∧ contestTimeLeft joinedLate = Z.of_nat 10
  ∧ 0 < 10
  ∧ contestRun (repeat Second 9) joinedLate = (setContestTimeLeft 1 joinedLate, [])
  ∧ (contestRun (repeat Second 10) joinedLate).2 = [ContestSubmitted].
Proof.
  assert (HT : contestTimeLeft joinedLate = Z.of_nat 10) by (vm_compute; reflexivity).
  destruct (contest_countdown_submits_on_time joinedLate 10 eq_refl HT ltac:(lia))
    as [Hrun Hend].
  split; [reflexivity | split; [exact HT | split; [lia | split]]].
  - rewrite (Hrun 9 ltac:(lia)). reflexivity.
  - by rewrite Hend.
Defined.

(** X16.  A join in the last half second of a contest (of up to [2^31]
    minutes) is accepted and over at once: the countdown rounds to 0, the
    timer effect submits the contest, and the page is back on the
    dashboard with the session's counters reset. *)
Theorem join_in_last_half_second (contest : Contest.t) (now : Z) (st : App) :
  (Contest.duration contest ≤ 2 ^ 31)%Z →
  (0 ≤ now - Contest.startTime contest)%Z →
  (Contest.duration contest * 60000 - 500 < now - Contest.startTime contest
   ≤ Contest.duration contest * 60000)%Z →
  (handleJoinContest contest now st).2 = []
  ∧ contestTimeLeft (handleJoinContest contest now st).1 = 0%Z
  ∧ (joinContest contest now st).2 = [ContestSubmitted]
  ∧ appState (joinContest contest now st).1 = dashboard
  ∧ tabSwitches (joinContest contest now st).1 = 0%Z
  ∧ activeContest (joinContest contest now st).1 = Some contest.
Proof.
  intros HD Hpos [Hlast Hin].
  pose proof (secondsLeft_last_half_second contest now HD Hpos (conj Hlast Hin)) as Hzero.
  unfold joinContest.
  rewrite (handleJoinContest_accepted contest now st HD (conj Hpos Hin)), Hzero.
  simpl. done.
Qed.

Lemma join_in_last_half_second_witness :
  (Contest.duration weekly ≤ 2 ^ 31)%Z
  ∧ (0 ≤ 1767268799800 - Contest.startTime weekly)%Z
  ∧ (Contest.duration weekly * 60000 - 500 < 1767268799800 - Contest.startTime weekly
     ≤ Contest.duration weekly * 60000)%Z
  ∧ (joinContest weekly 1767268799800 inLobby).2 = [ContestSubmitted]
  ∧ appState (joinContest weekly 1767268799800 inLobby).1 = dashboard.
Proof.
  assert (HD : (Contest.duration weekly ≤ 2 ^ 31)%Z) by (vm_compute; discriminate).
  assert (H0 : (0 ≤ 1767268799800 - Contest.startTime weekly)%Z)
    by (vm_compute; discriminate).
  assert (H1 : (Contest.duration weekly * 60000 - 500
                < 1767268799800 - Contest.startTime weekly
                ≤ Contest.duration weekly * 60000)%Z)
    by (split; [vm_compute; reflexivity | vm_compute; discriminate]).
  destruct (join_in_last_half_second weekly 1767268799800 inLobby HD H0 H1)
    as (_ & _ & Hout & Happ & _).
  split; [exact HD | split; [exact H0 | split; [exact H1 | split; [exact Hout | exact Happ]]]].
Defined.

Lemma contestStep_problems (ev : ContestEvent) (st : App) :
  contestProblems (contestStep ev st).1 = contestProblems st.
Proof.
  destruct ev as [fs| | | |]; simpl.
  - unfold dispatch. destruct (decide _); [|done].
    by destruct (deliver_outcome fs st) as (_ & _ & _ & Hp & _).
  - unfold contestTick, contestTimerEffect. simpl.
    destruct (bool_decide _ && _); [|done]. simpl.
    by destruct (bool_decide _ && _).
  - by destruct (contestViewShown st).
  - destruct (contestViewShown st); [|done]. unfold previousProblem.
    by destruct (bool_decide _).
  - destruct (contestViewShown st); [|done]. unfold nextProblem.
    by destruct (bool_decide _).
Qed.

Lemma contestStep_index_in_range (ev : ContestEvent) (st : App) :
  currentProblemIndex st < length (contestProblems st) →
  currentProblemIndex (contestStep ev st).1 < length (contestProblems st).
Proof.
  intros Hin. destruct ev as [fs| | | |]; simpl.
  - unfold dispatch. destruct (decide _); [|done].
    destruct (deliver_outcome fs st) as (_ & _ & _ & _ & Hi). by rewrite Hi.
  - unfold contestTick, contestTimerEffect. simpl.
    destruct (bool_decide _ && _); [|done]. simpl.
    by destruct (bool_decide _ && _).
  - by destruct (contestViewShown st).
  - destruct (contestViewShown st); [|done]. unfold previousProblem.
    case_bool_decide; simpl; lia.
  - destruct (contestViewShown st); [|done]. unfold nextProblem.
    case_bool_decide; simpl; lia.
Qed.

(** X17.  The problem shown stays one of the contest's problems: if the
    index is within the problem list, it still is after any sequence of
    contest events, clicks on "Previous Problem" and "Next Problem"
    included.  With an empty problem list "Next Problem" is never
    disabled, and each click moves the index one further past the list. *)
Theorem problem_index_stays_in_range (st : App) :
  (currentProblemIndex st < length (contestProblems st) →
   ∀ evs, currentProblemIndex (contestRun evs st).1
          < length (contestProblems (contestRun evs st).1))
  ∧ (contestProblems st = [] → contestViewShown st = true →
     ∀ k, currentProblemIndex (contestRun (repeat NextClick k) st).1
          = currentProblemIndex st + k).
Proof.
  split.
  - intros Hin evs. revert st Hin.
    induction evs as [|ev evs IH]; intros st Hin; [done|].
    rewrite contestRun_cons. cbn [fst]. apply IH.
    rewrite contestStep_problems. by apply contestStep_index_in_range.
  - intros Hnone Hshown k. revert st Hnone Hshown.
    induction k as [|k IH]; intros st Hnone Hshown; [simpl; lia|].
    simpl repeat. rewrite contestRun_cons. cbn [fst contestStep].
    rewrite Hshown. cbn [fst].
    assert (Hnext : nextProblem st
                    = setCurrentProblemIndex (currentProblemIndex st + 1) st).
    { unfold nextProblem. rewrite Hnone. simpl.
      rewrite bool_decide_eq_false_2 by lia. done. }
    rewrite Hnext, IH; [simpl; lia | done | done].
Qed.

Lemma problem_index_stays_in_range_witness :
  currentProblemIndex twoProblems < length (contestProblems twoProblems)
  ∧ currentProblemIndex
      (contestRun [NextClick; NextClick; PreviousClick; PreviousClick; PreviousClick;
                   NextClick] twoProblems).1 = 1
  ∧ contestProblems joined = []
  ∧ contestViewShown joined = true
  ∧ currentProblemIndex (contestRun (repeat NextClick 3) joined).1 = 3.
Proof.
  assert (Hin : currentProblemIndex twoProblems < length (contestProblems twoProblems))
    by (vm_compute; lia).
  destruct (problem_index_stays_in_range twoProblems) as [Hrange _].
  destruct (problem_index_stays_in_range joined) as [_ Hempty].
  pose proof (Hrange Hin [NextClick; NextClick; PreviousClick; PreviousClick;
                          PreviousClick; NextClick]) as Hlt.
  split; [exact Hin | split; [vm_compute; reflexivity |]].
  split; [reflexivity | split; [reflexivity |]].
  rewrite (Hempty eq_refl eq_refl 3). reflexivity.
Defined.

Lemma orElse_nonempty (s : string) (b : option string) :
  s ≠ "" → orElse (Some s) b = Some s.
Proof. intros Hs. unfold orElse. by rewrite decide_False. Qed.

(** X18.  The editor keeps what is typed, per problem: after a change to
    a non-empty text the editor of that problem shows the text, and the
    editor of a problem with another id shows what it showed before.
    Clearing the editor stores the empty text, which the editor treats as
    no submission: it shows the starter code of the selected language
    again, or nothing if there is none. *)
Theorem editor_keeps_text_per_problem
    (subs : gmap string string) (problems : list CodingProblem.t)
    (i : nat) (p : CodingProblem.t) (lang : string) :
  problems !! i = Some p →
  (∀ code, code ≠ "" →
     editorValue (editorChange (Some code) problems i subs) problems i lang = code)
  ∧ (∀ val j q, problems !! j = Some q → CodingProblem.id q ≠ CodingProblem.id p →
       editorValue (editorChange val problems i subs) problems j lang
       = editorValue subs problems j lang)
  ∧ (∀ val, val = None ∨ val = Some "" →
       editorValue (editorChange val problems i subs) problems i lang
       = default "" (orElse (CodingProblem.initialCode p !! lang) (Some ""))).
Proof.
  intros Hp. split; [|split].
  - intros code Hcode. unfold editorValue, editorChange. rewrite Hp.
    rewrite (orElse_nonempty code (Some "")) by done.
    cbn [default from_option]. rewrite lookup_insert_eq.
    by rewrite orElse_nonempty.
  - intros val j q Hq Hne. unfold editorValue, editorChange. rewrite Hp, Hq.
    cbn [from_option]. by rewrite lookup_insert_ne.
  - intros val Hval. unfold editorValue, editorChange. rewrite Hp.
    cbn [from_option]. rewrite lookup_insert_eq.
    by destruct Hval as [-> | ->].
Qed.

Lemma editor_keeps_text_per_problem_witness :
  contestProblems twoProblems !! 0
  = Some {| CodingProblem.id := "p1"; CodingProblem.title := "Sum";
            CodingProblem.description := ""; CodingProblem.constraints := "";
            CodingProblem.inputFormat := ""; CodingProblem.outputFormat := "";
            CodingProblem.sampleInput := ""; CodingProblem.sampleOutput := "";
            CodingProblem.initialCode := {[ "python" := "def solution(): pass" ]};
            CodingProblem.testCases := [] |}
  ∧ editorValue (editorChange (Some "print(1)") (contestProblems twoProblems) 0 ∅)
                (contestProblems twoProblems) 0 "python" = "print(1)"
  ∧ editorValue (editorChange (Some "") (contestProblems twoProblems) 0
                   (editorChange (Some "print(1)") (contestProblems twoProblems) 0 ∅))
                (contestProblems twoProblems) 0 "python" = "def solution(): pass".
Proof.
  assert (Hp : contestProblems twoProblems !! 0
               = Some {| CodingProblem.id := "p1"; CodingProblem.title := "Sum";
                         CodingProblem.description := ""; CodingProblem.constraints := "";
                         CodingProblem.inputFormat := ""; CodingProblem.outputFormat := "";
                         CodingProblem.sampleInput := ""; CodingProblem.sampleOutput := "";
                         CodingProblem.initialCode :=
                           {[ "python" := "def solution(): pass" ]};
                         CodingProblem.testCases := [] |}) by reflexivity.
  split; [exact Hp | split].
  - destruct (editor_keeps_text_per_problem ∅ (contestProblems twoProblems) 0 _
                "python" Hp) as (Hkeep & _).
    apply Hkeep. discriminate.
  - destruct (editor_keeps_text_per_problem
                (editorChange (Some "print(1)") (contestProblems twoProblems) 0 ∅)
                (contestProblems twoProblems) 0 _ "python" Hp) as (_ & _ & Hclear).
    rewrite (Hclear (Some "") ltac:(by right)). vm_compute. reflexivity.
Defined.

(** * Accounts and the stored session *)

(** X19.  Signing in or registering never alters an account that is
    already stored: whatever the form holds, every account of the store is
    found unchanged under its email afterwards.  In particular a
    registration under a taken email is refused and overwrites nothing. *)
Theorem auth_keeps_stored_accounts (p : Page) (e : string) (u0 : UserStats.t) :
  default ∅ (coach_users (state p)) !! e = Some u0 →
  default ∅ (coach_users (state (handleAuth p).1)) !! e = Some u0
  ∧ (AuthForm.authMode (form p) = register → AuthForm.email (form p) = e →
     handleAuth p = (p, [UserAlreadyExists])).
Proof.
  intros He. unfold handleAuth.
  destruct (AuthForm.authMode (form p)) eqn:Hmode.
  - split; [|discriminate].
    destruct (default ∅ (coach_users (state p)) !! AuthForm.email (form p)) as [ud|];
      [|done].
    destruct (decide _); done.
  - destruct (default ∅ (coach_users (state p)) !! AuthForm.email (form p))
      as [ud|] eqn:Hl.
    + split; [done|]. done.
    + split; [|intros _ Heq; rewrite Heq, He in Hl; discriminate].
      assert (Hne : AuthForm.email (form p) ≠ e) by (intros <-; congruence).
      destruct (AuthForm.role (form p)); [|destruct (decide _)];
        simpl; by rewrite lookup_insert_ne.
Qed.

Lemma auth_keeps_stored_accounts_witness :
  default ∅ (coach_users (state ashaRegistered)) !! "asha@example.org" = Some demoUser
  ∧ handleAuth (fillForm (registering "Mallory" "asha@example.org" "guess" ADMIN
                            "ADMIN123") ashaRegistered)
    = (fillForm (registering "Mallory" "asha@example.org" "guess" ADMIN "ADMIN123")
                ashaRegistered, [UserAlreadyExists]).
Proof.
  assert (H0 : default ∅ (coach_users
                             (state (fillForm (registering "Mallory" "asha@example.org"
                                                 "guess" ADMIN "ADMIN123")
                                              ashaRegistered)))
               !! "asha@example.org" = Some demoUser) by (vm_compute; reflexivity).
  split; [exact H0 |].
  destruct (auth_keeps_stored_accounts _ _ _ H0) as [_ Hrefused].
  apply Hrefused; reflexivity.
Defined.

(** X20.  The administrator role needs the access code: a registration
    under a free email creates an account whose role is [ADMIN] exactly
    when the form asks for [ADMIN] and carries the code "ADMIN123";
    otherwise the account is a student's.  The account starts from zeroed
    statistics at the lowest tier. *)
Theorem admin_role_needs_access_code (p : Page) :
  AuthForm.authMode (form p) = register →
  default ∅ (coach_users (state p)) !! AuthForm.email (form p) = None →
  ∃ r, user (state (handleAuth p).1)
       = Some (newUser (AuthForm.name (form p)) (AuthForm.email (form p))
                       (AuthForm.password (form p)) r)
     ∧ (r = ADMIN ↔ AuthForm.role (form p) = ADMIN
                    ∧ AuthForm.adminCode (form p) = "ADMIN123")
     ∧ appState (state (handleAuth p).1)
       = (if decide (r = ADMIN) then admin_dashboard else dashboard)
     ∧ default ∅ (coach_users (state (handleAuth p).1)) !! AuthForm.email (form p)
       = user (state (handleAuth p).1).
Proof.
  intros Hmode Hfree. unfold handleAuth. rewrite Hmode, Hfree.
  destruct (AuthForm.role (form p)) eqn:Hrole.
  - exists STUDENT. simpl. rewrite lookup_insert_eq.
    split; [done | split; [|done]]. split; [discriminate | intros [? _]; discriminate].
  - destruct (decide (AuthForm.adminCode (form p) = "ADMIN123")) as [Hcode|Hcode].
    + exists ADMIN. simpl. rewrite lookup_insert_eq. done.
    + exists STUDENT. simpl. rewrite lookup_insert_eq.
      split; [done | split; [|done]]. split; [discriminate | intros [_ ?]; done].
Qed.

Lemma admin_role_needs_access_code_witness :
  AuthForm.authMode (form (fillForm (registering "Eve" "eve@example.org" "pw" ADMIN
                                       "admin123") ashaRegistered)) = register
  ∧ default ∅ (coach_users (state ashaRegistered)) !! "eve@example.org" = None
  ∧ (UserStats.role
       <$> user (state (handleAuth (fillForm (registering "Eve" "eve@example.org" "pw"
                                                ADMIN "admin123") ashaRegistered)).1))
    = Some STUDENT.
Proof.
  assert (Hfree : default ∅ (coach_users (state ashaRegistered)) !! "eve@example.org"
                  = None) by (vm_compute; reflexivity).
  destruct (admin_role_needs_access_code
              (fillForm (registering "Eve" "eve@example.org" "pw" ADMIN "admin123")
                        ashaRegistered) eq_refl Hfree)
    as (r & Hu & Hiff & _).
  split; [reflexivity | split; [exact Hfree |]].
  rewrite Hu. simpl. f_equal.
  destruct r; [reflexivity |].
  destruct (proj1 Hiff eq_refl) as [_ Hcode]. discriminate Hcode.
Defined.

(** X21.  A registered visitor can come back: after a registration under
    a free email and a logout, signing in with the same email and password
    gives back the registered account, the same dashboard and the same
    store; a different password is refused and changes nothing. *)
Theorem register_logout_login_round_trip (p : Page) (otherPassword : string) :
  AuthForm.authMode (form p) = register →
  default ∅ (coach_users (state p)) !! AuthForm.email (form p) = None →
  otherPassword ≠ AuthForm.password (form p) →
  user (state (handleLogout (handleAuth p).1)) = None
  ∧ coach_current_user_email (handleLogout (handleAuth p).1) = None
  ∧ user (state (handleAuth (fillForm (asLogin (form p))
                               (handleLogout (handleAuth p).1))).1)
    = user (state (handleAuth p).1)
  ∧ appState (state (handleAuth (fillForm (asLogin (form p))
                                   (handleLogout (handleAuth p).1))).1)
    = appState (state (handleAuth p).1)
  ∧ coach_users (state (handleAuth (fillForm (asLogin (form p))
                                      (handleLogout (handleAuth p).1))).1)
    = coach_users (state (handleAuth p).1)
  ∧ coach_current_user_email
      (handleAuth (fillForm (asLogin (form p)) (handleLogout (handleAuth p).1))).1
    = Some (AuthForm.email (form p))
  ∧ handleAuth
      (fillForm {| AuthForm.authMode := login; AuthForm.name := "";
                   AuthForm.email := AuthForm.email (form p);
                   AuthForm.password := otherPassword;
                   AuthForm.role := AuthForm.role (form p);
                   AuthForm.adminCode := AuthForm.adminCode (form p) |}
                (handleLogout (handleAuth p).1))
    = (fillForm {| AuthForm.authMode := login; AuthForm.name := "";
                   AuthForm.email := AuthForm.email (form p);
                   AuthForm.password := otherPassword;
                   AuthForm.role := AuthForm.role (form p);
                   AuthForm.adminCode := AuthForm.adminCode (form p) |}
                (handleLogout (handleAuth p).1),
       [InvalidCredentials]).
Proof.
  intros Hmode Hfree Hother.
  assert (Hreg : ∃ nu notes,
             handleAuth p
             = ({| state := signedIn nu (difficulty (state p))
                              (Some (<[AuthForm.email (form p) := nu]>
                                       (default ∅ (coach_users (state p)))))
                              (state p);
                   form := form p;
                   coach_current_user_email := Some (AuthForm.email (form p)) |},
                notes)
             ∧ UserStats.password nu = Some (AuthForm.password (form p))).
  { unfold handleAuth. rewrite Hmode, Hfree.
    destruct (AuthForm.role (form p)); [|destruct (decide _)];
      eexists _, _; split; reflexivity. }
  destruct Hreg as (nu & notes & -> & Hpw).
  split; [done | split; [done |]].
  unfold handleAuth. simpl. rewrite lookup_insert_eq.
  rewrite (decide_True _ _ Hpw).
  rewrite decide_False by (rewrite Hpw; congruence).
  simpl. done.
Qed.

Lemma register_logout_login_round_trip_witness :
  default ∅ (coach_users (state visitor)) !! "asha@example.org" = None
  ∧ "guess" ≠ "secret"
  ∧ user (state (handleAuth
                   (fillForm (asLogin (registering "Asha" "asha@example.org" "secret"
                                         STUDENT ""))
                             (handleLogout ashaRegistered))).1)
    = Some demoUser.
Proof.
  assert (Hfree : default ∅ (coach_users
                     (state (fillForm (registering "Asha" "asha@example.org" "secret"
                                         STUDENT "") visitor)))
                  !! "asha@example.org" = None) by reflexivity.
  assert (Hne : "guess" ≠ "secret") by discriminate.
  destruct (register_logout_login_round_trip
              (fillForm (registering "Asha" "asha@example.org" "secret" STUDENT "")
                        visitor) "guess" eq_refl Hfree Hne)
    as (_ & _ & Hback & _).
  split; [exact Hfree | split; [exact Hne |]].
  unfold ashaRegistered. cbn [form fillForm] in Hback. rewrite Hback.
  vm_compute. reflexivity.
Defined.

Lemma updateStats_email u d s n pc w now :
  UserStats.email (updateStats u d s n pc w now) = UserStats.email u.
Proof. unfold updateStats. destruct (progressionLogic u d pc) as [[? ?] ?]. done. Qed.

Lemma updateStats_role u d s n pc w now :
  UserStats.role (updateStats u d s n pc w now) = UserStats.role u.
Proof. unfold updateStats. destruct (progressionLogic u d pc) as [[? ?] ?]. done. Qed.

(** X22.  A successful registration or sign-in leaves the stored session
    in agreement with the one in memory: when every stored account is
    filed under its own email and the form's email is not empty, a
    [handleAuth] that raises no refusal ends with the signed-in account
    stored under its email and named by the session pointer, and the store
    is still filed by email. *)
Theorem auth_establishes_stored_session (p : Page) :
  storeKeyedByEmail p →
  AuthForm.email (form p) ≠ "" →
  (handleAuth p).2 = [] ∨ (handleAuth p).2 = [InvalidAdminCode] →
  inSync (handleAuth p).1 ∧ storeKeyedByEmail (handleAuth p).1.
Proof.
  intros Hkeyed Hemail Hok. unfold handleAuth in *.
  destruct (AuthForm.authMode (form p)).
  - destruct (default ∅ (coach_users (state p)) !! AuthForm.email (form p))
      as [ud|] eqn:Hl; [|simpl in Hok; destruct Hok; discriminate].
    destruct (decide (UserStats.password ud = Some (AuthForm.password (form p))));
      [|simpl in Hok; destruct Hok; discriminate].
    pose proof (Hkeyed _ _ Hl) as Hkey.
    destruct (coach_users (state p)) as [users|] eqn:Hstore;
      [|simpl in Hl; by rewrite lookup_empty in Hl].
    simpl in Hl. split.
    + exists ud, users. simpl. rewrite Hkey. done.
    + intros k v. simpl. intros Hk. apply Hkeyed. by rewrite Hstore.
  - destruct (default ∅ (coach_users (state p)) !! AuthForm.email (form p))
      as [ud|] eqn:Hl; [simpl in Hok; destruct Hok; discriminate|].
    assert (Hnew : ∀ r,
               inSync
                 {| state := signedIn (newUser (AuthForm.name (form p))
                                         (AuthForm.email (form p))
                                         (AuthForm.password (form p)) r)
                               (difficulty (state p))
                               (Some (<[AuthForm.email (form p) :=
                                          newUser (AuthForm.name (form p))
                                            (AuthForm.email (form p))
                                            (AuthForm.password (form p)) r]>
                                        (default ∅ (coach_users (state p)))))
                               (state p);
                    form := form p;
                    coach_current_user_email := Some (AuthForm.email (form p)) |}
               ∧ storeKeyedByEmail
                   {| state := signedIn (newUser (AuthForm.name (form p))
                                           (AuthForm.email (form p))
                                           (AuthForm.password (form p)) r)
                                 (difficulty (state p))
                                 (Some (<[AuthForm.email (form p) :=
                                            newUser (AuthForm.name (form p))
                                              (AuthForm.email (form p))
                                              (AuthForm.password (form p)) r]>
                                          (default ∅ (coach_users (state p)))))
                                 (state p);
                      form := form p;
                      coach_current_user_email := Some (AuthForm.email (form p)) |}).
    { intros r. split.
      - eexists _, _. simpl. split; [reflexivity|]. split; [reflexivity|].
        split; [exact Hemail|]. split; [reflexivity|]. apply lookup_insert_eq.
      - intros k v. simpl. rewrite lookup_insert.
        destruct (decide (AuthForm.email (form p) = k)) as [Hk|Hk];
          [intros [= Hv]; subst v; exact Hk | apply Hkeyed]. }
    destruct (AuthForm.role (form p)); [|destruct (decide _)]; apply Hnew.
Qed.

Lemma visitor_storeKeyedByEmail (f : AuthForm.t) : storeKeyedByEmail (fillForm f visitor).
Proof. intros e u. simpl. by rewrite lookup_empty. Qed.

Lemma auth_establishes_stored_session_witness :
  storeKeyedByEmail (fillForm (registering "Asha" "asha@example.org" "secret" STUDENT "")
                              visitor)
  ∧ "asha@example.org" ≠ ""
  ∧ (handleAuth (fillForm (registering "Asha" "asha@example.org" "secret" STUDENT "")
                          visitor)).2 = []
  ∧ inSync ashaRegistered.
Proof.
  assert (Hne : "asha@example.org" ≠ "") by discriminate.
  split; [apply visitor_storeKeyedByEmail | split; [exact Hne | split; [reflexivity |]]].
  exact (proj1 (auth_establishes_stored_session
                  (fillForm (registering "Asha" "asha@example.org" "secret" STUDENT "")
                            visitor)
                  (visitor_storeKeyedByEmail _) Hne (or_introl eq_refl))).
Defined.

(** X23.  A reload keeps the session and the progress.  When the stored
    session agrees with the one in memory and the account holds
    percentages only, then after a submitted assessment on at least one
    question, whatever the content provider replies, the account still
    holds percentages only (so the record read back from the store is the
    record that was written), the stored session still agrees, and the
    page started again from the stored data shows the account as it is in
    memory, on the dashboard of its role and at the account's own tier. *)
Theorem progress_survives_reload
    (p : Page) (u : UserStats.t) (reply : GapReply) (now : string) :
  inSync p →
  user (state p) = Some u →
  soundScores u →
  questions (state p) ≠ [] →
  ∃ u', user (state (onApp (handleSubmitTest reply now) p)) = Some u'
      ∧ soundScores u'
      ∧ inSync (onApp (handleSubmitTest reply now) p)
      ∧ user (state (loadPage
                       (coach_users (state (onApp (handleSubmitTest reply now) p)))
                       (coach_current_user_email
                          (onApp (handleSubmitTest reply now) p))))
        = Some u'
      ∧ difficulty (state (loadPage
                             (coach_users (state (onApp (handleSubmitTest reply now) p)))
                             (coach_current_user_email
                                (onApp (handleSubmitTest reply now) p))))
        = UserStats.level u'
      ∧ appState (state (loadPage
                           (coach_users (state (onApp (handleSubmitTest reply now) p)))
                           (coach_current_user_email
                              (onApp (handleSubmitTest reply now) p))))
        = match UserStats.role u' with
          | ADMIN => admin_dashboard
          | STUDENT => dashboard
          end.
Proof.
  intros (u0 & users & Hu0 & Hptr & Hemail & Hstore & Hlook) Hu Hsound Hqs.
  rewrite Hu in Hu0. injection Hu0 as <-.
  assert (Hload : ∀ v store,
             UserStats.email v = UserStats.email u →
             store !! UserStats.email u = Some v →
             user (state (loadPage (Some store) (coach_current_user_email p))) = Some v
             ∧ difficulty (state (loadPage (Some store) (coach_current_user_email p)))
               = UserStats.level v
             ∧ appState (state (loadPage (Some store) (coach_current_user_email p)))
               = match UserStats.role v with
                 | ADMIN => admin_dashboard
                 | STUDENT => dashboard
                 end).
  { intros v store Hv Hl. unfold loadPage, restoreSession. rewrite Hptr. simpl.
    rewrite decide_False by done. rewrite Hl. done. }
  destruct (analyzeGaps (initialResults (questions (state p)) (answers (state p)))
                        reply) as [a|] eqn:Ha.
  - destruct (handleSubmitTest_analyzed reply now (state p) a u Ha Hu)
      as (Hu' & _ & _ & _ & Hst').
    eexists. cbn [state onApp coach_current_user_email].
    rewrite Hu', Hst', Hstore. cbn [fmap option_fmap option_map].
    split; [reflexivity | split; [|split]].
    + apply updateStats_soundScores; [|exact Hsound].
      apply percentage_of_range; [|apply score_of_le_length].
      destruct (questions (state p)); [done | simpl; lia].
    + eexists _, _. cbn [state onApp coach_current_user_email].
      rewrite Hu', Hst', Hstore. cbn [fmap option_fmap option_map].
      rewrite updateStats_email.
      split; [reflexivity | split; [exact Hptr | split; [exact Hemail |]]].
      split; [reflexivity | apply lookup_insert_eq].
    + apply Hload; [apply updateStats_email | apply lookup_insert_eq].
  - destruct (handleSubmitTest_rejected reply now (state p) Ha) as (Hu' & Hst' & _).
    exists u. cbn [state onApp coach_current_user_email].
    rewrite Hu', Hst', Hstore.
    split; [exact Hu | split; [exact Hsound | split]].
    + exists u, users. cbn [state onApp coach_current_user_email].
      rewrite Hu', Hst'. done.
    + by apply Hload.
Qed.

Lemma ashaRegistered_inSync : inSync ashaRegistered.
Proof.
  exists demoUser, {[ "asha@example.org" := demoUser ]}.
  split; [reflexivity | split; [reflexivity | split; [discriminate |]]].
  split; [reflexivity | apply lookup_insert_eq].
Qed.

Lemma ashaSitting_inSync :
  inSync (onApp (λ st, answeredTest (batch 4) (answeredRight (take 3 (batch 4))) st)
                ashaRegistered).
Proof.
  exists demoUser, {[ "asha@example.org" := demoUser ]}.
  split; [reflexivity | split; [reflexivity | split; [discriminate |]]].
  split; [reflexivity | apply lookup_insert_eq].
Qed.

Lemma progress_survives_reload_witness :
  inSync (onApp (λ st, answeredTest (batch 4) (answeredRight (take 3 (batch 4))) st)
                ashaRegistered)
  ∧ soundScores demoUser
  ∧ ∃ u', user (state (loadPage
                         (coach_users
                            (state (onApp (handleSubmitTest Unparseable "day 1")
                                      (onApp (λ st, answeredTest (batch 4)
                                                 (answeredRight (take 3 (batch 4))) st)
                                             ashaRegistered))))
                         (Some "asha@example.org"))) = Some u'
        ∧ UserStats.totalTests u' = 1
        ∧ UserStats.averageScore u' = Num 75.
Proof.
  split; [exact ashaSitting_inSync | split; [exact demoUser_soundScores |]].
  destruct (progress_survives_reload
              (onApp (λ st, answeredTest (batch 4) (answeredRight (take 3 (batch 4))) st)
                     ashaRegistered)
              demoUser Unparseable "day 1" ashaSitting_inSync eq_refl
              demoUser_soundScores ltac:(vm_compute; discriminate))
    as (u' & Hu' & _ & _ & Hload & _).
  exists u'. split; [exact Hload |].
  assert (Hval : Some u' = user (state (onApp (handleSubmitTest Unparseable "day 1")
                                 (onApp (λ st, answeredTest (batch 4)
                                            (answeredRight (take 3 (batch 4))) st)
                                        ashaRegistered)))) by (by rewrite Hu').
  vm_compute in Hval. injection Hval as ->. split; reflexivity.
Defined.

(** X24.  The tier at which a test counts is the page's difficulty
    setting, which a sign-in sets to the account's level and which logout
    and registration leave alone.  So after an EXPERT account has signed
    in and logged out, a newcomer who registers on the same page is tested
    at EXPERT: a first test without a mistake grants "Expert Legend" and
    the placement flag, while the newcomer's level stays BEGINNER and no
    lower badge is held. *)
Theorem newcomer_tested_at_previous_difficulty
    (p : Page) (expert : UserStats.t) (f : AuthForm.t)
    (qs : list Question.t) (ans : gmap string string)
    (reply : GapReply) (now : string) :
  AuthForm.authMode (form p) = login →
  default ∅ (coach_users (state p)) !! AuthForm.email (form p) = Some expert →
  UserStats.password expert = Some (AuthForm.password (form p)) →
  UserStats.level expert = EXPERT →
  AuthForm.authMode f = register →
  AuthForm.role f = STUDENT →
  default ∅ (coach_users (state p)) !! AuthForm.email f = None →
  qs ≠ [] →
  score_of qs ans = length qs →
  difficulty (state (handleAuth p).1) = EXPERT
  ∧ difficulty (state (newcomerAfter p f)) = EXPERT
  ∧ user (state (newcomerAfter p f))
    = Some (newUser (AuthForm.name f) (AuthForm.email f) (AuthForm.password f) STUDENT)
  ∧ ∃ u', user (handleSubmitTest reply now
                  (answeredTest qs ans (state (newcomerAfter p f)))) = Some u'
        ∧ UserStats.totalTests u' = 1
        ∧ UserStats.level u' = BEGINNER
        ∧ UserStats.badges u' = ["Expert Legend"]
        ∧ UserStats.placementReady u' = true.
Proof.
  intros Hmode Hexpert Hpw Hlevel Hreg Hrole Hfree Hqs Hscore.
  assert (Hin : handleAuth p
                = ({| state := signedIn expert (UserStats.level expert)
                                 (coach_users (state p)) (state p);
                      form := form p;
                      coach_current_user_email := Some (AuthForm.email (form p)) |},
                   [])).
  { unfold handleAuth. rewrite Hmode, Hexpert. by rewrite decide_True. }
  assert (Hnew : newcomerAfter p f
                 = {| state :=
                        signedIn (newUser (AuthForm.name f) (AuthForm.email f)
                                          (AuthForm.password f) STUDENT)
                                 EXPERT
                                 (Some (<[AuthForm.email f :=
                                            newUser (AuthForm.name f) (AuthForm.email f)
                                                    (AuthForm.password f) STUDENT]>
                                          (default ∅ (coach_users (state p)))))
                                 (signedOut (signedIn expert (UserStats.level expert)
                                               (coach_users (state p)) (state p)));
                      form := f;
                      coach_current_user_email := Some (AuthForm.email f) |}).
  { unfold newcomerAfter. rewrite Hin. unfold handleAuth at 1.
    cbn [fst form fillForm state handleLogout coach_users signedOut signedIn].
    rewrite Hreg, Hfree, Hrole. cbn [fst difficulty]. by rewrite Hlevel. }
  rewrite Hin, Hnew. cbn [fst state difficulty signedIn].
  split; [exact Hlevel | split; [reflexivity | split; [reflexivity |]]].
  set (nu := newUser (AuthForm.name f) (AuthForm.email f) (AuthForm.password f) STUDENT).
  set (st4 := answeredTest qs ans _).
  assert (Hq4 : questions st4 = qs) by reflexivity.
  assert (Ha4 : answers st4 = ans) by reflexivity.
  assert (Hu4 : user st4 = Some nu) by reflexivity.
  assert (Hd4 : difficulty st4 = EXPERT) by reflexivity.
  destruct (analyzeGaps_perfect (initialResults (questions st4) (answers st4)) reply)
    as (a & Hgap & Hw).
  { cbn [AssessmentResult.score AssessmentResult.total initialResults].
    by rewrite Hq4, Ha4. }
  destruct (handleSubmitTest_analyzed reply now st4 a nu Hgap Hu4) as (-> & _).
  eexists. split; [reflexivity|].
  rewrite Hq4, Ha4, Hd4, Hscore, Hw.
  rewrite percentage_of_perfect by (destruct qs; [done | simpl; lia]).
  rewrite updateStats_totalTests, updateStats_level, updateStats_badges_eq,
    updateStats_placementReady.
  done.
Qed.

Lemma newcomer_tested_at_previous_difficulty_witness :
  default ∅ (coach_users (state legendReturns)) !! "asha@example.org" = Some legend
  ∧ UserStats.level legend = EXPERT
  ∧ batch 10 ≠ []
  ∧ score_of (batch 10) (answeredRight (batch 10)) = length (batch 10)
  ∧ ∃ u', user (handleSubmitTest Unparseable "day 9"
                  (answeredTest (batch 10) (answeredRight (batch 10))
                     (state (newcomerAfter legendReturns
                               (registering "Ravi" "ravi@example.org" "pw" STUDENT "")))))
          = Some u'
        ∧ UserStats.level u' = BEGINNER
        ∧ UserStats.placementReady u' = true.
Proof.
  assert (Hl : default ∅ (coach_users (state legendReturns)) !! "asha@example.org"
               = Some legend) by (vm_compute; reflexivity).
  assert (Hlevel : UserStats.level legend = EXPERT) by (vm_compute; reflexivity).
  assert (Hpw : UserStats.password legend = Some "secret") by (vm_compute; reflexivity).
  assert (Hfree : default ∅ (coach_users (state legendReturns)) !! "ravi@example.org"
                  = None) by (vm_compute; reflexivity).
  assert (Hqs : batch 10 ≠ []) by (vm_compute; discriminate).
  assert (Hs : score_of (batch 10) (answeredRight (batch 10)) = length (batch 10))
    by (vm_compute; reflexivity).
  destruct (newcomer_tested_at_previous_difficulty legendReturns legend
              (registering "Ravi" "ravi@example.org" "pw" STUDENT "")
              (batch 10) (answeredRight (batch 10)) Unparseable "day 9"
              eq_refl Hl Hpw Hlevel eq_refl eq_refl Hfree Hqs Hs)
    as (_ & _ & _ & u' & Hu' & _ & Hlv & _ & Hready).
  split; [exact Hl | split; [exact Hlevel | split; [exact Hqs | split; [exact Hs |]]]].
  exists u'. split; [exact Hu' | split; [exact Hlv | exact Hready]].
Defined.

(** * Subject selection and the admin panel *)

(** X25.  Toggling a subject flips its selection and touches no other
    subject: afterwards the subject is selected exactly if it was not,
    every other subject is selected exactly if it was, and a selection
    without duplicates stays without duplicates.  Toggling twice a subject
    that was not selected gives back the same list. *)
Theorem toggleSubject_flips_membership (subject : string) (st : App) :
  (subject ∈ selectedSubjects (toggleSubject subject st)
   ↔ subject ∉ selectedSubjects st)
  ∧ (∀ s, s ≠ subject →
          s ∈ selectedSubjects (toggleSubject subject st) ↔ s ∈ selectedSubjects st)
  ∧ (NoDup (selectedSubjects st) → NoDup (selectedSubjects (toggleSubject subject st)))
  ∧ (subject ∉ selectedSubjects st →
     selectedSubjects (toggleSubject subject (toggleSubject subject st))
     = selectedSubjects st).
Proof.
  unfold toggleSubject, JS.includes. simpl.
  destruct (decide (subject ∈ selectedSubjects st)) as [Hin|Hnin].
  - rewrite (bool_decide_eq_true_2 _ Hin).
    split; [|split; [|split]].
    + rewrite list_elem_of_filter. split; [intros [? _]; done | done].
    + intros s Hs. rewrite list_elem_of_filter. tauto.
    + intros Hnd. by apply NoDup_filter.
    + done.
  - rewrite (bool_decide_eq_false_2 _ Hnin).
    split; [|split; [|split]].
    + rewrite elem_of_app, list_elem_of_singleton. tauto.
    + intros s Hs. rewrite elem_of_app, list_elem_of_singleton. tauto.
    + intros Hnd. apply NoDup_app. split; [done|].
      split; [|apply NoDup_singleton].
      intros x Hx ->%list_elem_of_singleton. done.
    + intros _. rewrite bool_decide_eq_true_2
        by (rewrite elem_of_app, list_elem_of_singleton; tauto).
      rewrite filter_app, filter_cons, decide_False by tauto.
      rewrite filter_nil, app_nil_r.
      clear -Hnin. induction (selectedSubjects st) as [|x l IH]; [done|].
      apply not_elem_of_cons in Hnin as [Hne Hnin].
      rewrite filter_cons, decide_True by done. by rewrite IH.
Qed.

Lemma toggleSubject_flips_membership_witness :
  ("OS" ∉ selectedSubjects inLobby)
  ∧ NoDup (selectedSubjects inLobby)
  ∧ selectedSubjects (toggleSubject "OS" inLobby) = ["DSA"; "OS"]
  ∧ selectedSubjects (toggleSubject "OS" (toggleSubject "OS" inLobby)) = ["DSA"].
Proof.
  assert (Hnin : "OS" ∉ selectedSubjects inLobby).
  { intros [H | H%elem_of_nil]%elem_of_cons; [discriminate H | done]. }
  assert (Hnd : NoDup (selectedSubjects inLobby)) by apply NoDup_singleton.
  destruct (toggleSubject_flips_membership "OS" inLobby) as (_ & _ & _ & Htwice).
  split; [exact Hnin | split; [exact Hnd | split; [reflexivity |]]].
  rewrite (Htwice Hnin). reflexivity.
Defined.

Lemma fold_left_tests (l : list UserStats.t) (a : nat) :
  fold_left (λ acc u, acc + UserStats.totalTests u) l a
  = a + sum_list_with UserStats.totalTests l.
Proof.
  revert a. induction l as [|u l IH]; intros a; simpl; [lia|].
  rewrite IH. lia.
Qed.

Lemma fold_left_scores (l : list UserStats.t) (a : Z) :
  fold_left (λ acc u, (acc + orZero (UserStats.averageScore u))%Z) l a
  = (a + foldr (λ u acc, (orZero (UserStats.averageScore u) + acc)%Z) 0%Z l)%Z.
Proof.
  revert a. induction l as [|u l IH]; intros a; simpl; [lia|].
  rewrite IH. lia.
Qed.

Lemma adminStatsOf_Permutation (l k : list UserStats.t) :
  l ≡ₚ k →
  totalStudents (adminStatsOf l) = totalStudents (adminStatsOf k)
  ∧ testsAttempted (adminStatsOf l) = testsAttempted (adminStatsOf k)
  ∧ placementReadyCount (adminStatsOf l) = placementReadyCount (adminStatsOf k).
Proof.
  intros Hp. unfold adminStatsOf. simpl.
  rewrite !fold_left_tests. by rewrite Hp.
Qed.

(** X27.  The figures of the admin panel are well defined and consistent:
    with no student stored (or no store at all) they are all 0 and nothing
    is divided by zero; the number of placement-ready students never
    exceeds the number of students; and when every student's average is
    between 0 and 100 (a [NaN] counting as 0), so is the platform
    average. *)
Theorem adminStats_well_defined (store : option (gmap string UserStats.t)) :
  (studentsOf store = [] →
   adminStats store
   = {| totalStudents := 0; testsAttempted := 0; placementReadyCount := 0;
        avgPlatformScore := 0 |})
  ∧ adminStats None
    = {| totalStudents := 0; testsAttempted := 0; placementReadyCount := 0;
         avgPlatformScore := 0 |}
  ∧ placementReadyCount (adminStats store) ≤ totalStudents (adminStats store)
  ∧ (Forall (λ u, (0 ≤ orZero (UserStats.averageScore u) ≤ 100)%Z) (studentsOf store) →
     (0 ≤ avgPlatformScore (adminStats store) ≤ 100)%Z).
Proof.
  split; [|split; [|split]].
  - intros Hnone. unfold adminStats. rewrite Hnone. reflexivity.
  - unfold adminStats, studentsOf. simpl. rewrite map_to_list_empty. reflexivity.
  - unfold adminStats, adminStatsOf. simpl. apply length_filter.
  - intros Hall. unfold adminStats, adminStatsOf. simpl.
    rewrite fold_left_scores.
    assert (Hsum : (0 ≤ foldr (λ u acc, (orZero (UserStats.averageScore u) + acc)%Z)
                              0%Z (studentsOf store)
                    ≤ 100 * Z.of_nat (length (studentsOf store)))%Z).
    { induction Hall as [|u l Hu Hl IH]; simpl; lia. }
    destruct (decide (length (studentsOf store) = 0)) as [Hz|Hnz].
    + rewrite Hz in Hsum. apply Math_round_div_between; lia.
    + apply Math_round_div_between; lia.
Qed.

Lemma adminStats_well_defined_witness :
  studentsOf (coach_users (state visitor)) = []
  ∧ adminStats (coach_users (state visitor))
    = {| totalStudents := 0; testsAttempted := 0; placementReadyCount := 0;
         avgPlatformScore := 0 |}
  ∧ Forall (λ u, (0 ≤ orZero (UserStats.averageScore u) ≤ 100)%Z)
           (studentsOf (Some {[ "asha@example.org" := legend ]}))
  ∧ (0 ≤ avgPlatformScore (adminStats (Some {[ "asha@example.org" := legend ]}))
     ≤ 100)%Z.
Proof.
  assert (H0 : studentsOf (coach_users (state visitor)) = []) by reflexivity.
  assert (Hall : Forall (λ u, (0 ≤ orZero (UserStats.averageScore u) ≤ 100)%Z)
                        (studentsOf (Some {[ "asha@example.org" := legend ]}))).
  { apply (bool_decide_unpack _). vm_compute. exact I. }
  destruct (adminStats_well_defined (coach_users (state visitor))) as (Hempty & _).
  destruct (adminStats_well_defined (Some {[ "asha@example.org" := legend ]}))
    as (_ & _ & _ & Hrange).
  split; [exact H0 | split; [exact (Hempty H0) | split; [exact Hall | exact (Hrange Hall)]]].
Defined.

Lemma studentsOf_Some (m : gmap string UserStats.t) :
  studentsOf (Some m) = filter (λ u, UserStats.role u = STUDENT) (map_to_list m).*2.
Proof. reflexivity. Qed.

(** X28.  A registration shows on the admin panel as one more student and
    nothing else: registering under a free email raises the number of
    students by one when the new account is a student's and leaves it when
    it is an administrator's, and the tests attempted and the
    placement-ready count stay as they were. *)
Theorem registration_adds_one_student (p : Page) :
  AuthForm.authMode (form p) = register →
  default ∅ (coach_users (state p)) !! AuthForm.email (form p) = None →
  totalStudents (adminStats (coach_users (state (handleAuth p).1)))
  = totalStudents (adminStats (coach_users (state p)))
    + (if decide (AuthForm.role (form p) = ADMIN
                  ∧ AuthForm.adminCode (form p) = "ADMIN123") then 0 else 1)
  ∧ testsAttempted (adminStats (coach_users (state (handleAuth p).1)))
    = testsAttempted (adminStats (coach_users (state p)))
  ∧ placementReadyCount (adminStats (coach_users (state (handleAuth p).1)))
    = placementReadyCount (adminStats (coach_users (state p))).
Proof.
  intros Hmode Hfree.
  assert (Hstore : ∃ r,
             coach_users (state (handleAuth p).1)
             = Some (<[AuthForm.email (form p) :=
                        newUser (AuthForm.name (form p)) (AuthForm.email (form p))
                                (AuthForm.password (form p)) r]>
                       (default ∅ (coach_users (state p))))
             ∧ (r = ADMIN ↔ AuthForm.role (form p) = ADMIN
                            ∧ AuthForm.adminCode (form p) = "ADMIN123")).
  { unfold handleAuth. rewrite Hmode, Hfree.
    destruct (AuthForm.role (form p)) eqn:Hrole.
    - exists STUDENT. split; [done|]. split; [discriminate | intros [? _]; discriminate].
    - destruct (decide (AuthForm.adminCode (form p) = "ADMIN123")).
      + exists ADMIN. done.
      + exists STUDENT. split; [done|]. split; [discriminate | intros [_ ?]; done]. }
  destruct Hstore as (r & -> & Hr).
  assert (Hperm : studentsOf
                    (Some (<[AuthForm.email (form p) :=
                              newUser (AuthForm.name (form p)) (AuthForm.email (form p))
                                      (AuthForm.password (form p)) r]>
                             (default ∅ (coach_users (state p)))))
                  ≡ₚ (if decide (r = STUDENT)
                      then [newUser (AuthForm.name (form p)) (AuthForm.email (form p))
                                    (AuthForm.password (form p)) r]
                      else [])
                     ++ studentsOf (coach_users (state p))).
  { rewrite studentsOf_Some. unfold studentsOf.
    rewrite (map_to_list_insert _ _ _ Hfree), fmap_cons, filter_cons.
    cbn [snd UserStats.role newUser].
    by destruct (decide (r = STUDENT)). }
  unfold adminStats.
  destruct (adminStatsOf_Permutation _ _ Hperm) as (-> & -> & ->).
  unfold adminStatsOf. cbn [totalStudents testsAttempted placementReadyCount].
  rewrite !fold_left_tests.
  destruct r.
  - destruct (decide (STUDENT = STUDENT)) as [_|Hno]; [|done].
    destruct (decide (AuthForm.role (form p) = ADMIN
                      ∧ AuthForm.adminCode (form p) = "ADMIN123")) as [Hadm|_];
      [by apply Hr in Hadm|].
    simpl. rewrite filter_cons, decide_False by discriminate.
    split; [lia | split; [lia | done]].
  - destruct (decide (ADMIN = STUDENT)) as [Hno|_]; [done|].
    destruct (decide (AuthForm.role (form p) = ADMIN
                      ∧ AuthForm.adminCode (form p) = "ADMIN123")) as [_|Hadm];
      [|exfalso; apply Hadm; by apply Hr].
    simpl. split; [lia | done].
Qed.

Lemma registration_adds_one_student_witness :
  default ∅ (coach_users (state ashaRegistered)) !! "eve@example.org" = None
  ∧ totalStudents (adminStats (coach_users (state ashaRegistered))) = 1
  ∧ totalStudents
      (adminStats
         (coach_users
            (state (handleAuth (fillForm (registering "Eve" "eve@example.org" "pw"
                                            ADMIN "admin123") ashaRegistered)).1))) = 2.
Proof.
  assert (Hfree : default ∅ (coach_users (state ashaRegistered)) !! "eve@example.org"
                  = None) by (vm_compute; reflexivity).
  assert (H1 : totalStudents (adminStats (coach_users (state ashaRegistered))) = 1)
    by (vm_compute; reflexivity).
  destruct (registration_adds_one_student
              (fillForm (registering "Eve" "eve@example.org" "pw" ADMIN "admin123")
                        ashaRegistered) eq_refl Hfree) as (Hstudents & _).
  split; [exact Hfree | split; [exact H1 |]].
  rewrite Hstudents. cbn [state fillForm]. rewrite H1. reflexivity.
Defined.

(** * The weak-area list over time, and the store under a submission *)

Lemma fold_Set_add_long (n : nat) (l acc : list string) :
  n ≤ length acc → take n (fold_left JS.Set_add l acc) = take n acc.
Proof.
  intros Hlen. destruct (fold_Set_add_prefix l acc) as [k ->].
  by rewrite take_app_le.
Qed.

Lemma fold_Set_add_take (n : nat) (l : list string) : ∀ acc,
  take n (fold_left JS.Set_add l (take n acc)) = take n (fold_left JS.Set_add l acc).
Proof.
  induction l as [|b l IH]; intros acc; simpl; [by rewrite take_take, Nat.min_id|].
  unfold JS.Set_add at 2 4.
  destruct (decide (b ∈ take n acc)) as [Hin|Hnin].
  - rewrite decide_True by (by eapply subseteq_take). apply IH.
  - destruct (decide (length acc ≤ n)) as [Hshort|Hlong].
    + rewrite (take_ge acc n Hshort) in Hnin |- *. by destruct (decide (b ∈ acc)).
    + assert (Hn : length (take n acc) = n) by (rewrite length_take; lia).
      rewrite (fold_Set_add_long n l (take n acc ++ [b]))
        by (rewrite length_app, Hn; simpl; lia).
      rewrite take_app_le by lia. rewrite take_take, Nat.min_id.
      destruct (decide (b ∈ acc)).
      * rewrite fold_Set_add_long by lia. done.
      * rewrite fold_Set_add_long by (rewrite length_app; simpl; lia).
        rewrite take_app_le by lia. done.
Qed.

Lemma Array_from_Set_app_fold (l k : list string) :
  JS.Array_from_Set (l ++ k) = fold_left JS.Set_add k (JS.Array_from_Set l).
Proof. unfold JS.Array_from_Set. by rewrite fold_left_app. Qed.

(** X29.  Over time the weak-area list is the first ten distinct weak
    areas ever found, in the order in which they were found: for an
    account whose list has no duplicates and at most ten entries, the list
    after a run of assessments is the list before followed by the weak
    areas found in the run, without repetitions, cut after ten entries. *)
Theorem weakAreas_first_ten_found (u : UserStats.t) (cs : list Completed) :
  NoDup (UserStats.weakAreas u) →
  length (UserStats.weakAreas u) ≤ 10 →
  UserStats.weakAreas (afterAssessments u cs)
  = take 10 (JS.Array_from_Set
               (UserStats.weakAreas u ++ concat (map foundWeakAreas cs))).
Proof.
  intros Hnd Hlen. induction cs as [|c cs IH] using rev_ind.
  - simpl. rewrite app_nil_r, Array_from_Set_id by done. by rewrite take_ge.
  - rewrite afterAssessments_snoc. unfold recordAssessment.
    rewrite updateStats_weakAreas, IH. unfold JS.slice0.
    rewrite map_app, concat_app. simpl. rewrite app_nil_r, app_assoc.
    rewrite (Array_from_Set_app_fold
               (UserStats.weakAreas u ++ concat (map foundWeakAreas cs))).
    set (X := JS.Array_from_Set
                (UserStats.weakAreas u ++ concat (map foundWeakAreas cs))).
    rewrite (Array_from_Set_app_fold (take 10 X)).
    rewrite (Array_from_Set_id (take 10 X))
      by (eapply sublist_NoDup; [apply Array_from_Set_NoDup | apply sublist_take]).
    apply fold_Set_add_take.
Qed.

Lemma weakAreas_first_ten_found_witness :
  NoDup (UserStats.weakAreas demoUser)
  ∧ length (UserStats.weakAreas demoUser) ≤ 10
  ∧ UserStats.weakAreas
      (afterAssessments demoUser
         [foundIn 40 ["Pointers"; "Recursion"] "day 1";
          foundIn 50 ["Recursion"; "Hashing"] "day 2";
          foundIn 60 ["Hashing"; "Pointers"; "Closures"] "day 3"])
    = ["Pointers"; "Recursion"; "Hashing"; "Closures"].
Proof.
  assert (Hnd : NoDup (UserStats.weakAreas demoUser)) by apply NoDup_nil_2.
  assert (Hlen : length (UserStats.weakAreas demoUser) ≤ 10) by (simpl; lia).
  split; [exact Hnd | split; [exact Hlen |]].
  rewrite (weakAreas_first_ten_found demoUser _ Hnd Hlen). vm_compute. reflexivity.
Defined.

(** X30.  A submission writes one account only: whatever the content
    provider replies, every account stored under another email than the
    signed-in user's is afterwards stored as before, no account is
    removed, and a store that was absent stays absent. *)
Theorem submission_writes_own_account_only
    (reply : GapReply) (now : string) (st : App) (u : UserStats.t) :
  user st = Some u →
  (∀ e, e ≠ UserStats.email u →
        default ∅ (coach_users (handleSubmitTest reply now st)) !! e
        = default ∅ (coach_users st) !! e)
  ∧ (∀ e, is_Some (default ∅ (coach_users st) !! e) →
          is_Some (default ∅ (coach_users (handleSubmitTest reply now st)) !! e))
  ∧ (coach_users st = None → coach_users (handleSubmitTest reply now st) = None).
Proof.
  intros Hu.
  destruct (analyzeGaps (initialResults (questions st) (answers st)) reply)
    as [a|] eqn:Ha.
  - destruct (handleSubmitTest_analyzed reply now st a u Ha Hu) as (_ & _ & _ & _ & ->).
    destruct (coach_users st) as [users|]; simpl.
    + split; [|split; [|done]].
      * intros e He. by rewrite lookup_insert_ne.
      * intros e Hsome. rewrite lookup_insert. by destruct (decide _).
    + done.
  - destruct (handleSubmitTest_rejected reply now st Ha) as (_ & -> & _). done.
Qed.

Lemma submission_writes_own_account_only_witness :
  user (state (handleAuth (fillForm (registering "Ravi" "ravi@example.org" "pw"
                                       STUDENT "") ashaRegistered)).1)
  = Some (newUser "Ravi" "ravi@example.org" "pw" STUDENT)
  ∧ default ∅ (coach_users
                 (handleSubmitTest Unparseable "day 2"
                    (answeredTest (batch 4) (answeredRight (take 3 (batch 4)))
                       (state (handleAuth
                                 (fillForm (registering "Ravi" "ravi@example.org" "pw"
                                              STUDENT "") ashaRegistered)).1))))
    !! "asha@example.org" = Some demoUser.
Proof.
  assert (Hu : user (answeredTest (batch 4) (answeredRight (take 3 (batch 4)))
                       (state (handleAuth
                                 (fillForm (registering "Ravi" "ravi@example.org" "pw"
                                              STUDENT "") ashaRegistered)).1))
               = Some (newUser "Ravi" "ravi@example.org" "pw" STUDENT))
    by reflexivity.
  split; [reflexivity |].
  destruct (submission_writes_own_account_only Unparseable "day 2" _ _ Hu)
    as (Hother & _).
  rewrite Hother; [vm_compute; reflexivity | vm_compute; discriminate].
Defined.
